(** * Cell-execution tracking and URI-provider registration

  A shallow embedding of two components of the notebook-kernel extension:

  - [LastCellExecutionTracker] (module [Tracker]): remembers, per notebook,
    the last cell executed against a remote kernel and mirrors it into the
    workspace memento;
  - [JupyterUriProviderRegistration] (module [Registration]): the registry
    of third-party Jupyter URI providers.

  Host objects (cells, notebooks, kernels, messages, extensions) are passed
  as immutable snapshots.  The objects the components create themselves (the
  [Partial<CellExecutionInfo>] records, the promise chain, the maps) are
  part of an explicit state. *)

From stdpp Require Import gmap strings list fin_maps.

Local Open Scope string_scope.
Local Open Scope list_scope.

(** ** JavaScript values *)

Module Js.

(** A JS [number].  The code only tests numbers for truthiness and compares
    them with [===] / [!==], so a number is an integer or [NaN]; a
    fractional value behaves like a non-zero integer for both tests. *)
Inductive number :=
| Num (z : Z)
| NaN.

(** [!!n] *)
Definition truthy (n : number) : bool :=
  match n with
  | Num z => negb (Z.eqb z 0)
  | NaN => false
  end.

(** [a === b] on two numbers: [NaN] is not equal to itself. *)
Definition strict_eq (a b : number) : bool :=
  match a, b with
  | Num x, Num y => Z.eqb x y
  | _, _ => false
  end.

(** [!!o] for an optional number field ([undefined] is falsy). *)
Definition truthy_opt (o : option number) : bool :=
  match o with
  | Some n => truthy n
  | None => false
  end.

(** [o === n] where [o] may be [undefined]. *)
Definition strict_eq_opt (o : option number) (n : number) : bool :=
  match o with
  | Some m => strict_eq m n
  | None => false
  end.

(** [!!s] for a string: only the empty string is falsy. *)
Definition truthy_str (s : string) : bool := negb (bool_decide (s = "")).

Definition truthy_str_opt (o : option string) : bool :=
  match o with
  | Some s => truthy_str s
  | None => false
  end.

(** Thrown values: the two built-in errors the components meet, the error
    class the registry throws for a handle that is not the provider's, and
    errors raised by the host or by other extensions. *)
Inductive error :=
| TypeError (what : string)
| Error (message : string)
| InvalidRemoteJupyterServerUriHandleError
    (providerId handle : string) (extensionId : option string)
    (serverId : string)
| HostError (what : string).

(** The completion of a synchronous evaluation. *)
Inductive completion (A : Type) :=
| Normal (a : A)
| Throw (e : error).
Arguments Normal {A} a.
Arguments Throw {A} e.

(** The state of a settled promise. *)
Inductive settled (A : Type) :=
| Fulfilled (a : A)
| Rejected (e : error).
Arguments Fulfilled {A} a.
Arguments Rejected {A} e.

(** [p.then(noop, noop)]: fulfils, however [p] settles. *)
Definition then_noop {A : Type} (p : settled A) : settled unit :=
  match p with
  | Fulfilled _ => Fulfilled tt
  | Rejected _ => Fulfilled tt
  end.

(** [Promise.all(ps)]: rejects with the first rejection, else fulfils. *)
Fixpoint promise_all {A : Type} (ps : list (settled A)) : settled (list A) :=
  match ps with
  | [] => Fulfilled []
  | Fulfilled a :: ps' =>
      match promise_all ps' with
      | Fulfilled l => Fulfilled (a :: l)
      | Rejected e => Rejected e
      end
  | Rejected e :: _ => Rejected e
  end.

(** A JS [Map] with string keys: an association list in insertion order
    without duplicate keys. *)
Fixpoint map_set {V : Type} (k : string) (v : V) (m : list (string * V))
  : list (string * V) :=
  match m with
  | [] => [(k, v)]
  | (k', v') :: m' =>
      if bool_decide (k' = k) then (k, v) :: m'
      else (k', v') :: map_set k v m'
  end.

Definition map_get {V : Type} (k : string) (m : list (string * V)) : option V :=
  snd <$> List.find (fun e => bool_decide (e.1 = k)) m.

Definition map_has {V : Type} (k : string) (m : list (string * V)) : bool :=
  match map_get k m with
  | Some _ => true
  | None => false
  end.

Definition map_delete {V : Type} (k : string) (m : list (string * V))
  : list (string * V) :=
  List.filter (fun e => negb (bool_decide (e.1 = k))) m.

End Js.

(** ** Host types shared by the tracker *)

(** [NotebookDocument]: only [uri.toString()] and [isUntitled] are read. *)
Record NotebookDocument := {
  nb_uri : string;
  nb_isUntitled : bool
}.

(** [TextDocument] of a cell: a document of its own, with its own
  [uri] and [isUntitled]. *)
Record TextDocument := {
  doc_uri : string;
  doc_isUntitled : bool
}.

(** [NotebookCell].  [cell_key] stands for the identity of the object, which
  is what the [WeakMap] is keyed by. *)
Record NotebookCell := {
  cell_key : nat;
  index : Z;
  notebook : NotebookDocument;
  document : TextDocument
}.

(** Modelled from the spec: the connection metadata types and the type guard
    [isRemoteConnection] are declared in [kernels/types], outside the two
    files verified here.  The spec speaks of "remote-kernel execution" and of
    records "keyed by server id": a connection is local or remote, and a
    remote one carries the [serverId] the tracker reads after the guard. *)
Inductive KernelConnectionMetadata :=
| LocalConnection
| RemoteConnection (serverId : string).

Definition isRemoteConnection (m : KernelConnectionMetadata) : bool :=
  match m with
  | RemoteConnection _ => true
  | LocalConnection => false
  end.

(** [kernel.session?.kernel?.id] *)
Record KernelConnection := { kc_id : string }.
Record Session := { session_kernel : option KernelConnection }.

(** [IKernel]; [kernel_key] is the identity of the kernel object. *)
Record IKernel := {
  kernel_key : nat;
  kernelConnectionMetadata : KernelConnectionMetadata;
  session : option Session
}.

(** [kernel?.session?.kernel] *)
Definition session_kernel_of (k : IKernel) : option KernelConnection :=
  match session k with
  | Some s => session_kernel s
  | None => None
  end.

(** [Partial<CellExecutionInfo>]: every field may be absent. *)
Record CellExecutionInfo := {
  msg_id : option string;
  kernelId : option string;
  cellIndex : option Z;
  startTime : option Js.number;
  executionCount : option Js.number
}.

Definition set_startTime (t : Js.number) (i : CellExecutionInfo) :=
  {| msg_id := msg_id i; kernelId := kernelId i; cellIndex := cellIndex i;
   startTime := Some t; executionCount := executionCount i |}.

Definition set_executionCount (n : Js.number) (i : CellExecutionInfo) :=
  {| msg_id := msg_id i; kernelId := kernelId i; cellIndex := cellIndex i;
   startTime := startTime i; executionCount := Some n |}.

(** [IJupyterServerUriEntry]: only [serverId] is read. *)
Record IJupyterServerUriEntry := { entry_serverId : string }.

(** Messages seen by [anyMessage].  Only the parts the handler reads are
  kept:
  - [md_cellId] is [Some s] when [metadata] is an object whose [cellId] is
    the string [s];
  - [parent_msg_id] is what [getParentHeaderMsgId(msg)] returns (the helper
    lives in [cellExecutionMessageHandler], outside the two files verified
    here);
  - [header_date] is [new Date(header.date).getTime()] ([NaN] for a value
    that is not a date), or [None] when evaluating it throws;
  - [content_execution_count] is [Some n] when [content] has an
    [execution_count] whose type is number. *)
Inductive Direction := send | recv.

Record KernelMessage := {
  header_msg_type : string;
  header_msg_id : string;
  header_date : option Js.number;
  md_cellId : option string;
  parent_msg_id : option string;
  content_execution_count : option Js.number
}.

Record IAnyMessageArgs := {
  direction : Direction;
  msg : KernelMessage
}.

(** ** The memento (host key/value store)

  Modelled from the spec: the memento is one of the "host-provided
  primitives", "a key/value memento store" used through "key/value
  get/update"; its code is not in the files verified here.  [get] is
  synchronous; [update] returns a promise, modelled by a ticket: the write
  is in flight until the host settles it.  The model shows a write to [get]
  when the host commits it ([undefined] removes the key), and lets a
  failing write leave the store as it was.  A host may as well show the new
  value to [get] as soon as [update] is called, and keep it when the write
  fails: the properties that read the store are therefore stated where no
  write is in flight, every write having been committed, or relative to what
  [get] returns. *)

Module Memento.
Section WithValue.
Context {V : Type}.

Record t := {
  store : gmap string V;
  inflight : list (nat * (string * option V));
  next : nat
}.

Definition get (m : t) (key : string) (default : V) : V :=
  match store m !! key with
  | Some v => v
  | None => default
  end.

Definition update (m : t) (key : string) (v : option V) : t * nat :=
  ({| store := store m;
      inflight := inflight m ++ [(next m, (key, v))];
      next := S (next m) |}, next m).

Definition commit (key : string) (v : option V) (s : gmap string V)
  : gmap string V :=
  match v with
  | Some x => <[key := x]> s
  | None => delete key s
  end.

Definition find_ticket (u : nat) (l : list (nat * (string * option V)))
  : option (string * option V) :=
  snd <$> List.find (fun e => Nat.eqb (fst e) u) l.

Definition drop_ticket (u : nat) (l : list (nat * (string * option V)))
  : list (nat * (string * option V)) :=
  List.filter (fun e => negb (Nat.eqb (fst e) u)) l.

(** The host settles ticket [u]; [ok] tells whether the write succeeded. *)
Definition settle (m : t) (u : nat) (ok : bool) : t :=
  match find_ticket u (inflight m) with
  | Some (key, v) =>
      {| store := if ok then commit key v (store m) else store m;
         inflight := drop_ticket u (inflight m);
         next := next m |}
  | None => m
  end.

Definition tickets (m : t) : list nat := fst <$> inflight m.

(** Tickets are handed out in increasing order, so that the next one is not
    in flight. *)
Definition fresh_next (m : t) : Prop :=
  Forall (fun u => u < next m) (tickets m).

Definition quiescent (s : gmap string V) : t :=
  {| store := s; inflight := []; next := 0%nat |}.

(** Entries [(n, w0); (n+1, w1); ...] *)
Fixpoint entries (n : nat) (ws : list (string * option V))
  : list (nat * (string * option V)) :=
  match ws with
  | [] => []
  | w :: ws' => (n, w) :: entries (S n) ws'
  end.

(** The writes [ws] committed in order. *)
Definition commit_all (ws : list (string * option V)) (s : gmap string V)
  : gmap string V :=
  foldl (fun s w => commit w.1 w.2 s) s ws.

(** The tickets [us] settled in order, every write succeeding. *)
Definition settle_tickets (us : list nat) (m : t) : t :=
  foldl (fun m u => settle m u true) m us.
End WithValue.
Arguments t V : clear implicits.
End Memento.

(** ** LastCellExecutionTracker *)

Module Tracker.

(** The object stored under one memento key:
    [{ [key: string]: Partial<CellExecutionInfo> }]. *)
Abbreviation StateObj := (gmap string CellExecutionInfo).

(** [getStateKey] *)
Definition getStateKey (serverId : string) : string :=
  String.append "LAST_EXECUTED_CELL_" serverId.

(** The callbacks handed to [chainedPromises.finally], one constructor per
    closure of the source, with the variables each closure captures.  [info]
    is a reference to the record object, which is read when the callback
    runs. *)
Inductive Callback :=
| DeleteStep (id : string) (cell : NotebookCell)
| TrackStep (id : string) (cell : NotebookCell) (info : nat)
| RemoveStep (removedServers : list IJupyterServerUriEntry).

(** [chainedPromises].  The field is only ever replaced by
    [chainedPromises.finally(cb)], so the promise is a linear chain that
    starts at [Promise.resolve()]:
    - [queue] holds the callbacks registered by [finally] that have not run;
    - [awaiting] holds the tickets of the promise returned by the callback of
      the link that is running: the link is pending while one is left;
    - [outcome] is the state of the last link that settled.  [finally] passes
      the state of its receiver on, unless its callback throws. *)
Record Chain := {
  outcome : Js.settled unit;
  awaiting : list nat;
  queue : list Callback
}.

(** [chainedPromises.finally(cb)] *)
Definition finally (cb : Callback) (c : Chain) : Chain :=
  {| outcome := outcome c; awaiting := awaiting c; queue := queue c ++ [cb] |}.

(** What [trackCellExecution] pushed onto its local [disposables]. *)
Inductive DisposableKind :=
| OnStartedListener
| DisconnectHandler.

(** One call of [trackCellExecution] that went past the guard: the closure
    [anyMessageHandler] with the [cell] and the kernel it captured, whether
    the [kernel.onStarted] listener is registered, whether the handler is
    connected to [anyMessage], and the local [disposables] array. *)
Record Tracking := {
  tr_cell : NotebookCell;
  tr_kernel : nat;
  tr_listening : bool;
  tr_connected : bool;
  tr_disposables : list DisposableKind
}.

(** The state of the tracker: the record objects it allocated ([heap]; a
    reference is an index), the [executedCells] weak map from cells to
    references, the promise chain, the workspace memento, and the
    subscriptions made by [trackCellExecution]. *)
Record State := {
  heap : list CellExecutionInfo;
  executedCells : gmap nat nat;
  chainedPromises : Chain;
  workspaceMemento : Memento.t StateObj;
  trackings : list Tracking
}.

Definition with_heap (h : list CellExecutionInfo) (st : State) : State :=
  {| heap := h; executedCells := executedCells st;
     chainedPromises := chainedPromises st;
     workspaceMemento := workspaceMemento st; trackings := trackings st |}.

Definition with_executedCells (e : gmap nat nat) (st : State) : State :=
  {| heap := heap st; executedCells := e;
     chainedPromises := chainedPromises st;
     workspaceMemento := workspaceMemento st; trackings := trackings st |}.

Definition with_chain (c : Chain) (st : State) : State :=
  {| heap := heap st; executedCells := executedCells st;
     chainedPromises := c;
     workspaceMemento := workspaceMemento st; trackings := trackings st |}.

Definition with_memento (m : Memento.t StateObj) (st : State) : State :=
  {| heap := heap st; executedCells := executedCells st;
     chainedPromises := chainedPromises st;
     workspaceMemento := m; trackings := trackings st |}.

Definition with_trackings (t : list Tracking) (st : State) : State :=
  {| heap := heap st; executedCells := executedCells st;
     chainedPromises := chainedPromises st;
     workspaceMemento := workspaceMemento st; trackings := t |}.

(** The tracker right after construction, over a workspace memento that
    holds [s]. *)
Definition init (s : gmap string StateObj) : State :=
  {| heap := []; executedCells := ∅;
     chainedPromises :=
       {| outcome := Js.Fulfilled tt; awaiting := []; queue := [] |};
     workspaceMemento := Memento.quiescent s; trackings := [] |}.

(** The object a reference points to. *)
Definition empty_info : CellExecutionInfo :=
  {| msg_id := None; kernelId := None; cellIndex := None;
     startTime := None; executionCount := None |}.

Definition deref (h : list CellExecutionInfo) (r : nat) : CellExecutionInfo :=
  default empty_info (h !! r).

(** The record persisted for a notebook under a server. *)
Definition persisted (st : State) (serverId notebookId : string)
  : option CellExecutionInfo :=
  Memento.get (workspaceMemento st) (getStateKey serverId) ∅ !! notebookId.

(** [getLastTrackedCellExecution] *)
Definition getLastTrackedCellExecution
    (st : State) (notebook : NotebookDocument) (kernel : IKernel)
  : option CellExecutionInfo :=
  if nb_isUntitled notebook then None
  else match kernelConnectionMetadata kernel with
       | LocalConnection => None
       | RemoteConnection serverId =>
           Memento.get (workspaceMemento st) (getStateKey serverId) ∅
             !! nb_uri notebook
       end.

(** [deleteTrackedCellExecution]: the guards, then one more link on the
    chain. *)
Definition deleteTrackedCellExecution
    (cell : NotebookCell) (kernel : IKernel) (st : State) : State :=
  if nb_isUntitled (notebook cell) then st
  else match kernelConnectionMetadata kernel with
       | LocalConnection => st
       | RemoteConnection serverId =>
           with_chain
             (finally (DeleteStep (getStateKey serverId) cell)
                (chainedPromises st)) st
       end.

(** [trackLastExecution] *)
Definition trackLastExecution
    (cell : NotebookCell) (kernel : IKernel) (info : nat) (st : State)
  : State :=
  let i := deref (heap st) info in
  if negb (Js.truthy_opt (executionCount i))
     && negb (Js.truthy_str_opt (msg_id i))
     && negb (Js.truthy_opt (startTime i))
  then st
  else match kernelConnectionMetadata kernel with
       | LocalConnection => st
       | RemoteConnection serverId =>
           with_chain
             (finally (TrackStep (getStateKey serverId) cell info)
                (chainedPromises st)) st
       end.

(** [onDidRemoveServerUris] *)
Definition onDidRemoveServerUris
    (removedServers : list IJupyterServerUriEntry) (st : State) : State :=
  with_chain (finally (RemoveStep removedServers) (chainedPromises st)) st.

(** The body of a [finally] callback, up to the calls of
    [workspaceMemento.update]: the list of writes it requests, or the error
    it throws.  Every requested write is wrapped in [.then(noop, noop)] and
    the callback returns the promise of all of them (none for the branch of
    [DeleteStep] that returns [undefined]). *)
Definition callback_body
    (cb : Callback) (h : list CellExecutionInfo) (m : Memento.t StateObj)
  : Js.completion (list (string * option StateObj)) :=
  match cb with
  | DeleteStep id cell =>
      let notebookId := nb_uri (notebook cell) in
      let currentState := Memento.get m id ∅ in
      match currentState !! notebookId with
      | None =>
          Js.Throw (Js.TypeError
            "Cannot read properties of undefined (reading 'cellIndex')")
      | Some record =>
          if bool_decide (cellIndex record = Some (index cell))
          then Js.Normal [(id, Some (delete notebookId currentState))]
          else Js.Normal []
      end
  | TrackStep id cell info =>
      let notebookId := nb_uri (notebook cell) in
      let currentState := Memento.get m id ∅ in
      Js.Normal [(id, Some (<[notebookId := deref h info]> currentState))]
  | RemoveStep removedServers =>
      Js.Normal
        ((fun id => (id, None)) <$>
           ((fun item => getStateKey (entry_serverId item)) <$> removedServers))
  end.

(** Calls [workspaceMemento.update] for each requested write, in order. *)
Fixpoint issue (m : Memento.t StateObj) (ws : list (string * option StateObj))
  : Memento.t StateObj * list nat :=
  match ws with
  | [] => (m, [])
  | (key, v) :: ws' =>
      let (m1, u) := Memento.update m key v in
      let (m2, us) := issue m1 ws' in
      (m2, u :: us)
  end.

(** The next link of the chain runs: enabled once the previous link has
    settled. *)
Definition run_next (st : State) : option State :=
  let c := chainedPromises st in
  match awaiting c, queue c with
  | [], cb :: q =>
      match callback_body cb (heap st) (workspaceMemento st) with
      | Js.Throw e =>
          Some (with_chain
                  {| outcome := Js.Rejected e; awaiting := []; queue := q |}
                  st)
      | Js.Normal ws =>
          let (m, us) := issue (workspaceMemento st) ws in
          Some (with_chain
                  {| outcome := outcome c; awaiting := us; queue := q |}
                  (with_memento m st))
      end
  | _, _ => None
  end.

(** The host settles the write with ticket [u]: the memento commits it or
    not, and the [.then(noop, noop)] promise on it fulfils either way. *)
Definition settle (u : nat) (ok : bool) (st : State) : State :=
  let c := chainedPromises st in
  with_chain
    {| outcome := outcome c;
       awaiting := List.filter (fun v => negb (Nat.eqb v u)) (awaiting c);
       queue := queue c |}
    (with_memento (Memento.settle (workspaceMemento st) u ok) st).

(** Settles tickets one after the other, every write succeeding. *)
Definition settle_all (us : list nat) (st : State) : State :=
  foldl (fun s u => settle u true s) st us.

(** Runs the chain until nothing is left to do, the host committing every
    write as soon as it is requested.  [fuel] bounds the number of links. *)
Fixpoint drain (fuel : nat) (st : State) : State :=
  match fuel with
  | O => st
  | S fuel' =>
      match run_next st with
      | Some st' =>
          drain fuel' (settle_all (awaiting (chainedPromises st')) st')
      | None => st
      end
  end.

Definition flush (st : State) : State :=
  let st0 := settle_all (awaiting (chainedPromises st)) st in
  drain (length (queue (chainedPromises st0))) st0.

(** Nothing queued, nothing running, no write in flight. *)
Definition idle (st : State) : Prop :=
  queue (chainedPromises st) = []
  ∧ awaiting (chainedPromises st) = []
  ∧ Memento.inflight (workspaceMemento st) = [].

(** Removing the tickets [us] from a list of awaited tickets. *)
Definition remove_all (us l : list nat) : list nat :=
  foldl (fun l u => List.filter (fun v => negb (Nat.eqb v u)) l) l us.

(** One link of an otherwise quiet chain, run to its end: the writes the
    callback requests are committed in order; a callback that throws
    rejects the chain and writes nothing. *)
Definition after_link (cb : Callback) (q : list Callback) (st : State) : State :=
  match callback_body cb (heap st) (workspaceMemento st) with
  | Js.Throw e =>
      with_chain {| outcome := Js.Rejected e; awaiting := []; queue := q |} st
  | Js.Normal ws =>
      with_chain
        {| outcome := outcome (chainedPromises st); awaiting := []; queue := q |}
        (with_memento
           {| Memento.store :=
                Memento.commit_all ws (Memento.store (workspaceMemento st));
              Memento.inflight := [];
              Memento.next := Memento.next (workspaceMemento st) + length ws |}
           st)
  end.

(** *** Subscriptions *)

(** [hookUpSession] *)
Definition hookUpSession (kernel : IKernel) (t : Tracking) : Tracking :=
  match session_kernel_of kernel with
  | None => t
  | Some _ =>
      {| tr_cell := tr_cell t; tr_kernel := tr_kernel t;
         tr_listening := tr_listening t; tr_connected := true;
         tr_disposables := tr_disposables t ++ [DisconnectHandler] |}
  end.

(** [trackCellExecution].  [kernel.onStarted] is a host event: called with
    two arguments it takes the second as [thisArgs], so the listener is
    registered and nothing is pushed on [disposables] for it. *)
Definition trackCellExecution
    (cell : NotebookCell) (kernel : IKernel) (st : State) : State :=
  if negb (isRemoteConnection (kernelConnectionMetadata kernel))
     || doc_isUntitled (document cell)
  then st
  else
    let st1 := with_executedCells (delete (cell_key cell) (executedCells st)) st in
    let t0 := {| tr_cell := cell; tr_kernel := kernel_key kernel;
                 tr_listening := true; tr_connected := false;
                 tr_disposables := [] |} in
    let t1 := match session kernel with
              | Some _ => hookUpSession kernel t0
              | None => t0
              end in
    with_trackings (trackings st1 ++ [t1]) st1.

(** Disposing one element of [disposables].  [DisconnectHandler] is the
    [Disposable] built by [hookUpSession]: it disconnects the handler from
    [kernel.session?.kernel?.anyMessage], if there is one. *)
Definition dispose_one (kernel : IKernel) (t : Tracking) (d : DisposableKind)
  : Tracking :=
  match d with
  | OnStartedListener =>
      {| tr_cell := tr_cell t; tr_kernel := tr_kernel t;
         tr_listening := false; tr_connected := tr_connected t;
         tr_disposables := tr_disposables t |}
  | DisconnectHandler =>
      match session_kernel_of kernel with
      | Some _ =>
          {| tr_cell := tr_cell t; tr_kernel := tr_kernel t;
             tr_listening := tr_listening t; tr_connected := false;
             tr_disposables := tr_disposables t |}
      | None => t
      end
  end.

(** Modelled from the spec: [disposeAllDisposables] is defined in
    [platform/common/helpers], outside the two files verified here.  After
    the spec's "disposable event subscriptions", it disposes every element
    of the array, in order, and leaves the array empty. *)
Definition disposeAllDisposables (kernel : IKernel) (t : Tracking) : Tracking :=
  let t' := foldl (dispose_one kernel) t (tr_disposables t) in
  {| tr_cell := tr_cell t'; tr_kernel := tr_kernel t';
     tr_listening := tr_listening t'; tr_connected := tr_connected t';
     tr_disposables := [] |}.

(** [kernel.session?.kernel?.id || ''] *)
Definition kernel_id_or_empty (kernel : IKernel) : string :=
  match session_kernel_of kernel with
  | Some kc => if Js.truthy_str (kc_id kc) then kc_id kc else ""
  | None => ""
  end.

(** [anyMessageHandler], the closure of the tracking [t].  [kernel] is the
    state of the captured kernel object when the message arrives and [now]
    is [new Date().getTime()]. *)
Definition anyMessageHandler
    (t : Tracking) (kernel : IKernel) (now : Js.number)
    (args : IAnyMessageArgs) (st : State) : State * Tracking :=
  let cell := tr_cell t in
  match direction args with
  | send =>
      let request := msg args in
      if bool_decide (header_msg_type request = "execute_request")
         && bool_decide (md_cellId request = Some (doc_uri (document cell)))
      then
        let r := length (heap st) in
        let fresh :=
          {| msg_id := Some (header_msg_id request);
             kernelId := Some (kernel_id_or_empty kernel);
             cellIndex := Some (index cell);
             startTime := None; executionCount := None |} in
        (with_executedCells (<[cell_key cell := r]> (executedCells st))
           (with_heap (heap st ++ [fresh]) st), t)
      else (st, t)
  | recv =>
      let ioPub := msg args in
      match executedCells st !! cell_key cell with
      | None => (st, t)
      | Some r =>
          let info := deref (heap st) r in
          if Js.truthy_str_opt (msg_id info)
             && bool_decide (parent_msg_id ioPub = msg_id info)
          then
            let st1 :=
              if negb (Js.truthy_opt (startTime info))
              then with_heap
                     (<[r := set_startTime (default now (header_date ioPub)) info]>
                        (heap st)) st
              else st in
            let info1 := deref (heap st1) r in
            match content_execution_count ioPub with
            | Some n =>
                if negb (Js.truthy_opt (executionCount info1))
                then
                  if negb (Js.strict_eq_opt (executionCount info1) n)
                  then
                    let st2 :=
                      with_heap
                        (<[r := set_executionCount n info1]> (heap st1)) st1 in
                    (trackLastExecution cell kernel r st2,
                     disposeAllDisposables kernel t)
                  else (st1, t)
                else (st1, t)
            | None => (st1, t)
            end
          else (st, t)
      end
  end.

(** The handler as seen from the signal [kernel.session.kernel.anyMessage]:
    it runs only while connected, and only a kernel with a session kernel
    has a signal to emit on. *)
Definition deliver
    (t : Tracking) (kernel : IKernel) (now : Js.number)
    (args : IAnyMessageArgs) (st : State) : State * Tracking :=
  match session_kernel_of kernel with
  | None => (st, t)
  | Some _ =>
      if tr_connected t && bool_decide (tr_kernel t = kernel_key kernel)
      then anyMessageHandler t kernel now args st
      else (st, t)
  end.

(** The messages one handler sees, in order; each comes with the state of
    the kernel object and the clock at that moment. *)
Fixpoint deliver_all
    (t : Tracking) (evs : list (IKernel * Js.number * IAnyMessageArgs))
    (st : State) : State * Tracking :=
  match evs with
  | [] => (st, t)
  | (kernel, now, args) :: evs' =>
      let (st1, t1) := deliver t kernel now args st in
      deliver_all t1 evs' st1
  end.

(** [kernel.session.kernel.anyMessage] emits [args]: every connected handler
    of that kernel runs, in the order of connection. *)
Fixpoint emit_to
    (ts : list Tracking) (kernel : IKernel) (now : Js.number)
    (args : IAnyMessageArgs) (st : State) : State * list Tracking :=
  match ts with
  | [] => (st, [])
  | t :: ts' =>
      let (st1, t1) := deliver t kernel now args st in
      let (st2, ts2) := emit_to ts' kernel now args st1 in
      (st2, t1 :: ts2)
  end.

Definition emit
    (kernel : IKernel) (now : Js.number) (args : IAnyMessageArgs)
    (st : State) : State :=
  let (st1, ts) := emit_to (trackings st) kernel now args st in
  with_trackings ts st1.

(** [kernel.onStarted] fires: every registered listener of that kernel calls
    [hookUpSession]. *)
Definition started (kernel : IKernel) (st : State) : State :=
  with_trackings
    ((fun t => if tr_listening t && bool_decide (tr_kernel t = kernel_key kernel)
               then hookUpSession kernel t else t) <$> trackings st)
    st.

(** *** Vocabulary of the properties of the handler *)

(** The record the handler leaves in memory when it observes the execution
    count [n]: the start time is filled in if it was missing, then the
    count. *)
Definition observed
    (now : Js.number) (ioPub : KernelMessage) (n : Js.number)
    (info : CellExecutionInfo) : CellExecutionInfo :=
  set_executionCount n
    (if Js.truthy_opt (startTime info) then info
     else set_startTime (default now (header_date ioPub)) info).

(** A connected handler has its disconnecting disposable in [disposables]. *)
Definition wf_tracking (t : Tracking) : Prop :=
  tr_connected t = true → DisconnectHandler ∈ tr_disposables t.

(** [keeps h h']: every record object of [h] whose [startTime] (resp.
    [executionCount]) is truthy has the same field in [h']. *)
Definition keeps (h h' : list CellExecutionInfo) : Prop :=
  ∀ r,
    (∀ tm, startTime (deref h r) = Some tm → Js.truthy tm = true →
           startTime (deref h' r) = Some tm)
    ∧ (∀ n, executionCount (deref h r) = Some n → Js.truthy n = true →
            executionCount (deref h' r) = Some n).

(** *** The tracker as a transition system

    The operations the rest of the extension (or the host) performs on the
    tracker, the links of the chain starting to run, and the host settling
    writes, interleaved in any order. *)

Inductive Op :=
| OpGetLast (notebook : NotebookDocument) (kernel : IKernel)
| OpTrackCell (cell : NotebookCell) (kernel : IKernel)
| OpDelete (cell : NotebookCell) (kernel : IKernel)
| OpEmit (kernel : IKernel) (now : Js.number) (args : IAnyMessageArgs)
| OpStarted (kernel : IKernel)
| OpRemoved (removedServers : list IJupyterServerUriEntry).

Definition call (op : Op) (st : State) : State :=
  match op with
  | OpGetLast _ _ => st
  | OpTrackCell cell kernel => trackCellExecution cell kernel st
  | OpDelete cell kernel => deleteTrackedCellExecution cell kernel st
  | OpEmit kernel now args => emit kernel now args st
  | OpStarted kernel => started kernel st
  | OpRemoved removedServers => onDidRemoveServerUris removedServers st
  end.

(** [Begin cb us]: the callback [cb] starts its read-modify-write and
    requests the writes with tickets [us]. *)
Inductive Label :=
| Call (op : Op)
| Begin (cb : Callback) (us : list nat)
| Settled (u : nat) (ok : bool).

Inductive step : State → Label → State → Prop :=
| step_call op st :
    step st (Call op) (call op st)
| step_begin st cb q st' :
    queue (chainedPromises st) = cb :: q →
    run_next st = Some st' →
    step st (Begin cb (awaiting (chainedPromises st'))) st'
| step_settle st u ok :
    u ∈ Memento.tickets (workspaceMemento st) →
    step st (Settled u ok) (settle u ok st).

Inductive exec : State → list Label → State → Prop :=
| exec_nil st : exec st [] st
| exec_snoc st tr st1 l st2 :
    exec st tr st1 → step st1 l st2 → exec st (tr ++ [l]) st2.





End Tracker.

(** ** JupyterUriProviderRegistration *)

Module Registration.

Definition REGISTRATION_ID_EXTENSION_OWNER_MEMENTO_KEY : string :=
  "REGISTRATION_ID_EXTENSION_OWNER_MEMENTO_KEY".

(** An element of the persisted list:
    [{ extensionId: string; providerId: string }]. *)
Record RegistrationRecord := {
  extensionId : string;
  providerId : string
}.

(** [IJupyterServerUri], as far as this component looks into it. *)
Record IJupyterServerUri := {
  baseUrl : string;
  displayName : string
}.

(** [IJupyterUriProvider], an object of another extension.  The optional
    method [getHandles] and [getServerUri] are given by the promise they
    return when called. *)
Record IJupyterUriProvider := {
  id : string;
  getHandles : option (Js.settled (list string));
  getServerUri : string → Js.settled IJupyterServerUri
}.

(** [JupyterUriProviderWrapper]: forwards to the provider it wraps.  Of its
    members the registry uses the id, [getHandles], [getServerUri] and
    [dispose]. *)
Record JupyterUriProviderWrapper := {
  provider : IJupyterUriProvider;
  w_extensionId : string;
  disposed : bool
}.

(** An extension known to the host ([IExtensions.all]):
    [contributesProvider] is the truthiness of
    [packageJSON?.contributes?.pythonRemoteServerProvider], and [activate]
    is the promise [activate()] returns. *)
Record Extension := {
  ext_id : string;
  contributesProvider : bool;
  isActive : bool;
  activate : Js.settled unit
}.

Record State := {
  _providers : list (string * JupyterUriProviderWrapper);
  providerExtensionMapping : list (string * string);
  loadedOtherExtensionsPromise : option (Js.settled unit);
  globalMemento : Memento.t (list RegistrationRecord);
  fired : nat;
  activated : list string;
  log : list string
}.

Definition with_providers (p : list (string * JupyterUriProviderWrapper))
    (st : State) : State :=
  {| _providers := p;
     providerExtensionMapping := providerExtensionMapping st;
     loadedOtherExtensionsPromise := loadedOtherExtensionsPromise st;
     globalMemento := globalMemento st; fired := fired st;
     activated := activated st; log := log st |}.

Definition with_mapping (m : list (string * string)) (st : State) : State :=
  {| _providers := _providers st;
     providerExtensionMapping := m;
     loadedOtherExtensionsPromise := loadedOtherExtensionsPromise st;
     globalMemento := globalMemento st; fired := fired st;
     activated := activated st; log := log st |}.

Definition with_loaded (l : option (Js.settled unit)) (st : State) : State :=
  {| _providers := _providers st;
     providerExtensionMapping := providerExtensionMapping st;
     loadedOtherExtensionsPromise := l;
     globalMemento := globalMemento st; fired := fired st;
     activated := activated st; log := log st |}.

Definition with_globalMemento (m : Memento.t (list RegistrationRecord))
    (st : State) : State :=
  {| _providers := _providers st;
     providerExtensionMapping := providerExtensionMapping st;
     loadedOtherExtensionsPromise := loadedOtherExtensionsPromise st;
     globalMemento := m; fired := fired st;
     activated := activated st; log := log st |}.

Definition with_activated (a : list string) (st : State) : State :=
  {| _providers := _providers st;
     providerExtensionMapping := providerExtensionMapping st;
     loadedOtherExtensionsPromise := loadedOtherExtensionsPromise st;
     globalMemento := globalMemento st; fired := fired st;
     activated := a; log := log st |}.

Definition with_log (l : list string) (st : State) : State :=
  {| _providers := _providers st;
     providerExtensionMapping := providerExtensionMapping st;
     loadedOtherExtensionsPromise := loadedOtherExtensionsPromise st;
     globalMemento := globalMemento st; fired := fired st;
     activated := activated st; log := l |}.

(** [_onProvidersChanged.fire()] *)
Definition fire (st : State) : State :=
  {| _providers := _providers st;
     providerExtensionMapping := providerExtensionMapping st;
     loadedOtherExtensionsPromise := loadedOtherExtensionsPromise st;
     globalMemento := globalMemento st; fired := S (fired st);
     activated := activated st; log := log st |}.

(** The registry right after construction, over a global memento holding
    [s]. *)
Definition init (s : gmap string (list RegistrationRecord)) : State :=
  {| _providers := []; providerExtensionMapping := [];
     loadedOtherExtensionsPromise := None;
     globalMemento := Memento.quiescent s; fired := 0;
     activated := []; log := [] |}.

(** The persisted list of registration records. *)
Definition registeredList (st : State) : list RegistrationRecord :=
  Memento.get (globalMemento st) REGISTRATION_ID_EXTENSION_OWNER_MEMENTO_KEY [].

(** [loadExistingProviderExtensionMapping] *)
Definition loadExistingProviderExtensionMapping (st : State) : State :=
  with_mapping
    (foldl (fun m item => Js.map_set (providerId item) (extensionId item) m)
       (providerExtensionMapping st) (registeredList st))
    st.

(** [updateRegistrationInfo], up to its [await]: the write is requested and
    its ticket returned.  The method is wrapped by [swallowExceptions] and
    its caller adds [.catch(noop)], so that a failing write is dropped. *)
Definition updateRegistrationInfo (providerId0 extensionId0 : string)
    (st : State) : State * nat :=
  let st1 := loadExistingProviderExtensionMapping st in
  let st2 :=
    with_mapping
      (Js.map_set providerId0 extensionId0 (providerExtensionMapping st1))
      st1 in
  let newList :=
    (fun e => {| extensionId := e.2; providerId := e.1 |})
      <$> providerExtensionMapping st2 in
  let (m, u) :=
    Memento.update (globalMemento st2)
      REGISTRATION_ID_EXTENSION_OWNER_MEMENTO_KEY (Some newList) in
  (with_globalMemento m st2, u).

(** [new JupyterUriProviderWrapper(provider, extensionId)] *)
Definition wrap (p : IJupyterUriProvider) (extensionId0 : string)
  : JupyterUriProviderWrapper :=
  {| provider := p; w_extensionId := extensionId0; disposed := false |}.

(** [registerProvider]: the state it leaves and how it completes.  On
    success the value is the id under which the returned disposable will
    unregister. *)
Definition registerProvider
    (p : IJupyterUriProvider) (extensionId0 : string) (st : State)
  : State * Js.completion string :=
  if negb (Js.map_has (id p) (_providers st)) then
    let (st1, _) := updateRegistrationInfo (id p) extensionId0 st in
    let st2 :=
      with_providers (Js.map_set (id p) (wrap p extensionId0) (_providers st1))
        st1 in
    (fire st2, Js.Normal (id p))
  else
    (st, Js.Throw (Js.Error
            (String.append "IJupyterUriProvider already exists with id " (id p)))).

(** [dispose] of the object returned by [registerProvider]. *)
Definition unregister (providerId0 : string) (st : State) : State :=
  let ps :=
    match Js.map_get providerId0 (_providers st) with
    | Some w =>
        Js.map_set providerId0
          {| provider := provider w; w_extensionId := w_extensionId w;
             disposed := true |} (_providers st)
    | None => _providers st
    end in
  fire (with_providers (Js.map_delete providerId0 ps) st).

(** The host settles the write of a registration list. *)
Definition settle (u : nat) (ok : bool) (st : State) : State :=
  with_globalMemento (Memento.settle (globalMemento st) u ok) st.

Section WithConstants.

(** Constants and helpers of other modules of the extension: the id of the
    host extension, the localized message [DataScience.unknownServerUri],
    and the two functions from which the server id of an error is
    computed. *)
Variable JVSC_EXTENSION_ID : string.
Variable unknownServerUri : string.
Variable generateUriFromRemoteProvider : string → string → string.
Variable computeServerId : string → string.

(** The extensions [loadOtherExtensionsImpl] selects. *)
Definition otherExtensions (all : list Extension) (st : State)
  : list Extension :=
  let extensionIds := extensionId <$> registeredList st in
  List.filter (fun e => negb (bool_decide (ext_id e = JVSC_EXTENSION_ID)))
    (List.filter
       (fun e => contributesProvider e || bool_decide (ext_id e ∈ extensionIds))
       all).

(** [loadOtherExtensionsImpl]: [activate()] is called on the selected
    extensions that are not active; the method awaits [Promise.all] over
    the [.then(noop, noop)] of the activations, and its promise settles as
    that one does. *)
Definition loadOtherExtensionsImpl (all : list Extension) (st : State)
  : State * Js.settled unit :=
  let st1 := loadExistingProviderExtensionMapping st in
  let extensions := otherExtensions all st1 in
  let promises :=
    (fun e => if isActive e then Js.Fulfilled tt
              else Js.then_noop (activate e)) <$> extensions in
  let requested :=
    ext_id <$> List.filter (fun e => negb (isActive e)) extensions in
  (with_activated (activated st1 ++ requested) st1,
   match Js.promise_all promises with
   | Js.Fulfilled _ => Js.Fulfilled tt
   | Js.Rejected e => Js.Rejected e
   end).

(** [loadOtherExtensions] *)
Definition loadOtherExtensions (all : list Extension) (st : State)
  : State * Js.settled unit :=
  match loadedOtherExtensionsPromise st with
  | Some p => (st, p)
  | None =>
      let (st1, p) := loadOtherExtensionsImpl all st in
      (with_loaded (Some p) st1, p)
  end.

(** The getter [providers] *)
Definition providers (all : list Extension) (st : State)
  : State * list JupyterUriProviderWrapper :=
  let (st1, _) := loadOtherExtensions all st in
  (st1, snd <$> _providers st1).

(** The asynchronous lookups await [loadOtherExtensions()] first; [during]
    stands for what the rest of the program (the activated extensions, for
    one) does to the registry until they are resumed. *)
Definition getProviders (all : list Extension) (during : State → State)
    (st : State) : State * Js.settled (list JupyterUriProviderWrapper) :=
  let (st1, p) := loadOtherExtensions all st in
  match p with
  | Js.Rejected e => (st1, Js.Rejected e)
  | Js.Fulfilled _ =>
      let (st2, l) := providers all (during st1) in
      (st2, Js.Fulfilled l)
  end.

Definition getProvider (all : list Extension) (during : State → State)
    (id0 : string) (st : State)
  : State * Js.settled (option JupyterUriProviderWrapper) :=
  let (st1, p) := loadOtherExtensions all st in
  match p with
  | Js.Rejected e => (st1, Js.Rejected e)
  | Js.Fulfilled _ =>
      let st2 := during st1 in
      (st2, Js.Fulfilled (Js.map_get id0 (_providers st2)))
  end.

(** [getJupyterServerUri].  [during'] is what happens to the registry while
    [provider.getHandles()] is awaited.  The wrapper's [getServerUri]
    forwards the promise of the provider (the telemetry it sends on the way
    is left out). *)
Definition getJupyterServerUri
    (all : list Extension) (during during' : State → State)
    (id0 handle : string) (st : State)
  : State * Js.settled IJupyterServerUri :=
  let (st1, p) := loadOtherExtensions all st in
  match p with
  | Js.Rejected e => (st1, Js.Rejected e)
  | Js.Fulfilled _ =>
      let st2 := during st1 in
      match Js.map_get id0 (_providers st2) with
      | None =>
          (with_log
             (log st2 ++
                [String.append unknownServerUri
                   (String.append ". Provider Id="
                      (String.append id0
                         (String.append " and handle=" handle)))])
             st2,
           Js.Rejected (Js.Error unknownServerUri))
      | Some w =>
          match getHandles (provider w) with
          | Some (Js.Rejected e) => (during' st2, Js.Rejected e)
          | Some (Js.Fulfilled handles) =>
              let st3 := during' st2 in
              if bool_decide (handle ∈ handles)
              then (st3, getServerUri (provider w) handle)
              else
                let extensionId0 :=
                  Js.map_get id0 (providerExtensionMapping st3) in
                let serverId :=
                  computeServerId (generateUriFromRemoteProvider id0 handle) in
                (st3,
                 Js.Rejected
                   (Js.InvalidRemoteJupyterServerUriHandleError
                      id0 handle extensionId0 serverId))
          | None => (st2, getServerUri (provider w) handle)
          end
      end
  end.

End WithConstants.

(** The predicate by which the lazy load picks the extensions to activate. *)
Definition to_activate (JVSC_EXTENSION_ID : string)
    (persisted : list RegistrationRecord) (e : Extension) : bool :=
  (contributesProvider e
   || bool_decide (ext_id e ∈ extensionId <$> persisted))
  && (negb (bool_decide (ext_id e = JVSC_EXTENSION_ID))
      && negb (isActive e)).

End Registration.

(** ** Concrete inputs used by the examples *)

Module Examples.
Import Tracker.

Definition saved_nb : NotebookDocument :=
  {| nb_uri := "file:///work/nb.ipynb"; nb_isUntitled := false |}.

Definition untitled_nb : NotebookDocument :=
  {| nb_uri := "untitled:Untitled-1.ipynb"; nb_isUntitled := true |}.

Definition cell_doc : TextDocument :=
  {| doc_uri := "vscode-notebook-cell:/work/nb.ipynb#c2";
     doc_isUntitled := false |}.

(** The third cell of a saved notebook. *)
Definition cell2 : NotebookCell :=
  {| cell_key := 7; index := 2; notebook := saved_nb; document := cell_doc |}.

(** The same cell after two cells were inserted above it. *)
Definition cell2_moved : NotebookCell :=
  {| cell_key := 7; index := 4; notebook := saved_nb; document := cell_doc |}.

(** A cell of an untitled notebook: its text document lives under the
    scheme of notebook cells and is not itself untitled. *)
Definition untitled_cell : NotebookCell :=
  {| cell_key := 9; index := 0; notebook := untitled_nb;
     document := {| doc_uri := "vscode-notebook-cell:Untitled-1.ipynb#c0";
                    doc_isUntitled := false |} |}.

Definition remote_kernel : IKernel :=
  {| kernel_key := 1;
     kernelConnectionMetadata := RemoteConnection "srv1";
     session := Some {| session_kernel := Some {| kc_id := "k-42" |} |} |}.

Definition local_kernel : IKernel :=
  {| kernel_key := 2;
     kernelConnectionMetadata := LocalConnection;
     session := Some {| session_kernel := Some {| kc_id := "k-loc" |} |} |}.

Definition record2 : CellExecutionInfo :=
  {| msg_id := Some "m1"; kernelId := Some "k-42"; cellIndex := Some 2%Z;
     startTime := Some (Js.Num 1000); executionCount := Some (Js.Num 5) |}.

(** A workspace memento holding [record2] for [saved_nb] under [srv1], and a
    record of another server. *)
Definition store1 : gmap string StateObj :=
  {[ getStateKey "srv1" := {[ nb_uri saved_nb := record2 ]};
     getStateKey "srv2" := {[ "file:///work/other.ipynb" := record2 ]} ]}.

Definition execute_request : IAnyMessageArgs :=
  {| direction := send;
     msg := {| header_msg_type := "execute_request"; header_msg_id := "m1";
               header_date := None; md_cellId := Some (doc_uri cell_doc);
               parent_msg_id := None; content_execution_count := None |} |}.

Definition execute_input (count : Z) : IAnyMessageArgs :=
  {| direction := recv;
     msg := {| header_msg_type := "execute_input"; header_msg_id := "m2";
               header_date := Some (Js.Num 1000); md_cellId := None;
               parent_msg_id := Some "m1";
               content_execution_count := Some (Js.Num count) |} |}.

(** The tracker after [trackCellExecution(cell2, remote_kernel)] and the
    execute request of the cell. *)
Definition tracking_started : State :=
  emit remote_kernel (Js.Num 900) execute_request
    (trackCellExecution cell2 remote_kernel (init ∅)).




End Examples.

(** ** Concrete inputs of the registry *)

Module RegistryExamples.
Import Registration.

(** A provider with two handles. *)
Definition colab : IJupyterUriProvider :=
  {| id := "colab";
     getHandles := Some (Js.Fulfilled ["h1"; "h2"]);
     getServerUri := fun handle =>
       Js.Fulfilled {| baseUrl := String.append "https://colab/" handle;
                       displayName := "Colab" |} |}.

(** The extensions the host knows: the host extension itself, the owner of
    [colab] (whose activation fails), one that contributes a provider and
    one that has nothing to do with providers. *)
Definition extensions_all : list Extension :=
  [ {| ext_id := "ms-toolsai.jupyter"; contributesProvider := true;
       isActive := true; activate := Js.Fulfilled tt |};
    {| ext_id := "google.colab"; contributesProvider := false;
       isActive := false; activate := Js.Rejected (Js.HostError "boom") |};
    {| ext_id := "acme.hub"; contributesProvider := true;
       isActive := false; activate := Js.Fulfilled tt |};
    {| ext_id := "acme.other"; contributesProvider := false;
       isActive := false; activate := Js.Fulfilled tt |} ].

(** The registry after [registerProvider(colab, 'google.colab')]. *)
Definition registered_once : State :=
  (registerProvider colab "google.colab" (init ∅)).1.

End RegistryExamples.

(** ** Vocabulary of the further properties of the tracker *)

Module TrackerMore.
Import Tracker.

(** The links [q] of a quiet chain run one after the other, each to its end
    before the next starts. *)
Fixpoint run_links (q : list Callback) (st : State) : State :=
  match q with
  | [] => st
  | cb :: q' => run_links q' (after_link cb q' st)
  end.

(** The callbacks that started along a trace, in the order they started. *)
Fixpoint begun (tr : list Label) : list Callback :=
  match tr with
  | [] => []
  | Begin cb _ :: tr' => cb :: begun tr'
  | _ :: tr' => begun tr'
  end.

(** *** The promises of a link

    The host answers the writes a callback requested, each by the state in
    which the promise of [workspaceMemento.update] settles. *)

(** What the callback of a link returns, [answers] being the answers to the
    writes it requests, in order: every [update(...)] is followed by
    [.then(noop, noop)]; the callback of [onDidRemoveServerUris] returns
    [Promise.all] of these promises, the two others the one promise of their
    write, or [undefined] when the untracking step writes nothing. *)
Definition returned (cb : Callback) (answers : list (Js.settled unit))
  : option (Js.settled unit) :=
  match cb with
  | RemoveStep _ =>
      Some (match Js.promise_all (Js.then_noop <$> answers) with
            | Js.Fulfilled _ => Js.Fulfilled tt
            | Js.Rejected e => Js.Rejected e
            end)
  | DeleteStep _ _ | TrackStep _ _ _ =>
      match answers with
      | [] => None
      | answer :: _ => Some (Js.then_noop answer)
      end
  end.

(** The completion of the callback [cb] run in [st]: it throws, or returns
    what [returned] says. *)
Definition link_result (cb : Callback) (st : State)
    (answers : list (Js.settled unit))
  : Js.completion (option (Js.settled unit)) :=
  match callback_body cb (heap st) (workspaceMemento st) with
  | Js.Throw e => Js.Throw e
  | Js.Normal _ => Js.Normal (returned cb answers)
  end.

(** [p.finally(cb)] settles as [p] does, unless [cb] throws or returns a
    promise that rejects: then it rejects with that error. *)
Definition finally_settles (p : Js.settled unit)
    (r : Js.completion (option (Js.settled unit))) : Js.settled unit :=
  match r with
  | Js.Throw e => Js.Rejected e
  | Js.Normal (Some (Js.Rejected e)) => Js.Rejected e
  | Js.Normal _ => p
  end.

Definition is_fulfilled {A : Type} (p : Js.settled A) : bool :=
  match p with
  | Js.Fulfilled _ => true
  | Js.Rejected _ => false
  end.

(** The host settles the writes with tickets [us] as [answers] say. *)
Definition settle_answers (us : list nat) (answers : list (Js.settled unit))
    (st : State) : State :=
  foldl (fun s ua => settle ua.1 (is_fulfilled ua.2) s) st (zip us answers).

(** The incoming message [args] carries a new execution count [n] for the
    request tracked for the cell of [t], whose record is [r]: its parent
    message id is the tracked one, which is not empty, and no truthy count
    is recorded yet. *)
Definition new_count (t : Tracking) (st : State) (args : IAnyMessageArgs)
    (r : nat) (n : Js.number) : Prop :=
  direction args = recv
  ∧ executedCells st !! cell_key (tr_cell t) = Some r
  ∧ Js.truthy_str_opt (msg_id (deref (heap st) r)) = true
  ∧ parent_msg_id (msg args) = msg_id (deref (heap st) r)
  ∧ content_execution_count (msg args) = Some n
  ∧ Js.truthy_opt (executionCount (deref (heap st) r)) = false
  ∧ Js.strict_eq_opt (executionCount (deref (heap st) r)) n = false.

(** A record as the handler creates it for an execute request. *)
Definition requested (i : CellExecutionInfo) : Prop :=
  is_Some (msg_id i) ∧ is_Some (kernelId i) ∧ is_Some (cellIndex i).

(** A record with every field present and a message id that is not empty. *)
Definition complete (i : CellExecutionInfo) : Prop :=
  Js.truthy_str_opt (msg_id i) = true
  ∧ is_Some (kernelId i) ∧ is_Some (cellIndex i)
  ∧ is_Some (startTime i) ∧ is_Some (executionCount i).

(** The listener on [kernel.onStarted] of a handler is registered and no
    element of [disposables] unregisters it. *)
Definition listens (t : Tracking) : Prop :=
  tr_listening t = true ∧ OnStartedListener ∉ tr_disposables t.

(** An object of the memento that holds complete records only. *)
Definition complete_obj (obj : StateObj) : Prop :=
  ∀ nb i, obj !! nb = Some i → complete i.

(** A memento whose committed objects and requested writes hold complete
    records only. *)
Definition stored_complete (m : Memento.t StateObj) : Prop :=
  (∀ id obj, Memento.store m !! id = Some obj → complete_obj obj)
  ∧ (∀ u id obj, (u, (id, Some obj)) ∈ Memento.inflight m → complete_obj obj).

(** What holds of the records in memory: every record object is one the
    handler created, the map of executed cells refers to existing objects,
    and a record waiting to be persisted is complete. *)
Definition mem_inv (h : list CellExecutionInfo) (ec : gmap nat nat)
    (q : list Callback) : Prop :=
  Forall requested h
  ∧ (∀ k r, ec !! k = Some r → r < length h)
  ∧ (∀ id cell r, TrackStep id cell r ∈ q → r < length h ∧ complete (deref h r)).

(** What holds of the records of the tracker in every state it reaches. *)
Definition records_inv (st : State) : Prop :=
  mem_inv (heap st) (executedCells st) (queue (chainedPromises st))
  ∧ stored_complete (workspaceMemento st).

End TrackerMore.

(** ** Further concrete inputs *)

Module MoreExamples.
Import Tracker.

(** The handler of [Examples.tracking_started], connected. *)
Definition handler : Tracking :=
  {| tr_cell := Examples.cell2; tr_kernel := 1; tr_listening := true;
     tr_connected := true; tr_disposables := [DisconnectHandler] |}.

(** The tracker once the count 5 of the tracked request has been seen. *)
Definition count_seen : State :=
  (anyMessageHandler handler Examples.remote_kernel (Js.Num 950)
     (Examples.execute_input 5) Examples.tracking_started).1.

(** A reply to another request. *)
Definition other_reply : IAnyMessageArgs :=
  {| direction := recv;
     msg := {| header_msg_type := "execute_input"; header_msg_id := "m9";
               header_date := Some (Js.Num 2000); md_cellId := None;
               parent_msg_id := Some "m7";
               content_execution_count := Some (Js.Num 8) |} |}.

(** The tracker after the untracking step threw for want of a record, what
    then happens, and where it ends. *)
Definition rejected : State :=
  flush (deleteTrackedCellExecution Examples.cell2 Examples.remote_kernel
           (init ∅)).

Definition after_rejection_trace : list Label :=
  [ Call (OpRemoved [ {| entry_serverId := "srv1" |} ]);
    Begin (RemoveStep [ {| entry_serverId := "srv1" |} ]) [0];
    Settled 0 true ].

Definition after_rejection_final : State :=
  let s1 := onDidRemoveServerUris [ {| entry_serverId := "srv1" |} ] rejected in
  settle 0 true (default s1 (run_next s1)).

(** An execution that persists the record of [Examples.cell2]. *)
Definition tracked_trace : list Label :=
  [ Call (OpTrackCell Examples.cell2 Examples.remote_kernel);
    Call (OpEmit Examples.remote_kernel (Js.Num 900) Examples.execute_request);
    Call (OpEmit Examples.remote_kernel (Js.Num 950) (Examples.execute_input 5));
    Begin (TrackStep (getStateKey "srv1") Examples.cell2 0) [0];
    Settled 0 true ].

Definition tracked_final : State :=
  let s3 := emit Examples.remote_kernel (Js.Num 950) (Examples.execute_input 5)
              Examples.tracking_started in
  settle 0 true (default s3 (run_next s3)).

(** Two servers are removed at once; the host fails the first write and
    commits the second. *)
Definition two_removals : State :=
  onDidRemoveServerUris
    [ {| entry_serverId := "srv1" |}; {| entry_serverId := "srv2" |} ]
    (init Examples.store1).

Definition disk_full : list (Js.settled unit) :=
  [ Js.Rejected (Js.HostError "disk full"); Js.Fulfilled tt ].

(** A kernel whose session has not started. *)
Definition cold_kernel : IKernel :=
  {| kernel_key := 1;
     kernelConnectionMetadata := RemoteConnection "srv1";
     session := None |}.

End MoreExamples.

(** ** JupyterUriProviderWrapper *)

Module Wrapper.

(** [QuickPickItem], as far as the wrapper looks into it, with the property
    [original] the wrapper adds to the items it hands out. *)
Local Unset Elimination Schemes.
Inductive QuickPickItem := {
  label : string;
  description : option string;
  detail : option string;
  original : option QuickPickItem
}.
Local Set Elimination Schemes.

(** The optional members of [IJupyterUriProvider] behind the quick pick,
    each given by the promise it returns when called. *)
Record QuickPickMembers := {
  provider_getQuickPickEntryItems : option (Js.settled (list QuickPickItem));
  provider_handleQuickPick :
    option (QuickPickItem → bool → Js.settled (option string))
}.

(** A property value of the object a provider answers with: what the
    wrapper tests of it is its truthiness, whether it is an object, the
    number of its own keys and whether it is a [Date]. *)
Inductive PropValue :=
| PUndefined
| PNull
| PBool (b : bool)
| PNumber (n : Js.number)
| PString (s : string)
| PObject (keys : nat) (isDate : bool)
| PFunction.

(** [!!value] *)
Definition truthy (v : PropValue) : bool :=
  match v with
  | PUndefined | PNull => false
  | PBool b => b
  | PNumber n => Js.truthy n
  | PString s => Js.truthy_str s
  | PObject _ _ | PFunction => true
  end.

(** [typeof value === 'object' && Object.keys(value).length === 0
     && !(value instanceof Date)], for a truthy value *)
Definition empty_object (v : PropValue) : bool :=
  match v with
  | PObject keys isDate => Nat.eqb keys 0 && negb isDate
  | _ => false
  end.

(** The keys the loop over [Object.keys(server)] pushes on [pemUsed]. *)
Definition pemUsed_of (properties : list (string * PropValue)) : list string :=
  fst <$> List.filter (fun kv => truthy kv.2 && negb (empty_object kv.2))
            properties.

(** The properties of the event [Telemetry.JupyterServerProviderResponseApi]. *)
Record TelemetryEvent := {
  providerId : string;
  extensionId : string;
  pemUsed : list string
}.

(** The module-level set [handlesForWhichWeHaveSentTelemetry], shared by all
    wrappers, and the telemetry events sent so far. *)
Record Telemetry := {
  handlesForWhichWeHaveSentTelemetry : gset string;
  sent : list TelemetryEvent
}.

Section WithHost.

(** [localize.DataScience.uriProviderDescriptionFormat], of another module,
    and the own enumerable properties of a server object, in the order of
    [Object.keys]. *)
Variable uriProviderDescriptionFormat : string → string → string.
Variable own_properties :
  Registration.IJupyterServerUri → list (string * PropValue).

(** The callback of [map] in [getQuickPickEntryItems]: the spread of [q]
    with [description] and [original] replaced. *)
Definition decorate (extensionId0 : string) (q : QuickPickItem) : QuickPickItem :=
  {| label := label q;
     description :=
       Some (uriProviderDescriptionFormat
               (match description q with
                | Some d => if Js.truthy_str d then d else ""
                | None => ""
                end)
               extensionId0);
     detail := detail q;
     original := Some q |}.

(** [getQuickPickEntryItems] *)
Definition getQuickPickEntryItems (p : QuickPickMembers) (extensionId0 : string)
  : Js.settled (list QuickPickItem) :=
  match provider_getQuickPickEntryItems p with
  | None => Js.Fulfilled []
  | Some (Js.Rejected e) => Js.Rejected e
  | Some (Js.Fulfilled qs) => Js.Fulfilled (decorate extensionId0 <$> qs)
  end.

(** [handleQuickPick] *)
Definition handleQuickPick (p : QuickPickMembers) (item : QuickPickItem)
    (back : bool) : Js.settled (option string) :=
  match provider_handleQuickPick p with
  | None => Js.Fulfilled None
  | Some handle =>
      match original item with
      | Some q => handle q back
      | None => handle item back
      end
  end.

(** [getServerUri]: the answer of the provider, and the telemetry sent on
    the way. *)
Definition getServerUri
    (w : Registration.JupyterUriProviderWrapper) (handle : string)
    (t : Telemetry) : Telemetry * Js.settled Registration.IJupyterServerUri :=
  match Registration.getServerUri (Registration.provider w) handle with
  | Js.Rejected e => (t, Js.Rejected e)
  | Js.Fulfilled server =>
      if negb (String.prefix "_builtin" (Registration.id (Registration.provider w)))
         && negb (bool_decide (handle ∈ handlesForWhichWeHaveSentTelemetry t))
      then
        ({| handlesForWhichWeHaveSentTelemetry :=
              {[ handle ]} ∪ handlesForWhichWeHaveSentTelemetry t;
            sent :=
              sent t ++
                [ {| providerId := Registration.id (Registration.provider w);
                     extensionId := Registration.w_extensionId w;
                     pemUsed := pemUsed_of (own_properties server) |} ] |},
         Js.Fulfilled server)
      else (t, Js.Fulfilled server)
  end.


End WithHost.

(** A provider with a quick pick of two entries, which answers by the label
    of the entry it is handed. *)
Definition picker : QuickPickMembers :=
  {| provider_getQuickPickEntryItems :=
       Some (Js.Fulfilled
               [ {| label := "Existing"; description := None; detail := None;
                    original := None |};
                 {| label := "New"; description := Some "start one";
                    detail := None; original := None |} ]);
     provider_handleQuickPick :=
       Some (fun (item : QuickPickItem) (back : bool) =>
               Js.Fulfilled (if back then Some "back" else Some (label item))) |}.

End Wrapper.

(** ** Vocabulary of the further properties of the registry *)

Module RegistrationMore.
Import Registration.

(** The extension a list of registration records gives as the owner of the
    provider [k]: the last record of the provider counts. *)
Definition owner (l : list RegistrationRecord) (k : string) : option string :=
  extensionId
    <$> last (List.filter (fun r => bool_decide (providerId r = k)) l).

(** The registration records of a mapping from provider ids to extension
    ids, in the order of the mapping. *)
Definition records (m : list (string * string)) : list RegistrationRecord :=
  (fun e => {| extensionId := e.2; providerId := e.1 |}) <$> m.

(** A second provider, which cannot list its handles. *)
Definition hub : IJupyterUriProvider :=
  {| id := "hub";
     getHandles := None;
     getServerUri := fun handle =>
       Js.Fulfilled {| baseUrl := String.append "https://hub/" handle;
                       displayName := "Hub" |} |}.

(** A global memento left by an earlier session, in which [colab] was
    registered by another extension. *)
Definition earlier_session : gmap string (list RegistrationRecord) :=
  {[ REGISTRATION_ID_EXTENSION_OWNER_MEMENTO_KEY :=
       [ {| extensionId := "acme.hub"; providerId := "hub" |};
         {| extensionId := "acme.colab"; providerId := "colab" |} ] ]}.

(** The states the registry reaches: from its construction, by the public
    operations and by the host settling a write.  The lookups are taken with
    nothing happening while they await, what happens meanwhile being steps
    of its own. *)
Inductive reachable (JVSC unknown : string)
    (gen : string → string → string) (csid : string → string)
  : State → Prop :=
| reach_init s :
    reachable JVSC unknown gen csid (init s)
| reach_registerProvider p extensionId0 st :
    reachable JVSC unknown gen csid st →
    reachable JVSC unknown gen csid (registerProvider p extensionId0 st).1
| reach_dispose providerId0 st :
    reachable JVSC unknown gen csid st →
    reachable JVSC unknown gen csid (unregister providerId0 st)
| reach_settle u ok st :
    reachable JVSC unknown gen csid st →
    reachable JVSC unknown gen csid (settle u ok st)
| reach_providers all st :
    reachable JVSC unknown gen csid st →
    reachable JVSC unknown gen csid (providers JVSC all st).1
| reach_getProviders all st :
    reachable JVSC unknown gen csid st →
    reachable JVSC unknown gen csid
      (getProviders JVSC all (fun s => s) st).1
| reach_getProvider all id0 st :
    reachable JVSC unknown gen csid st →
    reachable JVSC unknown gen csid
      (getProvider JVSC all (fun s => s) id0 st).1
| reach_getJupyterServerUri all id0 handle st :
    reachable JVSC unknown gen csid st →
    reachable JVSC unknown gen csid
      (getJupyterServerUri JVSC unknown gen csid all (fun s => s)
         (fun s => s) id0 handle st).1.

(** The lazy load has not run, or its promise is fulfilled. *)
Definition loaded_ok (st : State) : Prop :=
  loadedOtherExtensionsPromise st = None
  ∨ loadedOtherExtensionsPromise st = Some (Js.Fulfilled tt).

(** The registry of a later session, which starts from the list persisted
    by [RegistryExamples.registered_once]. *)
Definition later_session : State :=
  init (Memento.store
          (globalMemento (settle 0 true RegistryExamples.registered_once))).

End RegistrationMore.

(** * Properties *)

(** ** The memento *)

Module MementoFacts.
Import Memento.
Section WithValue.
Context {V : Type}.
Implicit Types (m : Memento.t V) (ws : list (string * option V)).

Lemma drop_ticket_entries_ge u n ws :
  u < n → drop_ticket u (entries n ws) = entries n ws.
Proof.
  revert n. induction ws as [|w ws IH]; intros n Hlt; [done|].
  simpl. destruct (Nat.eqb_spec n u) as [->|Hne]; [lia|].
  simpl. f_equal. apply IH. lia.
Qed.

Lemma settle_head n w ws s k :
  settle {| store := s; inflight := (n, w) :: entries (S n) ws; next := k |}
    n true
  = {| store := commit w.1 w.2 s; inflight := entries (S n) ws; next := k |}.
Proof.
  unfold settle, find_ticket. simpl. rewrite Nat.eqb_refl. simpl.
  destruct w as [key v]. simpl. f_equal.
  apply drop_ticket_entries_ge. lia.
Qed.

Lemma settle_tickets_entries ws : ∀ n s k,
  settle_tickets (seq n (length ws))
    {| store := s; inflight := entries n ws; next := k |}
  = {| store := commit_all ws s; inflight := []; next := k |}.
Proof.
  induction ws as [|w ws IH]; intros n s k; [done|].
  simpl. unfold settle_tickets in *. simpl.
  rewrite settle_head. apply IH.
Qed.

End WithValue.
End MementoFacts.

(** ** The promise chain of the tracker *)

Module TrackerFacts.
Import Tracker MementoFacts.

Lemma issue_spec ws : ∀ m : Memento.t StateObj,
  issue m ws
  = ({| Memento.store := Memento.store m;
        Memento.inflight := Memento.inflight m ++ Memento.entries (Memento.next m) ws;
        Memento.next := Memento.next m + length ws |},
     seq (Memento.next m) (length ws)).
Proof.
  induction ws as [|[key v] ws IH]; intros m; simpl.
  - rewrite app_nil_r, Nat.add_0_r. by destruct m.
  - rewrite IH. simpl. rewrite <- app_assoc. simpl.
    repeat f_equal. lia.
Qed.

Lemma remove_all_covered us : ∀ l,
  (∀ v, v ∈ l → v ∈ us) → remove_all us l = [].
Proof.
  induction us as [|u us IH]; intros l Hl; simpl.
  - destruct l as [|v l]; [done|]. specialize (Hl v). set_solver.
  - apply IH. intros v Hv.
    apply list_elem_of_In in Hv. apply filter_In in Hv as [Hv Hne].
    apply list_elem_of_In in Hv. apply Hl in Hv.
    apply negb_true_iff, Nat.eqb_neq in Hne.
    apply elem_of_cons in Hv as [->|Hv]; done.
Qed.

Lemma settle_all_spec us : ∀ st,
  settle_all us st
  = with_chain
      {| outcome := outcome (chainedPromises st);
         awaiting := remove_all us (awaiting (chainedPromises st));
         queue := queue (chainedPromises st) |}
      (with_memento (Memento.settle_tickets us (workspaceMemento st)) st).
Proof.
  induction us as [|u us IH]; intros st.
  - by destruct st as [h e [o a q] m t].
  - unfold settle_all in *. simpl. rewrite IH. by destruct st.
Qed.

Lemma run_link cb q st st' :
  awaiting (chainedPromises st) = [] →
  queue (chainedPromises st) = cb :: q →
  Memento.inflight (workspaceMemento st) = [] →
  run_next st = Some st' →
  settle_all (awaiting (chainedPromises st')) st' = after_link cb q st.
Proof.
  intros Ha Hq Hi Hrun. unfold run_next in Hrun. rewrite Ha, Hq in Hrun.
  unfold after_link.
  destruct (callback_body cb (heap st) (workspaceMemento st)) as [ws|e].
  - rewrite issue_spec in Hrun. injection Hrun as <-.
    rewrite settle_all_spec. simpl. rewrite Hi. simpl.
    rewrite settle_tickets_entries.
    rewrite remove_all_covered by done. by destruct st.
  - injection Hrun as <-. by destruct st.
Qed.

Lemma run_next_enabled cb q st :
  awaiting (chainedPromises st) = [] →
  queue (chainedPromises st) = cb :: q →
  is_Some (run_next st).
Proof.
  intros Ha Hq. unfold run_next. rewrite Ha, Hq.
  destruct (callback_body _ _ _); [|by eexists].
  destruct (issue _ _). by eexists.
Qed.

Lemma after_link_quiet cb q st :
  awaiting (chainedPromises (after_link cb q st)) = []
  ∧ queue (chainedPromises (after_link cb q st)) = q
  ∧ (Memento.inflight (workspaceMemento st) = [] →
     Memento.inflight (workspaceMemento (after_link cb q st)) = []).
Proof.
  unfold after_link. by destruct (callback_body _ _ _).
Qed.

(** Flushing a chain with nothing in flight runs its links one by one. *)
Lemma drain_cons n cb q st :
  awaiting (chainedPromises st) = [] →
  queue (chainedPromises st) = cb :: q →
  Memento.inflight (workspaceMemento st) = [] →
  drain (S n) st = drain n (after_link cb q st).
Proof.
  intros Ha Hq Hi. simpl.
  destruct (run_next_enabled cb q st Ha Hq) as [st' Hst'].
  rewrite Hst'. by rewrite (run_link cb q st st').
Qed.

Lemma flush_one cb st :
  awaiting (chainedPromises st) = [] →
  queue (chainedPromises st) = [cb] →
  Memento.inflight (workspaceMemento st) = [] →
  flush st = after_link cb [] st.
Proof.
  intros Ha Hq Hi. unfold flush. rewrite Ha. simpl. rewrite Hq.
  by rewrite (drain_cons 0 cb []).
Qed.

End TrackerFacts.

(** ** What the queued steps do to the persisted state *)

Module TrackerSpec.
Import Tracker MementoFacts TrackerFacts.

Lemma getStateKey_inj a b : getStateKey a = getStateKey b → a = b.
Proof. unfold getStateKey. simpl. intros H. by simplify_eq. Qed.

Lemma idle_init s : idle (init s).
Proof. done. Qed.

(** The effect of the step queued by [deleteTrackedCellExecution] when the
    notebook has a record. *)
Lemma delete_link_present st cell kernel serverId record :
  idle st →
  nb_isUntitled (notebook cell) = false →
  kernelConnectionMetadata kernel = RemoteConnection serverId →
  persisted st serverId (nb_uri (notebook cell)) = Some record →
  persisted (flush (deleteTrackedCellExecution cell kernel st))
    serverId (nb_uri (notebook cell))
  = if bool_decide (cellIndex record = Some (index cell))
    then None else Some record.
Proof.
  intros (Hq & Ha & Hi) Hu Hk Hrec.
  unfold deleteTrackedCellExecution. rewrite Hu, Hk.
  rewrite (flush_one (DeleteStep (getStateKey serverId) cell)); simpl;
    [|done|by rewrite Hq|done].
  unfold after_link, persisted in *. simpl. rewrite Hrec.
  case_bool_decide; simpl; [|done].
  unfold Memento.get. simpl. rewrite lookup_insert_eq.
  apply lookup_delete_eq.
Qed.

(** The same step when the notebook has no record: reading [cellIndex] of
    [undefined] throws, the chain is rejected and nothing is written. *)
Lemma delete_link_absent st cell kernel serverId :
  idle st →
  nb_isUntitled (notebook cell) = false →
  kernelConnectionMetadata kernel = RemoteConnection serverId →
  persisted st serverId (nb_uri (notebook cell)) = None →
  ∃ what,
    outcome (chainedPromises (flush (deleteTrackedCellExecution cell kernel st)))
    = Js.Rejected (Js.TypeError what).
Proof.
  intros (Hq & Ha & Hi) Hu Hk Hrec.
  unfold deleteTrackedCellExecution. rewrite Hu, Hk.
  rewrite (flush_one (DeleteStep (getStateKey serverId) cell)); simpl;
    [|done|by rewrite Hq|done].
  unfold after_link, persisted in *. simpl. rewrite Hrec. simpl. by eexists.
Qed.

(** C1, as amended: for a remote kernel and a saved notebook that has a
    persisted record, the step queued by [deleteTrackedCellExecution] removes
    the record exactly when the cell index stored in it equals the index of
    the cell; a record whose stored index differs (or is absent) is kept as
    it is. *)
Theorem delete_removes_record_iff_index_matches
    st cell kernel serverId record :
  idle st →
  nb_isUntitled (notebook cell) = false →
  kernelConnectionMetadata kernel = RemoteConnection serverId →
  persisted st serverId (nb_uri (notebook cell)) = Some record →
  let st' := flush (deleteTrackedCellExecution cell kernel st) in
  (persisted st' serverId (nb_uri (notebook cell)) = None
     ↔ cellIndex record = Some (index cell))
  ∧ (cellIndex record ≠ Some (index cell) →
     persisted st' serverId (nb_uri (notebook cell)) = Some record).
Proof.
  intros Hidle Hu Hk Hrec st'. subst st'.
  rewrite (delete_link_present st cell kernel serverId record) by done.
  case_bool_decide; split; done.
Qed.

Lemma delete_removes_record_iff_index_matches_witness :
  let st' := flush (deleteTrackedCellExecution Examples.cell2
                      Examples.remote_kernel (init Examples.store1)) in
  (persisted st' "srv1" (nb_uri Examples.saved_nb) = None
     ↔ cellIndex Examples.record2 = Some 2%Z)
  ∧ (cellIndex Examples.record2 ≠ Some 2%Z →
     persisted st' "srv1" (nb_uri Examples.saved_nb) = Some Examples.record2).
Proof.
  apply (delete_removes_record_iff_index_matches
           (init Examples.store1) Examples.cell2 Examples.remote_kernel
           "srv1" Examples.record2).
  - apply idle_init.
  - reflexivity.
  - reflexivity.
  - vm_compute. reflexivity.
Defined.

(** C1 as stated fails: a record whose stored cell index still matches the
    cell is deleted, not kept (and one whose index differs is kept). *)
Lemma delete_keeps_matching_record_counterexample :
  ¬ (∀ st cell kernel serverId record,
       idle st →
       nb_isUntitled (notebook cell) = false →
       kernelConnectionMetadata kernel = RemoteConnection serverId →
       persisted st serverId (nb_uri (notebook cell)) = Some record →
       (persisted (flush (deleteTrackedCellExecution cell kernel st))
          serverId (nb_uri (notebook cell)) = None
        ↔ cellIndex record ≠ Some (index cell))).
Proof.
  intros H.
  specialize (H (init Examples.store1) Examples.cell2 Examples.remote_kernel
                "srv1" Examples.record2 (idle_init _) eq_refl eq_refl).
  assert (Hrec : persisted (init Examples.store1) "srv1"
                   (nb_uri (notebook Examples.cell2)) = Some Examples.record2)
    by (vm_compute; reflexivity).
  specialize (H Hrec).
  rewrite (delete_link_present (init Examples.store1) Examples.cell2
             Examples.remote_kernel "srv1" Examples.record2
             (idle_init _) eq_refl eq_refl Hrec) in H.
  simpl in H. destruct H as [H _]. by apply H.
Qed.

(** A record is kept when the cell has moved since it was stored. *)
Example delete_keeps_record_of_moved_cell :
  persisted
    (flush (deleteTrackedCellExecution Examples.cell2_moved
              Examples.remote_kernel (init Examples.store1)))
    "srv1" (nb_uri Examples.saved_nb)
  = Some Examples.record2.
Proof. vm_compute. reflexivity. Qed.

(** C9, at the failing input: with no record persisted for the notebook, the
    step queued by [deleteTrackedCellExecution] reads [cellIndex] of
    [undefined]; it throws a [TypeError] and leaves the chain rejected. *)
Theorem delete_step_throws_without_record :
  persisted (init ∅) "srv1" (nb_uri (notebook Examples.cell2)) = None
  ∧ callback_body (DeleteStep (getStateKey "srv1") Examples.cell2) []
      (Memento.quiescent ∅)
    = Js.Throw (Js.TypeError
        "Cannot read properties of undefined (reading 'cellIndex')")
  ∧ outcome (chainedPromises
       (flush (deleteTrackedCellExecution Examples.cell2
                 Examples.remote_kernel (init ∅))))
    = Js.Rejected (Js.TypeError
        "Cannot read properties of undefined (reading 'cellIndex')").
Proof. vm_compute. done. Qed.

(** Clearing a list of keys. *)
Lemma commit_all_clear (keys : list string) : ∀ (s : gmap string StateObj) k,
  Memento.commit_all ((fun id => (id, None)) <$> keys) s !! k
  = if bool_decide (k ∈ keys) then None else s !! k.
Proof.
  induction keys as [|key keys IH]; intros s k; simpl.
  - done.
  - rewrite IH.
    destruct (decide (k ∈ keys)) as [Hin|Hnin].
    + rewrite !bool_decide_eq_true_2; [done| |done]. by right.
    + rewrite (bool_decide_eq_false_2 (k ∈ keys)) by done.
      destruct (decide (k = key)) as [->|Hne].
      * rewrite bool_decide_eq_true_2 by left. apply lookup_delete_eq.
      * rewrite bool_decide_eq_false_2.
        -- by apply lookup_delete_ne.
        -- intros [?|?]%elem_of_cons; done.
Qed.

Lemma remove_link st removedServers :
  idle st →
  Memento.store
    (workspaceMemento (flush (onDidRemoveServerUris removedServers st)))
  = Memento.commit_all
      ((fun id => (id, None)) <$>
         ((fun item => getStateKey (entry_serverId item)) <$> removedServers))
      (Memento.store (workspaceMemento st)).
Proof.
  intros (Hq & Ha & Hi). unfold onDidRemoveServerUris.
  rewrite (flush_one (RemoveStep removedServers)); simpl;
    [done|done|by rewrite Hq|done].
Qed.

(** C4: once the step queued by [onDidRemoveServerUris] has run, the key
    [LAST_EXECUTED_CELL_<serverId>] of every removed server is cleared, so no
    record of a removed server is left; the keys of servers that are not in
    the list hold what they held before. *)
Theorem removed_servers_are_cleared st removedServers :
  idle st →
  let st' := flush (onDidRemoveServerUris removedServers st) in
  (∀ item, item ∈ removedServers →
     Memento.store (workspaceMemento st') !! getStateKey (entry_serverId item)
       = None
     ∧ ∀ notebookId, persisted st' (entry_serverId item) notebookId = None)
  ∧ (∀ serverId, serverId ∉ entry_serverId <$> removedServers →
     Memento.store (workspaceMemento st') !! getStateKey serverId
       = Memento.store (workspaceMemento st) !! getStateKey serverId)
  ∧ idle st'.
Proof.
  intros Hidle st'.
  assert (Hstore := remove_link st removedServers Hidle). fold st' in Hstore.
  split; [|split].
  - intros item Hin.
    assert (Hnone : Memento.store (workspaceMemento st')
                      !! getStateKey (entry_serverId item) = None).
    { rewrite Hstore, commit_all_clear.
      rewrite bool_decide_eq_true_2; [done|].
      apply list_elem_of_fmap. by exists item. }
    split; [done|]. intros notebookId.
    unfold persisted, Memento.get. by rewrite Hnone.
  - intros serverId Hnin. rewrite Hstore, commit_all_clear.
    rewrite bool_decide_eq_false_2; [done|].
    intros (item & Heq & Hin)%list_elem_of_fmap.
    apply getStateKey_inj in Heq. apply Hnin.
    apply list_elem_of_fmap. by exists item.
  - destruct Hidle as (Hq & Ha & Hi). subst st'.
    unfold onDidRemoveServerUris.
    rewrite (flush_one (RemoveStep removedServers)); simpl;
      [done|done|by rewrite Hq|done].
Qed.

Lemma removed_servers_are_cleared_witness :
  let st' := flush (onDidRemoveServerUris [ {| entry_serverId := "srv1" |} ]
                      (init Examples.store1)) in
  (∀ item, item ∈ [ {| entry_serverId := "srv1" |} ] →
     Memento.store (workspaceMemento st') !! getStateKey (entry_serverId item)
       = None
     ∧ ∀ notebookId, persisted st' (entry_serverId item) notebookId = None)
  ∧ (∀ serverId,
       serverId ∉ entry_serverId <$> [ {| entry_serverId := "srv1" |} ] →
     Memento.store (workspaceMemento st') !! getStateKey serverId
       = Memento.store (workspaceMemento (init Examples.store1))
           !! getStateKey serverId)
  ∧ idle st'.
Proof.
  apply (removed_servers_are_cleared (init Examples.store1)
           [ {| entry_serverId := "srv1" |} ]).
  apply idle_init.
Defined.

Lemma deref_insert h r x :
  r < length h → deref (<[r := x]> h) r = x.
Proof. intros Hr. unfold deref. by rewrite list_lookup_insert_eq. Qed.

Lemma msg_id_valid_ref h r m :
  msg_id (deref h r) = Some m → r < length h.
Proof.
  unfold deref. intros H. apply lookup_lt_is_Some.
  destruct (h !! r); [by eexists|done].
Qed.

(** The handler on a message that carries a new execution count for the
    tracked message id. *)
Lemma handler_observes st t kernel now args r m n :
  direction args = recv →
  executedCells st !! cell_key (tr_cell t) = Some r →
  msg_id (deref (heap st) r) = Some m →
  m ≠ "" →
  parent_msg_id (msg args) = Some m →
  content_execution_count (msg args) = Some n →
  Js.truthy_opt (executionCount (deref (heap st) r)) = false →
  Js.strict_eq_opt (executionCount (deref (heap st) r)) n = false →
  anyMessageHandler t kernel now args st
  = (trackLastExecution (tr_cell t) kernel r
       (with_heap
          (<[r := observed now (msg args) n (deref (heap st) r)]> (heap st))
          st),
     disposeAllDisposables kernel t).
Proof.
  intros Hdir Hr Hm Hne Hp Hc Hfalsy Hnew.
  assert (Hlt := msg_id_valid_ref _ _ _ Hm).
  unfold anyMessageHandler, observed.
  rewrite Hdir, Hr, Hm, Hp, Hc.
  unfold Js.truthy_str_opt, Js.truthy_str.
  rewrite bool_decide_eq_false_2 by done.
  rewrite bool_decide_eq_true_2 by done.
  cbn [negb andb].
  destruct (Js.truthy_opt (startTime (deref (heap st) r))) eqn:Hst;
    cbn [negb].
  - rewrite Hfalsy, Hnew. cbn [negb]. done.
  - cbn [heap with_heap]. rewrite deref_insert by done.
    cbn [executionCount set_startTime]. rewrite Hfalsy, Hnew. cbn [negb].
    rewrite list_insert_insert_eq. by destruct st.
Qed.

(** C3: when the handler of a tracked execution on a remote kernel receives
    an iopub message whose parent message id is the tracked one and that
    carries an execution count not yet recorded, the record in memory gets
    the count and the step this queues writes that record under the key of
    the server, at the URI of the notebook. *)
Theorem execution_count_is_persisted
    st t kernel now args serverId r m n :
  idle st →
  kernelConnectionMetadata kernel = RemoteConnection serverId →
  direction args = recv →
  executedCells st !! cell_key (tr_cell t) = Some r →
  msg_id (deref (heap st) r) = Some m →
  m ≠ "" →
  parent_msg_id (msg args) = Some m →
  content_execution_count (msg args) = Some n →
  Js.truthy_opt (executionCount (deref (heap st) r)) = false →
  Js.strict_eq_opt (executionCount (deref (heap st) r)) n = false →
  let st' := (anyMessageHandler t kernel now args st).1 in
  let info' := observed now (msg args) n (deref (heap st) r) in
  deref (heap st') r = info'
  ∧ executionCount info' = Some n
  ∧ msg_id info' = Some m
  ∧ persisted (flush st') serverId (nb_uri (notebook (tr_cell t))) = Some info'.
Proof.
  intros (Hq & Ha & Hi) Hk Hdir Hr Hm Hne Hp Hc Hfalsy Hnew st' info'.
  assert (Hlt := msg_id_valid_ref _ _ _ Hm).
  assert (Hmsg : msg_id info' = Some m).
  { subst info'. unfold observed.
    by destruct (Js.truthy_opt (startTime (deref (heap st) r))). }
  assert (Hst' : st' = with_chain
                   (finally (TrackStep (getStateKey serverId) (tr_cell t) r)
                      (chainedPromises st))
                   (with_heap (<[r := info']> (heap st)) st)).
  { subst st'. rewrite (handler_observes st t kernel now args r m n) by done.
    fold info'. cbn [fst]. unfold trackLastExecution.
    cbn [heap with_heap]. rewrite deref_insert by done. rewrite Hmsg.
    unfold Js.truthy_str_opt, Js.truthy_str.
    rewrite bool_decide_eq_false_2 by done.
    cbn [negb]. rewrite andb_false_r. cbn [andb]. by rewrite Hk. }
  rewrite Hst'. cbn [heap with_chain with_heap].
  split; [by rewrite deref_insert|].
  split; [done|]. split; [done|].
  rewrite (flush_one (TrackStep (getStateKey serverId) (tr_cell t) r));
    [|done|by cbn; rewrite Hq|done].
  unfold after_link, persisted, Memento.get.
  cbn [callback_body heap with_chain with_heap workspaceMemento with_memento
       Memento.store Memento.commit_all foldl fst snd Memento.commit].
  rewrite lookup_insert_eq, lookup_insert_eq. by rewrite deref_insert.
Qed.

Lemma execution_count_is_persisted_witness :
  let st := Examples.tracking_started in
  let t := {| tr_cell := Examples.cell2; tr_kernel := 1; tr_listening := true;
              tr_connected := true; tr_disposables := [DisconnectHandler] |} in
  let args := Examples.execute_input 5 in
  let st' := (anyMessageHandler t Examples.remote_kernel (Js.Num 950) args st).1 in
  let info' := observed (Js.Num 950) (msg args) (Js.Num 5) (deref (heap st) 0) in
  deref (heap st') 0 = info'
  ∧ executionCount info' = Some (Js.Num 5)
  ∧ msg_id info' = Some "m1"
  ∧ persisted (flush st') "srv1" (nb_uri Examples.saved_nb) = Some info'.
Proof.
  apply (execution_count_is_persisted Examples.tracking_started
           {| tr_cell := Examples.cell2; tr_kernel := 1; tr_listening := true;
              tr_connected := true; tr_disposables := [DisconnectHandler] |}
           Examples.remote_kernel (Js.Num 950) (Examples.execute_input 5)
           "srv1" 0 "m1" (Js.Num 5)).
  - vm_compute. done.
  - reflexivity.
  - reflexivity.
  - vm_compute. reflexivity.
  - vm_compute. reflexivity.
  - discriminate.
  - reflexivity.
  - reflexivity.
  - reflexivity.
  - reflexivity.
Defined.

(** *** The guards of the public operations *)

Lemma getLast_guarded st notebook kernel :
  nb_isUntitled notebook = true
  ∨ isRemoteConnection (kernelConnectionMetadata kernel) = false →
  getLastTrackedCellExecution st notebook kernel = None.
Proof.
  unfold getLastTrackedCellExecution. intros [->|Hk]; [done|].
  destruct (nb_isUntitled notebook); [done|].
  by destruct (kernelConnectionMetadata kernel).
Qed.

Lemma trackCell_guarded st cell kernel :
  doc_isUntitled (document cell) = true
  ∨ isRemoteConnection (kernelConnectionMetadata kernel) = false →
  trackCellExecution cell kernel st = st.
Proof.
  unfold trackCellExecution. intros [-> | ->]; [|done].
  by rewrite orb_true_r.
Qed.

(** Tracking a cell of a saved notebook from the call of
    [trackCellExecution] to the lookup of the persisted record. *)
Example tracked_execution_is_found :
  let st :=
    flush (emit Examples.remote_kernel (Js.Num 950) (Examples.execute_input 5)
             Examples.tracking_started) in
  getLastTrackedCellExecution st Examples.saved_nb Examples.remote_kernel
  = Some Examples.record2
  ∧ getLastTrackedCellExecution st Examples.saved_nb Examples.local_kernel
    = None
  ∧ (tr_connected <$> trackings st) = [false].
Proof. vm_compute. done. Qed.

(** C6, at the failing input: [trackCellExecution] tests [isUntitled] of the
    cell's text document, not of the notebook.  For a cell of an untitled
    notebook and a remote kernel it subscribes to the kernel, and the
    execution count that then arrives is persisted under the URI of the
    untitled notebook, where [getLastTrackedCellExecution] never looks. *)
Theorem untitled_notebook_is_tracked :
  let cell := Examples.untitled_cell in
  let kernel := Examples.remote_kernel in
  let request :=
    {| direction := send;
       msg := {| header_msg_type := "execute_request"; header_msg_id := "m1";
                 header_date := None;
                 md_cellId := Some (doc_uri (document cell));
                 parent_msg_id := None; content_execution_count := None |} |} in
  let st1 := trackCellExecution cell kernel (init ∅) in
  let st2 := emit kernel (Js.Num 950) (Examples.execute_input 5)
               (emit kernel (Js.Num 900) request st1) in
  nb_isUntitled (notebook cell) = true
  ∧ isRemoteConnection (kernelConnectionMetadata kernel) = true
  ∧ (tr_cell <$> trackings st1) = [cell]
  ∧ (tr_listening <$> trackings st1) = [true]
  ∧ (tr_connected <$> trackings st1) = [true]
  ∧ persisted (flush st2) "srv1" (nb_uri (notebook cell))
    = Some {| msg_id := Some "m1"; kernelId := Some "k-42";
              cellIndex := Some 0%Z; startTime := Some (Js.Num 1000);
              executionCount := Some (Js.Num 5) |}
  ∧ getLastTrackedCellExecution (flush st2) (notebook cell) kernel = None.
Proof. vm_compute. done. Qed.

(** *** One handler over a sequence of messages *)

Lemma dispose_one_fields kernel t d :
  tr_cell (dispose_one kernel t d) = tr_cell t
  ∧ tr_kernel (dispose_one kernel t d) = tr_kernel t
  ∧ (tr_connected t = false → tr_connected (dispose_one kernel t d) = false).
Proof.
  destruct d; simpl; [done|]. by destruct (session_kernel_of kernel).
Qed.

Lemma dispose_fold_disconnected kernel ds : ∀ t,
  tr_connected t = false →
  tr_connected (foldl (dispose_one kernel) t ds) = false.
Proof.
  induction ds as [|d ds IH]; intros t Ht; [done|].
  simpl. apply IH. by apply dispose_one_fields.
Qed.

Lemma dispose_fold_disconnects kernel kc ds : ∀ t,
  session_kernel_of kernel = Some kc →
  DisconnectHandler ∈ ds →
  tr_connected (foldl (dispose_one kernel) t ds) = false.
Proof.
  induction ds as [|d ds IH]; intros t Hk Hin.
  - by apply not_elem_of_nil in Hin.
  - simpl. apply elem_of_cons in Hin as [Heq|Hin]; [subst d|by apply IH].
    apply dispose_fold_disconnected. simpl. by rewrite Hk.
Qed.

Lemma disposeAll_cell kernel t :
  tr_cell (disposeAllDisposables kernel t) = tr_cell t.
Proof.
  unfold disposeAllDisposables. simpl.
  generalize (tr_disposables t) as ds. intros ds. revert t.
  induction ds as [|d ds IH]; intros t; [done|].
  simpl. rewrite IH. apply dispose_one_fields.
Qed.

Lemma disposeAll_disconnects kernel kc t :
  session_kernel_of kernel = Some kc →
  wf_tracking t →
  tr_connected (disposeAllDisposables kernel t) = false.
Proof.
  intros Hk Hwf. unfold disposeAllDisposables. simpl.
  destruct (tr_connected t) eqn:Hc.
  - by apply (dispose_fold_disconnects kernel kc), Hwf.
  - by apply dispose_fold_disconnected.
Qed.

(** What [trackLastExecution] does to the chain: at most one more link, and
    nothing else changes. *)
Lemma trackLastExecution_effect cell kernel r st :
  let st' := trackLastExecution cell kernel r st in
  heap st' = heap st
  ∧ executedCells st' = executedCells st
  ∧ workspaceMemento st' = workspaceMemento st
  ∧ trackings st' = trackings st
  ∧ outcome (chainedPromises st') = outcome (chainedPromises st)
  ∧ awaiting (chainedPromises st') = awaiting (chainedPromises st)
  ∧ (queue (chainedPromises st') = queue (chainedPromises st)
     ∨ ∃ id, queue (chainedPromises st')
             = queue (chainedPromises st) ++ [TrackStep id cell r]).
Proof.
  unfold trackLastExecution. simpl.
  destruct (_ && _); [by repeat split; try left|].
  destruct (kernelConnectionMetadata kernel); simpl;
    repeat split; try (by left). right. by eexists.
Qed.

Lemma keeps_refl h : keeps h h.
Proof. by intros r. Qed.

Lemma keeps_trans h1 h2 h3 : keeps h1 h2 → keeps h2 h3 → keeps h1 h3.
Proof.
  intros H12 H23 r. destruct (H12 r) as [Ha Hb], (H23 r) as [Hc Hd].
  split; eauto.
Qed.

Lemma deref_app_l (h : list CellExecutionInfo) x (r : nat) :
  r < length h → deref (h ++ [x]) r = deref h r.
Proof. intros Hr. unfold deref. by rewrite lookup_app_l. Qed.

Lemma deref_out_of_range (h : list CellExecutionInfo) (r : nat) :
  (length h ≤ r)%nat → deref h r = empty_info.
Proof. intros Hr. unfold deref. by rewrite lookup_ge_None_2. Qed.

Lemma keeps_alloc h x : keeps h (h ++ [x]).
Proof.
  intros r. destruct (decide (r < length h)) as [Hr|Hr].
  - by rewrite deref_app_l.
  - rewrite (deref_out_of_range h r) by lia. by split.
Qed.

Lemma deref_insert_ne h r r' x : r ≠ r' → deref (<[r := x]> h) r' = deref h r'.
Proof. intros Hne. unfold deref. by rewrite list_lookup_insert_ne. Qed.

Lemma keeps_insert h r0 x :
  (∀ tm, startTime (deref h r0) = Some tm → Js.truthy tm = true →
         startTime x = Some tm) →
  (∀ n, executionCount (deref h r0) = Some n → Js.truthy n = true →
        executionCount x = Some n) →
  keeps h (<[r0 := x]> h).
Proof.
  intros Hs Hc r. destruct (decide (r0 = r)) as [<-|Hne].
  - destruct (decide (r0 < length h)) as [Hr|Hr].
    + by rewrite deref_insert.
    + rewrite (deref_out_of_range h r0) by lia. by split.
  - by rewrite deref_insert_ne.
Qed.

Lemma truthy_opt_Some o n :
  o = Some n → Js.truthy n = true → Js.truthy_opt o = true.
Proof. by intros ->. Qed.

(** Closes the cases where the handler returns without doing anything. *)
Ltac unchanged :=
  cbn [fst snd]; split_and!; [apply keeps_refl|done..|by left].

(** One call of the handler. *)
Lemma handler_step t kernel kc now args st :
  session_kernel_of kernel = Some kc →
  wf_tracking t →
  let st' := (anyMessageHandler t kernel now args st).1 in
  let t' := (anyMessageHandler t kernel now args st).2 in
  keeps (heap st) (heap st')
  ∧ workspaceMemento st' = workspaceMemento st
  ∧ wf_tracking t'
  ∧ tr_cell t' = tr_cell t
  ∧ (queue (chainedPromises st') = queue (chainedPromises st)
     ∨ ∃ id r, queue (chainedPromises st')
               = queue (chainedPromises st) ++ [TrackStep id (tr_cell t) r]
               ∧ tr_connected t' = false).
Proof.
  intros Hk Hwf. unfold anyMessageHandler.
  destruct (direction args).
  - (* send *)
    destruct (_ && _); cbn [fst snd].
    + cbn [heap with_executedCells with_heap workspaceMemento chainedPromises].
      split_and!; [apply keeps_alloc|done..|by left].
    + unchanged.
  - (* recv *)
    destruct (executedCells st !! cell_key (tr_cell t)) as [r|];
      [|unchanged].
    destruct (_ && _); [|unchanged].
    set (info := deref (heap st) r).
    set (st1 := if negb (Js.truthy_opt (startTime info)) then _ else st).
    assert (H1 : keeps (heap st) (heap st1)
                 ∧ workspaceMemento st1 = workspaceMemento st
                 ∧ chainedPromises st1 = chainedPromises st).
    { subst st1. destruct (Js.truthy_opt (startTime info)) eqn:Hst;
        cbn [negb]; [by split; [apply keeps_refl|]|].
      split; [|done]. cbn [heap with_heap]. apply keeps_insert.
      - intros tm Htm Htruthy. fold info in Htm.
        by rewrite (truthy_opt_Some _ _ Htm Htruthy) in Hst.
      - by intros n Hn _. }
    destruct H1 as (Hkeep1 & Hmem1 & Hch1).
    assert (Hskip : keeps (heap st) (heap st1)
                    ∧ workspaceMemento st1 = workspaceMemento st
                    ∧ wf_tracking t
                    ∧ tr_cell t = tr_cell t
                    ∧ (queue (chainedPromises st1) = queue (chainedPromises st)
                       ∨ ∃ id r, queue (chainedPromises st1)
                                 = queue (chainedPromises st)
                                   ++ [TrackStep id (tr_cell t) r]
                                 ∧ tr_connected t = false)).
    { split_and!; [done..|left; by rewrite Hch1]. }
    destruct (content_execution_count (msg args)) as [n|]; [|exact Hskip].
    destruct (negb (Js.truthy_opt (executionCount (deref (heap st1) r))))
      eqn:Hcount; [|exact Hskip].
    destruct (negb (Js.strict_eq_opt _ n)); [|exact Hskip].
    clear Hskip.
    cbn [fst snd].
    set (st2 := with_heap _ st1).
    destruct (trackLastExecution_effect (tr_cell t) kernel r st2)
      as (Hh & _ & Hm & _ & _ & _ & Hqueue).
    rewrite Hh, Hm. subst st2. cbn [heap with_heap workspaceMemento].
    assert (Hdis := disposeAll_disconnects kernel kc t Hk Hwf).
    split_and!.
    + eapply keeps_trans; [exact Hkeep1|]. apply keeps_insert.
      * by intros tm Htm _.
      * intros n' Hn' Htruthy. apply negb_true_iff in Hcount.
        by rewrite (truthy_opt_Some _ _ Hn' Htruthy) in Hcount.
    + exact Hmem1.
    + intros Hc. by rewrite Hdis in Hc.
    + apply disposeAll_cell.
    + destruct Hqueue as [Hsame|[id Hgrow]].
      * left. by rewrite Hsame, <- Hch1.
      * right. exists id, r. by rewrite Hgrow, <- Hch1.
Qed.

Lemma deliver_step t kernel now args st :
  wf_tracking t →
  let st' := (deliver t kernel now args st).1 in
  let t' := (deliver t kernel now args st).2 in
  keeps (heap st) (heap st')
  ∧ workspaceMemento st' = workspaceMemento st
  ∧ wf_tracking t'
  ∧ tr_cell t' = tr_cell t
  ∧ (queue (chainedPromises st') = queue (chainedPromises st)
     ∨ ∃ id r, queue (chainedPromises st')
               = queue (chainedPromises st) ++ [TrackStep id (tr_cell t) r]
               ∧ tr_connected t' = false).
Proof.
  intros Hwf. unfold deliver.
  destruct (session_kernel_of kernel) as [kc|] eqn:Hk;
    [|unchanged].
  destruct (_ && _); [|unchanged].
  by apply (handler_step t kernel kc).
Qed.

Lemma deliver_all_disconnected evs : ∀ t st,
  tr_connected t = false → deliver_all t evs st = (st, t).
Proof.
  induction evs as [|[[kernel now] args] evs IH]; intros t st Hc; [done|].
  simpl. unfold deliver. rewrite Hc.
  destruct (session_kernel_of kernel); simpl; by apply IH.
Qed.

Lemma handler_recv_same_cells t kernel now args st :
  direction args = recv →
  executedCells (anyMessageHandler t kernel now args st).1 = executedCells st.
Proof.
  intros Hdir. unfold anyMessageHandler. rewrite Hdir.
  destruct (executedCells st !! cell_key (tr_cell t)) as [r|]; [|done].
  destruct (_ && _); [|done].
  set (st1 := if negb _ then _ else st).
  assert (H1 : executedCells st1 = executedCells st)
    by (subst st1; by destruct (negb _)).
  clearbody st1.
  destruct (content_execution_count (msg args)) as [n|]; [|exact H1].
  destruct (negb (Js.truthy_opt (executionCount (deref (heap st1) r))));
    [|exact H1].
  destruct (negb (Js.strict_eq_opt _ n)); [|exact H1].
  cbn [fst]. rewrite <- H1.
  by destruct (trackLastExecution_effect (tr_cell t) kernel r
                 (with_heap (<[r := set_executionCount n (deref (heap st1) r)]>
                               (heap st1)) st1)) as (_ & -> & _).
Qed.

Lemma deliver_all_recv_same_cells evs : ∀ t st,
  Forall (fun ev => direction ev.2 = recv) evs →
  executedCells (deliver_all t evs st).1 = executedCells st.
Proof.
  induction evs as [|[[kernel now] args] evs IH]; intros t st Hall; [done|].
  apply Forall_cons in Hall as [Hdir Hall]. simpl in Hdir.
  simpl. destruct (deliver t kernel now args st) as [st1 t1] eqn:Hd.
  rewrite IH by done.
  assert (Hst1 : st1 = (deliver t kernel now args st).1) by by rewrite Hd.
  rewrite Hst1. unfold deliver.
  destruct (session_kernel_of kernel); [|done].
  destruct (_ && _); [|done].
  by apply handler_recv_same_cells.
Qed.

(** X19: between two starts of the kernel, over any sequence of messages
    delivered to the handler of one tracked execution,
    - a record object whose [startTime] (resp. [executionCount]) is truthy
      keeps that value: no later message overwrites it;
    - incoming messages do not change which record object the cell maps to;
    - the handler never writes to the memento itself, and it queues at most
      one persisting step, after which it is disconnected. *)
Theorem fields_and_record_written_once t evs st :
  wf_tracking t →
  let st' := (deliver_all t evs st).1 in
  let t' := (deliver_all t evs st).2 in
  (∀ r tm, startTime (deref (heap st) r) = Some tm → Js.truthy tm = true →
           startTime (deref (heap st') r) = Some tm)
  ∧ (∀ r n, executionCount (deref (heap st) r) = Some n → Js.truthy n = true →
            executionCount (deref (heap st') r) = Some n)
  ∧ (Forall (fun ev => direction ev.2 = recv) evs →
     executedCells st' = executedCells st)
  ∧ workspaceMemento st' = workspaceMemento st
  ∧ (queue (chainedPromises st') = queue (chainedPromises st)
     ∨ ∃ id r, queue (chainedPromises st')
               = queue (chainedPromises st) ++ [TrackStep id (tr_cell t) r]
               ∧ tr_connected t' = false).
Proof.
  intros Hwf st' t'.
  assert (Hmain : keeps (heap st) (heap st')
            ∧ workspaceMemento st' = workspaceMemento st
            ∧ (queue (chainedPromises st') = queue (chainedPromises st)
               ∨ ∃ id r, queue (chainedPromises st')
                         = queue (chainedPromises st)
                           ++ [TrackStep id (tr_cell t) r]
                         ∧ tr_connected t' = false)).
  { subst st' t'. revert t st Hwf.
    induction evs as [|[[kernel now] args] evs IH]; intros t st Hwf.
    - simpl. split_and!; [apply keeps_refl|done|by left].
    - simpl.
      destruct (deliver_step t kernel now args st Hwf)
        as (Hkeep & Hmem & Hwf1 & Hcell & Hqueue).
      destruct (deliver t kernel now args st) as [st1 t1].
      cbn [fst snd] in *.
      destruct Hqueue as [Hsame|(id & r & Hgrow & Hdis)].
      + destruct (IH t1 st1 Hwf1) as (Hkeep' & Hmem' & Hqueue').
        split_and!.
        * by eapply keeps_trans.
        * by rewrite Hmem'.
        * rewrite <- Hsame, <- Hcell. exact Hqueue'.
      + rewrite (deliver_all_disconnected evs t1 st1 Hdis). cbn [fst snd].
        split_and!; [done..|]. right. by exists id, r. }
  destruct Hmain as (Hkeep & Hmem & Hqueue).
  split_and!; [..|done|done].
  - intros r. apply Hkeep.
  - intros r. apply Hkeep.
  - apply deliver_all_recv_same_cells.
Qed.

Lemma fields_and_record_written_once_witness :
  let t := {| tr_cell := Examples.cell2; tr_kernel := 1; tr_listening := true;
              tr_connected := true; tr_disposables := [DisconnectHandler] |} in
  let evs := [ (Examples.remote_kernel, Js.Num 950, Examples.execute_input 5);
               (Examples.remote_kernel, Js.Num 960, Examples.execute_input 6) ] in
  let st := Examples.tracking_started in
  let st' := (deliver_all t evs st).1 in
  let t' := (deliver_all t evs st).2 in
  (∀ r tm, startTime (deref (heap st) r) = Some tm → Js.truthy tm = true →
           startTime (deref (heap st') r) = Some tm)
  ∧ (∀ r n, executionCount (deref (heap st) r) = Some n → Js.truthy n = true →
            executionCount (deref (heap st') r) = Some n)
  ∧ (Forall (fun ev => direction ev.2 = recv) evs →
     executedCells st' = executedCells st)
  ∧ workspaceMemento st' = workspaceMemento st
  ∧ (queue (chainedPromises st') = queue (chainedPromises st)
     ∨ ∃ id r, queue (chainedPromises st')
               = queue (chainedPromises st) ++ [TrackStep id (tr_cell t) r]
               ∧ tr_connected t' = false).
Proof.
  apply (fields_and_record_written_once
           {| tr_cell := Examples.cell2; tr_kernel := 1; tr_listening := true;
              tr_connected := true; tr_disposables := [DisconnectHandler] |}
           [ (Examples.remote_kernel, Js.Num 950, Examples.execute_input 5);
             (Examples.remote_kernel, Js.Num 960, Examples.execute_input 6) ]
           Examples.tracking_started).
  intros _. simpl. by constructor.
Defined.

(** C10, at the failing input: the array [disposables] is handed to
    [kernel.onStarted] in the place of [thisArgs], so that
    [disposeAllDisposables] disconnects the handler and leaves the listener
    on [onStarted] where it is.  Within one tracked execution, a first
    execution count that is falsy (0) is recorded and persisted, and the
    handler disconnected; when the kernel then starts again, the listener
    connects the handler again, and a later message of the same request
    overwrites the count and persists the record a second time. *)
Theorem restart_persists_again :
  let cell := Examples.cell2 in
  let kernel := Examples.remote_kernel in
  let st0 := trackCellExecution cell kernel (init ∅) in
  let st1 := emit kernel (Js.Num 900) Examples.execute_request st0 in
  let st2 := flush (emit kernel (Js.Num 950) (Examples.execute_input 0) st1) in
  let st3 := started kernel st2 in
  let st4 := emit kernel (Js.Num 960) (Examples.execute_input 7) st3 in
  let st5 := flush st4 in
  let record count :=
    {| msg_id := Some "m1"; kernelId := Some "k-42"; cellIndex := Some 2%Z;
       startTime := Some (Js.Num 1000); executionCount := Some (Js.Num count) |} in
  (tr_cell <$> trackings st5) = [cell]
  ∧ deref (heap st2) 0 = record 0%Z
  ∧ persisted st2 "srv1" (nb_uri (notebook cell)) = Some (record 0%Z)
  ∧ Memento.next (workspaceMemento st2) = 1
  ∧ (tr_connected <$> trackings st2) = [false]
  ∧ (tr_listening <$> trackings st2) = [true]
  ∧ (tr_connected <$> trackings st3) = [true]
  ∧ executedCells st3 !! cell_key cell = Some 0
  ∧ queue (chainedPromises st4) = [TrackStep (getStateKey "srv1") cell 0]
  ∧ deref (heap st4) 0 = record 7%Z
  ∧ persisted st5 "srv1" (nb_uri (notebook cell)) = Some (record 7%Z)
  ∧ Memento.next (workspaceMemento st5) = 2.
Proof. vm_compute. done. Qed.

End TrackerSpec.

(** ** Serialization of the persistence writes *)

Module ChainSpec.
Import Tracker MementoFacts TrackerFacts TrackerSpec.

(** The handler touches neither the memento nor the running link. *)
Lemma handler_chain t kernel now args st :
  let st' := (anyMessageHandler t kernel now args st).1 in
  workspaceMemento st' = workspaceMemento st
  ∧ awaiting (chainedPromises st') = awaiting (chainedPromises st).
Proof.
  unfold anyMessageHandler. destruct (direction args).
  - by destruct (_ && _).
  - destruct (executedCells st !! cell_key (tr_cell t)) as [r|]; [|done].
    destruct (_ && _); [|done].
    set (st1 := if negb _ then _ else st).
    assert (H1 : workspaceMemento st1 = workspaceMemento st
                 ∧ awaiting (chainedPromises st1) = awaiting (chainedPromises st))
      by (subst st1; by destruct (negb _)).
    clearbody st1.
    destruct (content_execution_count (msg args)) as [n|]; [|exact H1].
    destruct (negb (Js.truthy_opt (executionCount (deref (heap st1) r))));
      [|exact H1].
    destruct (negb (Js.strict_eq_opt _ n)); [|exact H1].
    cbn [fst]. destruct H1 as [<- <-].
    by destruct (trackLastExecution_effect (tr_cell t) kernel r
                   (with_heap
                      (<[r := set_executionCount n (deref (heap st1) r)]>
                         (heap st1)) st1)) as (_ & _ & -> & _ & _ & -> & _).
Qed.

Lemma emit_to_chain ts kernel now args : ∀ st,
  let st' := (emit_to ts kernel now args st).1 in
  workspaceMemento st' = workspaceMemento st
  ∧ awaiting (chainedPromises st') = awaiting (chainedPromises st).
Proof.
  induction ts as [|t ts IH]; intros st; [done|].
  simpl.
  assert (Hd : let st1 := (deliver t kernel now args st).1 in
               workspaceMemento st1 = workspaceMemento st
               ∧ awaiting (chainedPromises st1) = awaiting (chainedPromises st)).
  { unfold deliver. destruct (session_kernel_of kernel); [|done].
    destruct (_ && _); [|done]. apply handler_chain. }
  destruct (deliver t kernel now args st) as [st1 t1]. cbn [fst] in Hd.
  specialize (IH st1).
  destruct (emit_to ts kernel now args st1) as [st2 ts2]. cbn [fst] in *.
  destruct Hd as [<- <-]. exact IH.
Qed.

(** No operation of the tracker writes to the memento when it is called, nor
    disturbs the link that is running: writes happen in chain steps only. *)
Lemma call_chain op st :
  workspaceMemento (call op st) = workspaceMemento st
  ∧ awaiting (chainedPromises (call op st)) = awaiting (chainedPromises st).
Proof.
  destruct op as [nb k|cell k|cell k|k now args|k|servers]; simpl.
  - done.
  - unfold trackCellExecution. by destruct (_ || _).
  - unfold deleteTrackedCellExecution.
    destruct (nb_isUntitled _); [done|].
    by destruct (kernelConnectionMetadata k).
  - unfold emit.
    assert (H := emit_to_chain (trackings st) k now args st).
    by destruct (emit_to (trackings st) k now args st) as [st1 ts].
  - done.
  - done.
Qed.












Lemma exec_cons st l st1 tr st2 :
  step st l st1 → exec st1 tr st2 → exec st (l :: tr) st2.
Proof.
  intros Hstep Hexec. induction Hexec as [st1|st1 tr st2 l' st3 Hexec IH Hstep'].
  - apply (exec_snoc st [] st l st1); [constructor|done].
  - rewrite app_comm_cons. eapply exec_snoc; [by apply IH|done].
Qed.



(** *** [flush] is a run of the system

    The states [flush] computes are reached by the transition system: the
    links start one by one and the host commits every write. *)

Lemma filter_out_head n len :
  List.filter (fun v => negb (Nat.eqb v n)) (seq (S n) len) = seq (S n) len.
Proof.
  apply forallb_filter_id, forallb_forall. intros v Hv.
  apply in_seq in Hv. apply negb_true_iff, Nat.eqb_neq. lia.
Qed.

Lemma settle_all_exec (ws : list (string * option StateObj)) : ∀ n st,
  Memento.inflight (workspaceMemento st) = Memento.entries n ws →
  awaiting (chainedPromises st) = seq n (length ws) →
  ∃ tr, exec st tr (settle_all (seq n (length ws)) st).
Proof.
  induction ws as [|w ws IH]; intros n st Hin Haw.
  - exists []. apply exec_nil.
  - simpl. unfold settle_all. simpl.
    destruct (IH (S n) (settle n true st)) as [tr Htr].
    + simpl. destruct (workspaceMemento st) as [sto inf nxt]. simpl in Hin.
      subst inf. simpl in *. by rewrite settle_head.
    + simpl. rewrite Haw. simpl. rewrite Nat.eqb_refl. simpl.
      apply filter_out_head.
    + exists (Settled n true :: tr). eapply exec_cons; [|exact Htr].
      apply step_settle. unfold Memento.tickets. rewrite Hin. simpl.
      by constructor.
Qed.

Lemma drain_exec fuel : ∀ st,
  Memento.inflight (workspaceMemento st) = [] →
  awaiting (chainedPromises st) = [] →
  ∃ tr, exec st tr (drain fuel st).
Proof.
  induction fuel as [|fuel IH]; intros st Hin Haw.
  - exists []. apply exec_nil.
  - simpl. destruct (run_next st) as [st'|] eqn:Hrun;
      [|exists []; apply exec_nil].
    assert (Hq : ∃ cb q, queue (chainedPromises st) = cb :: q).
    { unfold run_next in Hrun. rewrite Haw in Hrun.
      destruct (queue (chainedPromises st)) as [|cb q]; [done|]. by eexists _, _. }
    destruct Hq as (cb & q & Hq).
    assert (Hstep := step_begin st cb q st' Hq Hrun).
    assert (Hsettle : ∃ tr, exec st' tr
                        (settle_all (awaiting (chainedPromises st')) st')).
    { unfold run_next in Hrun. rewrite Haw, Hq in Hrun.
      destruct (callback_body cb (heap st) (workspaceMemento st)) as [ws|e].
      - rewrite issue_spec in Hrun. injection Hrun as <-. simpl.
        apply settle_all_exec; simpl; [by rewrite Hin|done].
      - injection Hrun as <-. exists []. apply exec_nil. }
    destruct Hsettle as [tr1 Htr1].
    destruct (IH (settle_all (awaiting (chainedPromises st')) st'))
      as [tr2 Htr2].
    + rewrite (run_link cb q st st') by done.
      by apply after_link_quiet.
    + rewrite (run_link cb q st st') by done.
      by apply after_link_quiet.
    + exists (Begin cb (awaiting (chainedPromises st')) :: tr1 ++ tr2).
      eapply exec_cons; [exact Hstep|].
      clear -Htr1 Htr2. induction Htr2 as [|? ? ? ? ? ? IH2 ?].
      * by rewrite app_nil_r.
      * rewrite app_assoc. eapply exec_snoc; [by apply IH2|done].
Qed.

(** From an idle state, [flush] is the end of an execution... *)
Lemma flush_exec st :
  idle st → ∃ tr, exec st tr (flush st).
Proof.
  intros (Hq & Ha & Hi). unfold flush. rewrite Ha. simpl.
  by apply drain_exec.
Qed.

(** ... and it leaves the tracker idle. *)
Lemma drain_quiet q : ∀ st,
  awaiting (chainedPromises st) = [] →
  queue (chainedPromises st) = q →
  Memento.inflight (workspaceMemento st) = [] →
  idle (drain (length q) st).
Proof.
  induction q as [|cb q IH]; intros st Ha Hq Hi; [done|].
  simpl length. rewrite (drain_cons _ cb q) by done.
  destruct (after_link_quiet cb q st) as (Ha' & Hq' & Hi').
  apply IH; auto.
Qed.

(** *** Every tracking of a reachable state is well formed *)

Lemma hookUpSession_wf kernel t :
  wf_tracking t → wf_tracking (hookUpSession kernel t).
Proof.
  intros Hwf. unfold hookUpSession.
  destruct (session_kernel_of kernel); [|done].
  intros _. simpl. apply elem_of_app. right. by constructor.
Qed.

Lemma emit_to_wf ts kernel now args : ∀ st,
  Forall wf_tracking ts →
  Forall wf_tracking (emit_to ts kernel now args st).2.
Proof.
  induction ts as [|t ts IH]; intros st Hall; [done|].
  apply Forall_cons in Hall as [Hwf Hall]. simpl.
  destruct (deliver_step t kernel now args st Hwf) as (_ & _ & Hwf1 & _).
  destruct (deliver t kernel now args st) as [st1 t1]. cbn [snd] in Hwf1.
  specialize (IH st1 Hall).
  destruct (emit_to ts kernel now args st1) as [st2 ts2]. cbn [snd] in *.
  by constructor.
Qed.

Lemma emit_to_trackings ts kernel now args : ∀ st,
  trackings (emit_to ts kernel now args st).1 = trackings st.
Proof.
  induction ts as [|t ts IH]; intros st; [done|]. simpl.
  assert (Hd : trackings (deliver t kernel now args st).1 = trackings st).
  { unfold deliver. destruct (session_kernel_of kernel); [|done].
    destruct (_ && _); [|done].
    unfold anyMessageHandler. destruct (direction args).
    - by destruct (_ && _).
    - destruct (executedCells st !! cell_key (tr_cell t)) as [r|]; [|done].
      destruct (_ && _); [|done].
      set (st1 := if negb _ then _ else st).
      assert (H1 : trackings st1 = trackings st)
        by (subst st1; by destruct (negb _)).
      clearbody st1.
      destruct (content_execution_count (msg args)) as [n|]; [|exact H1].
      destruct (negb (Js.truthy_opt (executionCount (deref (heap st1) r))));
        [|exact H1].
      destruct (negb (Js.strict_eq_opt _ n)); [|exact H1].
      cbn [fst]. rewrite <- H1.
      by destruct (trackLastExecution_effect (tr_cell t) kernel r
                     (with_heap
                        (<[r := set_executionCount n (deref (heap st1) r)]>
                           (heap st1)) st1)) as (_ & _ & _ & -> & _). }
  destruct (deliver t kernel now args st) as [st1 t1]. cbn [fst] in Hd.
  specialize (IH st1).
  destruct (emit_to ts kernel now args st1) as [st2 ts2]. cbn [fst] in *.
  by rewrite IH.
Qed.

Lemma call_wf op st :
  Forall wf_tracking (trackings st) →
  Forall wf_tracking (trackings (call op st)).
Proof.
  intros Hall.
  destruct op as [nb k|cell k|cell k|k now args|k|servers]; simpl.
  - done.
  - unfold trackCellExecution. destruct (_ || _); [done|]. simpl.
    apply Forall_app. split; [done|]. constructor; [|done].
    destruct (session k); [|done]. by apply hookUpSession_wf.
  - unfold deleteTrackedCellExecution.
    destruct (nb_isUntitled _); [done|].
    by destruct (kernelConnectionMetadata k).
  - unfold emit.
    assert (H := emit_to_wf (trackings st) k now args st Hall).
    by destruct (emit_to (trackings st) k now args st) as [st1 ts].
  - unfold started. simpl. apply Forall_fmap.
    eapply Forall_impl; [exact Hall|]. intros t Hwf. simpl.
    destruct (_ && _); [|done]. by apply hookUpSession_wf.
  - done.
Qed.

(** The hypothesis of the property of the handler holds for every handler
    the tracker ever creates. *)
Lemma reachable_trackings_wf s tr st :
  exec (init s) tr st → Forall wf_tracking (trackings st).
Proof.
  intros Hexec. remember (init s) as st0 eqn:Hst0.
  induction Hexec as [st|st tr st1 l st2 Hexec IH Hstep].
  - subst st. constructor.
  - specialize (IH Hst0).
    destruct Hstep as [op st1|st1 cb q st' Hq Hrun|st1 u ok Hu].
    + by apply call_wf.
    + unfold run_next in Hrun.
      destruct (awaiting (chainedPromises st1)); [|done].
      rewrite Hq in Hrun.
      destruct (callback_body cb (heap st1) (workspaceMemento st1)).
      * destruct (issue _ _). by injection Hrun as <-.
      * by injection Hrun as <-.
    + done.
Qed.

End ChainSpec.

(** ** The registry of URI providers *)

Module RegistrationSpec.
Import Registration RegistryExamples.

Lemma map_set_elem {V : Type} k (v : V) m : (k, v) ∈ Js.map_set k v m.
Proof.
  induction m as [|[k' v'] m IH]; simpl.
  - by constructor.
  - case_bool_decide; [by constructor|]. by constructor.
Qed.

Lemma filter_filter {A : Type} (f g : A → bool) (l : list A) :
  List.filter f (List.filter g l) = List.filter (fun x => g x && f x) l.
Proof.
  induction l as [|x l IH]; [done|]. simpl.
  destruct (g x); simpl; [|done]. destruct (f x); by rewrite IH.
Qed.

Lemma find_ticket_fresh {V : Type} (m : Memento.t V) w :
  Memento.fresh_next m →
  Memento.find_ticket (Memento.next m)
    (Memento.inflight m ++ [(Memento.next m, w)]) = Some w.
Proof.
  unfold Memento.fresh_next, Memento.tickets, Memento.find_ticket.
  generalize (Memento.next m) as n. intros n.
  induction (Memento.inflight m) as [|[u w'] l IH]; intros Hall; simpl.
  - by rewrite Nat.eqb_refl.
  - apply Forall_cons in Hall as [Hu Hall]. simpl in Hu.
    destruct (Nat.eqb_spec u n) as [->|_]; [lia|]. by apply IH.
Qed.

(** Tickets stay fresh whatever the registry and the host do. *)
Lemma fresh_next_update {V : Type} (m : Memento.t V) key v :
  Memento.fresh_next m → Memento.fresh_next (Memento.update m key v).1.
Proof.
  unfold Memento.fresh_next, Memento.tickets. simpl. intros Hall.
  rewrite fmap_app. apply Forall_app. split.
  - eapply Forall_impl; [exact Hall|]. simpl. lia.
  - repeat constructor.
Qed.

Lemma fresh_next_settle {V : Type} (m : Memento.t V) u ok :
  Memento.fresh_next m → Memento.fresh_next (Memento.settle m u ok).
Proof.
  unfold Memento.fresh_next, Memento.tickets, Memento.settle. intros Hall.
  destruct (Memento.find_ticket u (Memento.inflight m)) as [[key v]|];
    [|done].
  simpl. unfold Memento.drop_ticket.
  induction (Memento.inflight m) as [|[u' w] l IH]; [done|].
  apply Forall_cons in Hall as [Hu Hall]. simpl.
  destruct (negb (Nat.eqb u' u)); [|by apply IH].
  constructor; [done|by apply IH].
Qed.

Lemma registerProvider_fresh p extensionId0 st :
  Memento.fresh_next (globalMemento st) →
  Memento.fresh_next (globalMemento (registerProvider p extensionId0 st).1).
Proof.
  intros Hfresh. unfold registerProvider.
  destruct (negb (Js.map_has (id p) (_providers st))); [|done].
  unfold updateRegistrationInfo. simpl.
  by apply (fresh_next_update (globalMemento st)).
Qed.

(** Committing the write requested by [updateRegistrationInfo]. *)
Lemma update_then_settle providerId0 extensionId0 st :
  Memento.fresh_next (globalMemento st) →
  let st' := (updateRegistrationInfo providerId0 extensionId0 st).1 in
  let u := (updateRegistrationInfo providerId0 extensionId0 st).2 in
  u = Memento.next (globalMemento st)
  ∧ u ∈ Memento.tickets (globalMemento st')
  ∧ {| extensionId := extensionId0; providerId := providerId0 |}
      ∈ registeredList (settle u true st').
Proof.
  intros Hfresh. unfold updateRegistrationInfo. simpl.
  split; [done|]. split.
  - unfold Memento.tickets. simpl. rewrite fmap_app.
    apply elem_of_app. right. by constructor.
  - unfold settle, registeredList, Memento.get, Memento.settle. simpl.
    rewrite find_ticket_fresh by done. simpl.
    rewrite lookup_insert_eq.
    apply (list_elem_of_fmap_2
             (fun e : string * string =>
                {| extensionId := e.2; providerId := e.1 |})
             _ (providerId0, extensionId0)).
    apply map_set_elem.
Qed.

(** C8: registering a provider whose id is already in the provider map
    throws, and leaves the registry as it was: the provider map, the mapping
    from providers to extensions and the memento (the persisted list and the
    writes in flight) are unchanged and the change event is not fired. *)
Theorem registerProvider_duplicate_is_atomic p extensionId0 st :
  Js.map_has (id p) (_providers st) = true →
  let st' := (registerProvider p extensionId0 st).1 in
  (registerProvider p extensionId0 st).2
    = Js.Throw (Js.Error
        (String.append "IJupyterUriProvider already exists with id " (id p)))
  ∧ st' = st
  ∧ _providers st' = _providers st
  ∧ providerExtensionMapping st' = providerExtensionMapping st
  ∧ globalMemento st' = globalMemento st
  ∧ fired st' = fired st.
Proof.
  intros Hhas. unfold registerProvider. rewrite Hhas. by simpl.
Qed.

Lemma registerProvider_duplicate_is_atomic_witness :
  let st' := (registerProvider colab "acme.hub" registered_once).1 in
  (registerProvider colab "acme.hub" registered_once).2
    = Js.Throw (Js.Error "IJupyterUriProvider already exists with id colab")
  ∧ st' = registered_once
  ∧ _providers st' = _providers registered_once
  ∧ providerExtensionMapping st' = providerExtensionMapping registered_once
  ∧ globalMemento st' = globalMemento registered_once
  ∧ fired st' = fired registered_once.
Proof.
  apply (registerProvider_duplicate_is_atomic colab "acme.hub" registered_once).
  reflexivity.
Defined.

Lemma promise_all_fulfilled {A : Type} (ps : list (Js.settled A)) :
  Forall (fun p => ∃ a, p = Js.Fulfilled a) ps →
  ∃ l, Js.promise_all ps = Js.Fulfilled l.
Proof.
  induction ps as [|p ps IH]; intros Hall; [by eexists|].
  apply Forall_cons in Hall as [[a ->] Hall].
  destruct (IH Hall) as [l Hl]. simpl. rewrite Hl. by eexists.
Qed.

(** The lazy load: what it activates, and that its promise fulfils whatever
    the activations do. *)
Lemma loadImpl_spec JVSC all st :
  let r := loadOtherExtensionsImpl JVSC all st in
  activated r.1
  = activated st
    ++ (ext_id <$> List.filter (to_activate JVSC (registeredList st)) all)
  ∧ r.2 = Js.Fulfilled tt.
Proof.
  unfold loadOtherExtensionsImpl. cbn [fst snd]. split.
  - cbn [activated with_activated]. f_equal. f_equal.
    unfold otherExtensions. rewrite !filter_filter. reflexivity.
  - destruct (promise_all_fulfilled
                ((fun e => if isActive e then Js.Fulfilled tt
                           else Js.then_noop (activate e))
                   <$> otherExtensions JVSC all
                         (loadExistingProviderExtensionMapping st)))
      as [l ->]; [|done].
    apply Forall_fmap, Forall_forall. intros e _. simpl.
    destruct (isActive e); [by eexists|].
    destruct (activate e); by eexists.
Qed.

Lemma load_spec JVSC all st :
  loadedOtherExtensionsPromise st = None →
  let r := loadOtherExtensions JVSC all st in
  activated r.1
  = activated st
    ++ (ext_id <$> List.filter (to_activate JVSC (registeredList st)) all)
  ∧ r.2 = Js.Fulfilled tt
  ∧ loadedOtherExtensionsPromise r.1 = Some (Js.Fulfilled tt)
  ∧ _providers r.1 = _providers st
  ∧ globalMemento r.1 = globalMemento st.
Proof.
  intros Hnone. unfold loadOtherExtensions. rewrite Hnone.
  destruct (loadImpl_spec JVSC all st) as [Hact Hp].
  destruct (loadOtherExtensionsImpl JVSC all st) as [st1 p0] eqn:Himpl.
  cbn [fst snd] in *. subst p0. split_and!; try done.
  - unfold loadOtherExtensionsImpl in Himpl. by injection Himpl as <- _.
  - unfold loadOtherExtensionsImpl in Himpl. by injection Himpl as <- _.
Qed.

Lemma registerProvider_result p extensionId0 st :
  (registerProvider p extensionId0 st).2
  = if Js.map_has (id p) (_providers st)
    then Js.Throw (Js.Error
           (String.append "IJupyterUriProvider already exists with id " (id p)))
    else Js.Normal (id p).
Proof.
  unfold registerProvider. by destruct (Js.map_has (id p) (_providers st)).
Qed.

(** C7: a successful [registerProvider(provider, extensionId)] requests the
    write of a list of registration records that contains the pair of the
    provider id and the extension id, so that the pair is in the persisted
    list once the write is committed.  The lazy load activates exactly the
    extensions that are not active yet, are not the host extension, and
    either contribute [pythonRemoteServerProvider] or own a record of the
    persisted list; it runs once, and every lookup goes through it first.
    In a later session the extension that registered is therefore activated
    by the load. *)
Theorem registration_is_persisted_and_activates
    JVSC p extensionId0 st v :
  Memento.fresh_next (globalMemento st) →
  (registerProvider p extensionId0 st).2 = Js.Normal v →
  let st' := (registerProvider p extensionId0 st).1 in
  let u := Memento.next (globalMemento st) in
  let pair := {| extensionId := extensionId0; providerId := id p |} in
  u ∈ Memento.tickets (globalMemento st')
  ∧ pair ∈ registeredList (settle u true st')
  ∧ (∀ all st0,
       loadedOtherExtensionsPromise st0 = None →
       let r := loadOtherExtensions JVSC all st0 in
       activated r.1
       = activated st0
         ++ (ext_id <$>
               List.filter (to_activate JVSC (registeredList st0)) all)
       ∧ (∀ all', loadOtherExtensions JVSC all' r.1 = (r.1, Js.Fulfilled tt))
       ∧ (providers JVSC all st0).1 = r.1
       ∧ ∀ during id0,
           getProvider JVSC all during id0 st0
           = (during r.1,
              Js.Fulfilled (Js.map_get id0 (_providers (during r.1)))))
  ∧ (∀ all e,
       e ∈ all → ext_id e = extensionId0 → isActive e = false →
       extensionId0 ≠ JVSC →
       extensionId0
       ∈ activated
           (loadOtherExtensions JVSC all
              (init (Memento.store (globalMemento (settle u true st'))))).1).
Proof.
  intros Hfresh Hok st' u pair.
  rewrite registerProvider_result in Hok.
  destruct (Js.map_has (id p) (_providers st)) eqn:Hhas; [done|].
  destruct (update_then_settle (id p) extensionId0 st Hfresh)
    as (Hu & Hticket & Hpair).
  assert (Hst' : globalMemento st'
                 = globalMemento (updateRegistrationInfo (id p) extensionId0 st).1).
  { subst st'. unfold registerProvider. rewrite Hhas. cbn [negb].
    by destruct (updateRegistrationInfo (id p) extensionId0 st). }
  assert (Hlist : registeredList (settle u true st')
                  = registeredList
                      (settle u true
                         (updateRegistrationInfo (id p) extensionId0 st).1)).
  { unfold registeredList, settle. cbn [globalMemento with_globalMemento].
    by rewrite Hst'. }
  split_and!.
  - rewrite Hst'. subst u. by rewrite <- Hu.
  - rewrite Hlist. subst u. by rewrite <- Hu.
  - intros all st0 Hnone r.
    destruct (load_spec JVSC all st0 Hnone) as (Hact & Hp & Hloaded & _ & _).
    fold r in Hact, Hp, Hloaded.
    assert (Hr : loadOtherExtensions JVSC all st0 = (r.1, Js.Fulfilled tt)).
    { rewrite <- Hp. apply surjective_pairing. }
    split_and!.
    + done.
    + intros all'. unfold loadOtherExtensions. by rewrite Hloaded.
    + unfold providers. by rewrite Hr.
    + intros during id0. unfold getProvider. by rewrite Hr.
  - intros all e Hin Hid Hinactive Hne.
    set (st0 := init _).
    destruct (load_spec JVSC all st0 eq_refl) as (-> & _).
    apply elem_of_app. right.
    apply list_elem_of_fmap. exists e. split; [done|].
    apply list_elem_of_In, filter_In. split; [by apply list_elem_of_In|].
    unfold to_activate. rewrite Hinactive, Hid.
    rewrite (bool_decide_eq_false_2 (extensionId0 = JVSC)) by done.
    rewrite orb_true_intro; [done|]. right.
    apply bool_decide_eq_true_2.
    apply list_elem_of_fmap. exists pair. split; [done|].
    change (pair ∈ registeredList (settle u true st')).
    rewrite Hlist. subst u. by rewrite <- Hu.
Qed.

Lemma registration_is_persisted_and_activates_witness :
  let JVSC := "ms-toolsai.jupyter" in
  let st := init ∅ in
  let st' := (registerProvider colab "google.colab" st).1 in
  let u := Memento.next (globalMemento st) in
  let pair := {| extensionId := "google.colab"; providerId := id colab |} in
  u ∈ Memento.tickets (globalMemento st')
  ∧ pair ∈ registeredList (settle u true st')
  ∧ (∀ all st0,
       loadedOtherExtensionsPromise st0 = None →
       let r := loadOtherExtensions JVSC all st0 in
       activated r.1
       = activated st0
         ++ (ext_id <$>
               List.filter (to_activate JVSC (registeredList st0)) all)
       ∧ (∀ all', loadOtherExtensions JVSC all' r.1 = (r.1, Js.Fulfilled tt))
       ∧ (providers JVSC all st0).1 = r.1
       ∧ ∀ during id0,
           getProvider JVSC all during id0 st0
           = (during r.1,
              Js.Fulfilled (Js.map_get id0 (_providers (during r.1)))))
  ∧ (∀ all e,
       e ∈ all → ext_id e = "google.colab" → isActive e = false →
       "google.colab" ≠ JVSC →
       "google.colab"
       ∈ activated
           (loadOtherExtensions JVSC all
              (init (Memento.store (globalMemento (settle u true st'))))).1).
Proof.
  apply (registration_is_persisted_and_activates "ms-toolsai.jupyter"
           colab "google.colab" (init ∅) "colab").
  - constructor.
  - reflexivity.
Defined.

(** The extensions the lazy load activates in a session that starts from
    the list persisted by [registered_once]. *)
Example lazy_load_activates :
  let st0 :=
    init (Memento.store (globalMemento (settle 0 true registered_once))) in
  activated (loadOtherExtensions "ms-toolsai.jupyter" extensions_all st0).1
  = ["google.colab"; "acme.hub"].
Proof. vm_compute. reflexivity. Qed.

(** C5 as stated fails: [registerProvider] throws to its caller when the
    provider id is already registered. *)
Lemma registerProvider_throws_counterexample :
  ¬ (∀ st p extensionId0,
       ∃ v, (registerProvider p extensionId0 st).2 = Js.Normal v).
Proof.
  intros H. destruct (H registered_once colab "acme.hub") as [v Hv].
  vm_compute in Hv. discriminate.
Qed.

(** *** What is swallowed *)

(** The lazy load in a state where it has not failed. *)
Lemma load_ok JVSC all st :
  RegistrationMore.loaded_ok st →
  let r := loadOtherExtensions JVSC all st in
  r.2 = Js.Fulfilled tt
  ∧ loadedOtherExtensionsPromise r.1 = Some (Js.Fulfilled tt).
Proof.
  intros [Hnone|Hsome].
  - by destruct (load_spec JVSC all st Hnone) as (_ & Hp & Hl & _).
  - unfold loadOtherExtensions. by rewrite Hsome.
Qed.

Lemma load_pair JVSC all st :
  RegistrationMore.loaded_ok st →
  loadOtherExtensions JVSC all st
  = ((loadOtherExtensions JVSC all st).1, Js.Fulfilled tt).
Proof.
  intros Hok. destruct (load_ok JVSC all st Hok) as [Hp _].
  rewrite <- Hp. apply surjective_pairing.
Qed.

(** The promise of the lazy load never holds a rejection. *)
Lemma reachable_loaded JVSC unknown gen csid st :
  RegistrationMore.reachable JVSC unknown gen csid st →
  RegistrationMore.loaded_ok st.
Proof.
  induction 1 as [s|p e st _ IH|k st _ IH|u ok st _ IH|all st _ IH
                  |all st _ IH|all id0 st _ IH|all id0 handle st _ IH].
  - by left.
  - unfold registerProvider. destruct (negb _); [|done].
    unfold updateRegistrationInfo. exact IH.
  - exact IH.
  - exact IH.
  - right. unfold providers.
    destruct (load_ok JVSC all st IH) as [_ Hl].
    by destruct (loadOtherExtensions JVSC all st).
  - right. unfold getProviders.
    destruct (load_ok JVSC all st IH) as [Hp Hl].
    destruct (loadOtherExtensions JVSC all st) as [st1 p1].
    cbn [fst snd] in *. subst p1. unfold providers.
    destruct (load_ok JVSC all st1 (or_intror Hl)) as [_ Hl1].
    by destruct (loadOtherExtensions JVSC all st1).
  - right. unfold getProvider.
    destruct (load_ok JVSC all st IH) as [Hp Hl].
    destruct (loadOtherExtensions JVSC all st) as [st1 p1].
    cbn [fst snd] in *. by subst p1.
  - right. unfold getJupyterServerUri.
    destruct (load_ok JVSC all st IH) as [Hp Hl].
    destruct (loadOtherExtensions JVSC all st) as [st1 p1].
    cbn [fst snd] in *. subst p1.
    destruct (Js.map_get id0 (_providers st1)) as [w|]; [|done].
    destruct (getHandles (provider w)) as [[handles|e]|]; [|done..].
    by case_bool_decide.
Qed.

(** The promise a callback returns never rejects, whatever the host answers
    to its writes. *)
Lemma returned_fulfils cb answers :
  TrackerMore.returned cb answers = None
  ∨ TrackerMore.returned cb answers = Some (Js.Fulfilled tt).
Proof.
  destruct cb as [id0 cell|id0 cell r|servers]; simpl.
  - destruct answers as [|[]]; [by left|by right..].
  - destruct answers as [|[]]; [by left|by right..].
  - right.
    destruct (promise_all_fulfilled (Js.then_noop <$> answers)) as [l ->];
      [|done].
    apply Forall_fmap, Forall_forall. intros a _. simpl.
    destruct a; by eexists.
Qed.

Lemma settle_answers_outcome us : ∀ answers tst,
  Tracker.outcome
    (Tracker.chainedPromises (TrackerMore.settle_answers us answers tst))
  = Tracker.outcome (Tracker.chainedPromises tst).
Proof.
  unfold TrackerMore.settle_answers.
  induction us as [|u us IH]; intros answers tst; [done|].
  destruct answers as [|a answers]; [done|]. simpl. by rewrite IH.
Qed.

(** C5, as amended.  Failures of the tracker's memento writes and of
    extension activations are swallowed:
    - when a link of the tracker's chain has run and the host has answered
      its writes, by rejections as it may be, the chain is in the state that
      [finally] gives it from what the callback returns; the promise the
      callback returns does not reject, so that, unless the callback itself
      threw, the chain passes on the state it had;
    - in every state the registry reaches, the promise of the lazy load is
      fulfilled whatever the activations do, and so are those of
      [getProviders] and [getProvider].
    Two operations do hand errors to their caller: [registerProvider] throws
    exactly when the provider id is already registered, and
    [getJupyterServerUri] rejects when the provider is unknown (after
    logging), when the handle is not among the provider's handles, or when a
    call of the provider rejects. *)
Theorem errors_swallowed_except_documented
    JVSC unknown gen csid all during during' st p extensionId0 id0 handle
    tst cb q tst1 answers :
  RegistrationMore.reachable JVSC unknown gen csid st →
  Tracker.queue (Tracker.chainedPromises tst) = cb :: q →
  Tracker.run_next tst = Some tst1 →
  length answers = length (Tracker.awaiting (Tracker.chainedPromises tst1)) →
  let st1 := (loadOtherExtensions JVSC all st).1 in
  let st2 := during st1 in
  let tst2 :=
    TrackerMore.settle_answers
      (Tracker.awaiting (Tracker.chainedPromises tst1)) answers tst1 in
  Tracker.outcome (Tracker.chainedPromises tst2)
  = TrackerMore.finally_settles
      (Tracker.outcome (Tracker.chainedPromises tst))
      (TrackerMore.link_result cb tst answers)
  ∧ ((∃ ws, Tracker.callback_body cb (Tracker.heap tst)
              (Tracker.workspaceMemento tst) = Js.Normal ws) →
     Tracker.outcome (Tracker.chainedPromises tst2)
     = Tracker.outcome (Tracker.chainedPromises tst))
  ∧ (loadOtherExtensions JVSC all st).2 = Js.Fulfilled tt
  ∧ (∃ l, (getProviders JVSC all during st).2 = Js.Fulfilled l)
  ∧ (getProvider JVSC all during id0 st).2
    = Js.Fulfilled (Js.map_get id0 (_providers st2))
  ∧ (registerProvider p extensionId0 st).2
    = (if Js.map_has (id p) (_providers st)
       then Js.Throw (Js.Error
              (String.append "IJupyterUriProvider already exists with id "
                 (id p)))
       else Js.Normal (id p))
  ∧ (getJupyterServerUri JVSC unknown gen csid all during during' id0 handle
       st).2
    = match Js.map_get id0 (_providers st2) with
      | None => Js.Rejected (Js.Error unknown)
      | Some w =>
          match getHandles (provider w) with
          | Some (Js.Rejected e) => Js.Rejected e
          | Some (Js.Fulfilled handles) =>
              if bool_decide (handle ∈ handles)
              then getServerUri (provider w) handle
              else Js.Rejected
                     (Js.InvalidRemoteJupyterServerUriHandleError id0 handle
                        (Js.map_get id0
                           (providerExtensionMapping (during' st2)))
                        (csid (gen id0 handle)))
          | None => getServerUri (provider w) handle
          end
      end
  ∧ (Js.map_get id0 (_providers st2) = None →
     ∃ line,
       log (getJupyterServerUri JVSC unknown gen csid all during during' id0
              handle st).1
       = log st2 ++ [line]).
Proof.
  intros Hreach Hq Hrun Hlen st1 st2 tst2.
  assert (Hr : loadOtherExtensions JVSC all st = (st1, Js.Fulfilled tt)).
  { apply load_pair. by eapply reachable_loaded. }
  assert (Hlink :
    Tracker.outcome (Tracker.chainedPromises tst2)
    = TrackerMore.finally_settles
        (Tracker.outcome (Tracker.chainedPromises tst))
        (TrackerMore.link_result cb tst answers)
    ∧ ((∃ ws, Tracker.callback_body cb (Tracker.heap tst)
                (Tracker.workspaceMemento tst) = Js.Normal ws) →
       Tracker.outcome (Tracker.chainedPromises tst2)
       = Tracker.outcome (Tracker.chainedPromises tst))).
  { subst tst2. rewrite settle_answers_outcome.
    unfold Tracker.run_next in Hrun.
    destruct (Tracker.awaiting (Tracker.chainedPromises tst)); [|done].
    rewrite Hq in Hrun. unfold TrackerMore.link_result.
    destruct (Tracker.callback_body cb (Tracker.heap tst)
                (Tracker.workspaceMemento tst)) as [ws|e].
    - destruct (Tracker.issue _ _). injection Hrun as <-. simpl.
      split; [|done].
      by destruct (returned_fulfils cb answers) as [-> | ->].
    - injection Hrun as <-. simpl. split; [done|].
      by intros [ws Hws]. }
  destruct Hlink as [Hlink1 Hlink2].
  split_and!.
  - exact Hlink1.
  - exact Hlink2.
  - by rewrite Hr.
  - unfold getProviders. rewrite Hr.
    destruct (providers JVSC all (during st1)). by eexists.
  - unfold getProvider. by rewrite Hr.
  - apply registerProvider_result.
  - unfold getJupyterServerUri. rewrite Hr. fold st2.
    destruct (Js.map_get id0 (_providers st2)) as [w|]; [|done].
    destruct (getHandles (provider w)) as [[handles|e]|]; [|done..].
    by case_bool_decide.
  - intros Hunknown. unfold getJupyterServerUri. rewrite Hr. fold st2.
    rewrite Hunknown. by eexists.
Qed.

Lemma errors_swallowed_except_documented_witness :
  let JVSC := "ms-toolsai.jupyter" in
  let unknown := "Unknown server URI" in
  let gen := fun id0 handle =>
    String.append id0 (String.append "/" handle) in
  let csid := fun uri : string => uri in
  let all := extensions_all in
  let during := fun st : State => st in
  let during' := fun st : State => st in
  let st := RegistrationMore.later_session in
  let p := colab in
  let tst := MoreExamples.two_removals in
  let tst1 := default tst (Tracker.run_next tst) in
  let answers := MoreExamples.disk_full in
  let st1 := (loadOtherExtensions JVSC all st).1 in
  let st2 := during st1 in
  let tst2 :=
    TrackerMore.settle_answers
      (Tracker.awaiting (Tracker.chainedPromises tst1)) answers tst1 in
  (activated st1 = ["google.colab"; "acme.hub"]
   ∧ (activate <$> List.filter (fun e => bool_decide (ext_id e = "google.colab"))
                     all)
     = [Js.Rejected (Js.HostError "boom")]
   ∧ Tracker.awaiting (Tracker.chainedPromises tst1) = [0; 1]
   ∧ Tracker.awaiting (Tracker.chainedPromises tst2) = []
   ∧ Tracker.outcome (Tracker.chainedPromises tst2) = Js.Fulfilled tt)
  ∧ Tracker.outcome (Tracker.chainedPromises tst2)
    = TrackerMore.finally_settles
        (Tracker.outcome (Tracker.chainedPromises tst))
        (TrackerMore.link_result
           (Tracker.RemoveStep
              [ {| entry_serverId := "srv1" |}; {| entry_serverId := "srv2" |} ])
           tst answers)
  ∧ ((∃ ws, Tracker.callback_body
              (Tracker.RemoveStep
                 [ {| entry_serverId := "srv1" |};
                   {| entry_serverId := "srv2" |} ])
              (Tracker.heap tst) (Tracker.workspaceMemento tst)
            = Js.Normal ws) →
     Tracker.outcome (Tracker.chainedPromises tst2)
     = Tracker.outcome (Tracker.chainedPromises tst))
  ∧ (loadOtherExtensions JVSC all st).2 = Js.Fulfilled tt
  ∧ (∃ l, (getProviders JVSC all during st).2 = Js.Fulfilled l)
  ∧ (getProvider JVSC all during "hub" st).2
    = Js.Fulfilled (Js.map_get "hub" (_providers st2))
  ∧ (registerProvider p "acme.hub" st).2
    = (if Js.map_has (id p) (_providers st)
       then Js.Throw (Js.Error
              (String.append "IJupyterUriProvider already exists with id "
                 (id p)))
       else Js.Normal (id p))
  ∧ (getJupyterServerUri JVSC unknown gen csid all during during' "hub" "h9"
       st).2
    = match Js.map_get "hub" (_providers st2) with
      | None => Js.Rejected (Js.Error unknown)
      | Some w =>
          match getHandles (provider w) with
          | Some (Js.Rejected e) => Js.Rejected e
          | Some (Js.Fulfilled handles) =>
              if bool_decide ("h9" ∈ handles)
              then getServerUri (provider w) "h9"
              else Js.Rejected
                     (Js.InvalidRemoteJupyterServerUriHandleError "hub" "h9"
                        (Js.map_get "hub"
                           (providerExtensionMapping (during' st2)))
                        (csid (gen "hub" "h9")))
          | None => getServerUri (provider w) "h9"
          end
      end
  ∧ (Js.map_get "hub" (_providers st2) = None →
     ∃ line,
       log (getJupyterServerUri JVSC unknown gen csid all during during' "hub"
              "h9" st).1
       = log st2 ++ [line]).
Proof.
  split; [vm_compute; done|].
  apply (errors_swallowed_except_documented "ms-toolsai.jupyter"
           "Unknown server URI"
           (fun id0 handle => String.append id0 (String.append "/" handle))
           (fun uri : string => uri) extensions_all
           (fun st : State => st) (fun st : State => st)
           RegistrationMore.later_session colab "acme.hub" "hub" "h9"
           MoreExamples.two_removals
           (Tracker.RemoveStep
              [ {| entry_serverId := "srv1" |}; {| entry_serverId := "srv2" |} ])
           []
           (default MoreExamples.two_removals
              (Tracker.run_next MoreExamples.two_removals))
           MoreExamples.disk_full).
  - apply RegistrationMore.reach_init.
  - reflexivity.
  - vm_compute. reflexivity.
  - reflexivity.
Defined.

End RegistrationSpec.

(** * Further properties *)

(** ** The tracker: lookups, frames and compositions *)

Module TrackerExtra.
Import Tracker MementoFacts TrackerFacts TrackerSpec TrackerMore.

Lemma flush_run_links st :
  awaiting (chainedPromises st) = [] →
  Memento.inflight (workspaceMemento st) = [] →
  flush st = run_links (queue (chainedPromises st)) st.
Proof.
  intros Ha Hi. unfold flush. rewrite Ha. simpl.
  remember (queue (chainedPromises st)) as q eqn:Hq. symmetry in Hq.
  revert st Ha Hi Hq. induction q as [|cb q IH]; intros st Ha Hi Hq; [done|].
  simpl length. rewrite (drain_cons _ cb q) by done. simpl.
  destruct (after_link_quiet cb q st) as (Ha' & Hq' & Hi').
  apply IH; auto.
Qed.

(** What a link that persists a record does to the persisted records. *)
Lemma track_link_persisted serverId cell r q st serverId' notebookId' :
  persisted (after_link (TrackStep (getStateKey serverId) cell r) q st)
    serverId' notebookId'
  = if bool_decide (serverId' = serverId ∧ notebookId' = nb_uri (notebook cell))
    then Some (deref (heap st) r)
    else persisted st serverId' notebookId'.
Proof.
  unfold after_link, persisted, Memento.get. simpl.
  destruct (decide (serverId' = serverId)) as [->|Hs].
  - rewrite lookup_insert_eq.
    destruct (decide (notebookId' = nb_uri (notebook cell))) as [->|Hn].
    + rewrite bool_decide_eq_true_2 by done. apply lookup_insert_eq.
    + rewrite bool_decide_eq_false_2 by (intros [_ ?]; done).
      by rewrite lookup_insert_ne.
  - rewrite bool_decide_eq_false_2 by (intros [? _]; done).
    rewrite lookup_insert_ne; [done|].
    intros Heq. by apply getStateKey_inj in Heq.
Qed.

(** What a link that untracks a cell does to the persisted records. *)
Lemma delete_link_persisted serverId cell q st serverId' notebookId' :
  persisted (after_link (DeleteStep (getStateKey serverId) cell) q st)
    serverId' notebookId'
  = if bool_decide (serverId' = serverId ∧ notebookId' = nb_uri (notebook cell))
    then match persisted st serverId (nb_uri (notebook cell)) with
         | Some record =>
             if bool_decide (cellIndex record = Some (index cell))
             then None else Some record
         | None => None
         end
    else persisted st serverId' notebookId'.
Proof.
  unfold after_link.
  assert (Hbody :
    callback_body (DeleteStep (getStateKey serverId) cell) (heap st)
      (workspaceMemento st)
    = match persisted st serverId (nb_uri (notebook cell)) with
      | Some record =>
          if bool_decide (cellIndex record = Some (index cell))
          then Js.Normal
                 [(getStateKey serverId,
                   Some (delete (nb_uri (notebook cell))
                           (Memento.get (workspaceMemento st)
                              (getStateKey serverId) ∅)))]
          else Js.Normal []
      | None =>
          Js.Throw (Js.TypeError
            "Cannot read properties of undefined (reading 'cellIndex')")
      end) by reflexivity.
  rewrite Hbody. clear Hbody.
  destruct (persisted st serverId (nb_uri (notebook cell))) as [record|]
    eqn:Hrec.
  - destruct (bool_decide (cellIndex record = Some (index cell))).
    + unfold persisted, Memento.get in *. simpl.
      destruct (decide (serverId' = serverId)) as [->|Hs].
      * rewrite lookup_insert_eq.
        destruct (decide (notebookId' = nb_uri (notebook cell))) as [->|Hn].
        -- rewrite bool_decide_eq_true_2 by done. apply lookup_delete_eq.
        -- rewrite bool_decide_eq_false_2 by (intros [_ ?]; done).
           by rewrite lookup_delete_ne.
      * rewrite bool_decide_eq_false_2 by (intros [? _]; done).
        rewrite lookup_insert_ne; [done|].
        intros Heq. by apply getStateKey_inj in Heq.
    + case_bool_decide as Hd; [|done]. by destruct Hd as [-> ->].
  - case_bool_decide as Hd; [|done]. by destruct Hd as [-> ->].
Qed.

(** The state the handler leaves when it observes a new count. *)
Lemma handler_queues_step st t kernel now args serverId r n :
  new_count t st args r n →
  kernelConnectionMetadata kernel = RemoteConnection serverId →
  (anyMessageHandler t kernel now args st).1
  = with_chain
      (finally (TrackStep (getStateKey serverId) (tr_cell t) r)
         (chainedPromises st))
      (with_heap
         (<[r := observed now (msg args) n (deref (heap st) r)]> (heap st))
         st).
Proof.
  intros (Hdir & Hr & Htruthy & Hp & Hc & Hfalsy & Hnew) Hk.
  destruct (msg_id (deref (heap st) r)) as [m|] eqn:Hm; [|done].
  assert (Hne : m ≠ "").
  { intros ->. done. }
  assert (Hlt := msg_id_valid_ref _ _ _ Hm).
  rewrite (handler_observes st t kernel now args r m n) by done.
  cbn [fst]. unfold trackLastExecution. cbn [heap with_heap].
  rewrite deref_insert by done.
  assert (Hmsg : msg_id (observed now (msg args) n (deref (heap st) r)) = Some m).
  { unfold observed.
    destruct (Js.truthy_opt (startTime (deref (heap st) r))); simpl; done. }
  rewrite Hmsg. unfold Js.truthy_str_opt, Js.truthy_str.
  rewrite bool_decide_eq_false_2 by done.
  cbn [negb]. rewrite andb_false_r. cbn [andb]. by rewrite Hk.
Qed.

Lemma new_count_valid_ref t st args r n :
  new_count t st args r n → r < length (heap st).
Proof.
  intros (_ & _ & Htruthy & _).
  destruct (msg_id (deref (heap st) r)) as [m|] eqn:Hm; [|done].
  by apply (msg_id_valid_ref _ _ m).
Qed.

(** X1: a record persisted for a notebook is what a later
    [getLastTrackedCellExecution] returns for the same notebook URI and a
    kernel of the same server. *)
Theorem tracked_record_is_returned
    st t kernel now args serverId r n notebook' kernel' :
  idle st →
  new_count t st args r n →
  kernelConnectionMetadata kernel = RemoteConnection serverId →
  kernelConnectionMetadata kernel' = RemoteConnection serverId →
  nb_isUntitled notebook' = false →
  nb_uri notebook' = nb_uri (notebook (tr_cell t)) →
  getLastTrackedCellExecution
    (flush (anyMessageHandler t kernel now args st).1) notebook' kernel'
  = Some (observed now (msg args) n (deref (heap st) r)).
Proof.
  intros (Hq & Ha & Hi) Hnew Hk Hk' Hu Huri.
  assert (Hlt := new_count_valid_ref _ _ _ _ _ Hnew).
  rewrite (handler_queues_step st t kernel now args serverId r n) by done.
  rewrite flush_run_links by done.
  cbn [queue chainedPromises with_chain finally]. rewrite Hq. cbn [app run_links].
  unfold getLastTrackedCellExecution. rewrite Hu, Hk', Huri.
  change (persisted
            (after_link (TrackStep (getStateKey serverId) (tr_cell t) r) []
               (with_chain
                  (finally (TrackStep (getStateKey serverId) (tr_cell t) r)
                     (chainedPromises st))
                  (with_heap
                     (<[r := observed now (msg args) n (deref (heap st) r)]>
                        (heap st)) st)))
            serverId (nb_uri (notebook (tr_cell t)))
          = Some (observed now (msg args) n (deref (heap st) r))).
  rewrite track_link_persisted. rewrite bool_decide_eq_true_2 by done.
  cbn [heap with_chain with_heap]. by rewrite deref_insert.
Qed.

Lemma tracked_record_is_returned_witness :
  getLastTrackedCellExecution
    (flush (anyMessageHandler MoreExamples.handler Examples.remote_kernel
              (Js.Num 950) (Examples.execute_input 5)
              Examples.tracking_started).1)
    Examples.saved_nb Examples.remote_kernel
  = Some (observed (Js.Num 950) (msg (Examples.execute_input 5)) (Js.Num 5)
            (deref (heap Examples.tracking_started) 0)).
Proof.
  apply (tracked_record_is_returned Examples.tracking_started
           MoreExamples.handler Examples.remote_kernel (Js.Num 950)
           (Examples.execute_input 5) "srv1" 0 (Js.Num 5)
           Examples.saved_nb Examples.remote_kernel).
  - vm_compute. done.
  - unfold new_count. split_and!; vm_compute; reflexivity.
  - reflexivity.
  - reflexivity.
  - reflexivity.
  - reflexivity.
Defined.

(** What a call of the handler does to the chain, whatever the message. *)
Lemma handler_queue t kernel now args st :
  let st' := (anyMessageHandler t kernel now args st).1 in
  workspaceMemento st' = workspaceMemento st
  ∧ awaiting (chainedPromises st') = awaiting (chainedPromises st)
  ∧ (queue (chainedPromises st') = queue (chainedPromises st)
     ∨ ∃ serverId r,
         kernelConnectionMetadata kernel = RemoteConnection serverId
         ∧ queue (chainedPromises st')
           = queue (chainedPromises st)
             ++ [TrackStep (getStateKey serverId) (tr_cell t) r]).
Proof.
  assert (Htrack : ∀ r s0,
    workspaceMemento (trackLastExecution (tr_cell t) kernel r s0)
    = workspaceMemento s0
    ∧ awaiting (chainedPromises (trackLastExecution (tr_cell t) kernel r s0))
      = awaiting (chainedPromises s0)
    ∧ (queue (chainedPromises (trackLastExecution (tr_cell t) kernel r s0))
       = queue (chainedPromises s0)
       ∨ ∃ serverId r',
           kernelConnectionMetadata kernel = RemoteConnection serverId
           ∧ queue (chainedPromises
                      (trackLastExecution (tr_cell t) kernel r s0))
             = queue (chainedPromises s0)
               ++ [TrackStep (getStateKey serverId) (tr_cell t) r'])).
  { intros r s0. unfold trackLastExecution.
    destruct (_ && _); [by split_and!; try left|].
    destruct (kernelConnectionMetadata kernel) as [|serverId];
      [by split_and!; try left|].
    simpl. split_and!; [done..|]. right. by exists serverId, r. }
  unfold anyMessageHandler. destruct (direction args).
  - destruct (_ && _); simpl; split_and!; by try left.
  - destruct (executedCells st !! cell_key (tr_cell t)) as [r|];
      [|by split_and!; try left].
    destruct (_ && _); [|by split_and!; try left].
    set (st1 := if negb _ then _ else st).
    assert (H1 : workspaceMemento st1 = workspaceMemento st
                 ∧ chainedPromises st1 = chainedPromises st)
      by (subst st1; by destruct (negb _)).
    clearbody st1. destruct H1 as [Hm Hc].
    assert (Hskip : workspaceMemento st1 = workspaceMemento st
      ∧ awaiting (chainedPromises st1) = awaiting (chainedPromises st)
      ∧ (queue (chainedPromises st1) = queue (chainedPromises st)
         ∨ ∃ serverId r0,
             kernelConnectionMetadata kernel = RemoteConnection serverId
             ∧ queue (chainedPromises st1)
               = queue (chainedPromises st)
                 ++ [TrackStep (getStateKey serverId) (tr_cell t) r0])).
    { rewrite Hc. by split_and!; try left. }
    destruct (content_execution_count (msg args)) as [n|]; [|exact Hskip].
    destruct (negb (Js.truthy_opt (executionCount (deref (heap st1) r))));
      [|exact Hskip].
    destruct (negb (Js.strict_eq_opt _ n)); [|exact Hskip].
    cbn [fst]. rewrite <- Hm, <- Hc.
    apply (Htrack r (with_heap _ st1)).
Qed.

(** X2: handling a message never changes the persisted record of another
    notebook, nor any record of another server. *)
Theorem handler_leaves_other_records
    st t kernel now args serverId' notebookId' :
  idle st →
  (∀ serverId, kernelConnectionMetadata kernel = RemoteConnection serverId →
     ¬ (serverId' = serverId ∧ notebookId' = nb_uri (notebook (tr_cell t)))) →
  persisted (flush (anyMessageHandler t kernel now args st).1)
    serverId' notebookId'
  = persisted st serverId' notebookId'.
Proof.
  intros (Hq & Ha & Hi) Hother.
  destruct (handler_queue t kernel now args st) as (Hm & Haw & Hqueue).
  set (st' := (anyMessageHandler t kernel now args st).1) in *.
  rewrite flush_run_links by (by rewrite ?Haw, ?Hm).
  destruct Hqueue as [Hsame|(serverId & r & Hk & Hgrow)].
  - rewrite Hsame, Hq. simpl. unfold persisted. by rewrite Hm.
  - rewrite Hgrow, Hq. cbn [app run_links].
    rewrite track_link_persisted.
    rewrite bool_decide_eq_false_2 by by apply Hother.
    unfold persisted. by rewrite Hm.
Qed.

Lemma handler_leaves_other_records_witness :
  persisted
    (flush (anyMessageHandler MoreExamples.handler Examples.remote_kernel
              (Js.Num 950) (Examples.execute_input 5)
              (with_memento (Memento.quiescent Examples.store1)
                 Examples.tracking_started)).1)
    "srv2" "file:///work/other.ipynb"
  = persisted
      (with_memento (Memento.quiescent Examples.store1)
         Examples.tracking_started)
      "srv2" "file:///work/other.ipynb".
Proof.
  apply (handler_leaves_other_records
           (with_memento (Memento.quiescent Examples.store1)
              Examples.tracking_started)
           MoreExamples.handler Examples.remote_kernel (Js.Num 950)
           (Examples.execute_input 5) "srv2" "file:///work/other.ipynb").
  - vm_compute. done.
  - intros serverId [= <-] [Hs _]. discriminate.
Defined.

(** X3: [deleteTrackedCellExecution] never changes the persisted record of
    another notebook nor any record of another server, whether the step it
    queues deletes, keeps, or throws. *)
Theorem delete_leaves_other_records
    st cell kernel serverId' notebookId' :
  idle st →
  (∀ serverId, kernelConnectionMetadata kernel = RemoteConnection serverId →
     ¬ (serverId' = serverId ∧ notebookId' = nb_uri (notebook cell))) →
  persisted (flush (deleteTrackedCellExecution cell kernel st))
    serverId' notebookId'
  = persisted st serverId' notebookId'.
Proof.
  intros (Hq & Ha & Hi) Hother. unfold deleteTrackedCellExecution.
  destruct (nb_isUntitled (notebook cell)).
  { rewrite flush_run_links by done. by rewrite Hq. }
  destruct (kernelConnectionMetadata kernel) as [|serverId] eqn:Hk.
  { rewrite flush_run_links by done. by rewrite Hq. }
  rewrite flush_run_links by done.
  cbn [queue chainedPromises with_chain finally]. rewrite Hq.
  cbn [app run_links].
  rewrite delete_link_persisted.
  by rewrite bool_decide_eq_false_2 by by apply Hother.
Qed.

Lemma delete_leaves_other_records_witness :
  persisted
    (flush (deleteTrackedCellExecution Examples.cell2 Examples.remote_kernel
              (init Examples.store1)))
    "srv2" "file:///work/other.ipynb"
  = persisted (init Examples.store1) "srv2" "file:///work/other.ipynb".
Proof.
  apply (delete_leaves_other_records (init Examples.store1) Examples.cell2
           Examples.remote_kernel "srv2" "file:///work/other.ipynb").
  - apply idle_init.
  - intros serverId [= <-] [Hs _]. discriminate.
Defined.

(** X4: an execution that is tracked to its count and then untracked leaves
    no record: when the cell has not moved since its request was sent, the
    record written by the one step is removed by the other. *)
Theorem completed_execution_leaves_no_record
    st t kernel now args serverId r n :
  idle st →
  new_count t st args r n →
  kernelConnectionMetadata kernel = RemoteConnection serverId →
  nb_isUntitled (notebook (tr_cell t)) = false →
  cellIndex (deref (heap st) r) = Some (index (tr_cell t)) →
  let st1 := (anyMessageHandler t kernel now args st).1 in
  let st2 := flush (deleteTrackedCellExecution (tr_cell t) kernel st1) in
  persisted st2 serverId (nb_uri (notebook (tr_cell t))) = None
  ∧ outcome (chainedPromises st2) = outcome (chainedPromises st)
  ∧ idle st2.
Proof.
  intros (Hq & Ha & Hi) Hnew Hk Hu Hidx st1 st2.
  assert (Hlt := new_count_valid_ref _ _ _ _ _ Hnew).
  assert (Hst1 := handler_queues_step st t kernel now args serverId r n Hnew Hk).
  fold st1 in Hst1.
  assert (Hst2 : st2 = run_links
            [TrackStep (getStateKey serverId) (tr_cell t) r;
             DeleteStep (getStateKey serverId) (tr_cell t)]
            (deleteTrackedCellExecution (tr_cell t) kernel st1)).
  { subst st2. unfold deleteTrackedCellExecution. rewrite Hu, Hk.
    rewrite flush_run_links; rewrite Hst1; cbn; rewrite ?Hq; done. }
  rewrite Hst2. unfold deleteTrackedCellExecution. rewrite Hu, Hk.
  cbn [run_links].
  set (s1 := after_link (TrackStep _ _ _) _ _).
  assert (Hrec : persisted s1 serverId (nb_uri (notebook (tr_cell t)))
                 = Some (observed now (msg args) n (deref (heap st) r))).
  { subst s1. rewrite track_link_persisted.
    rewrite bool_decide_eq_true_2 by done. rewrite Hst1.
    cbn [heap with_chain with_heap]. by rewrite deref_insert. }
  assert (Hidx' : cellIndex (observed now (msg args) n (deref (heap st) r))
                  = Some (index (tr_cell t))).
  { unfold observed.
    by destruct (Js.truthy_opt (startTime (deref (heap st) r))). }
  split_and!.
  - rewrite delete_link_persisted. rewrite bool_decide_eq_true_2 by done.
    rewrite Hrec. by rewrite bool_decide_eq_true_2.
  - unfold after_link at 1.
    assert (Hbody :
      callback_body (DeleteStep (getStateKey serverId) (tr_cell t)) (heap s1)
        (workspaceMemento s1)
      = Js.Normal
          [(getStateKey serverId,
            Some (delete (nb_uri (notebook (tr_cell t)))
                    (Memento.get (workspaceMemento s1)
                       (getStateKey serverId) ∅)))]).
    { unfold callback_body. unfold persisted in Hrec. rewrite Hrec.
      by rewrite bool_decide_eq_true_2. }
    rewrite Hbody. subst s1. rewrite Hst1. done.
  - destruct (after_link_quiet
                (DeleteStep (getStateKey serverId) (tr_cell t)) [] s1)
      as (Ha' & Hq' & Hi').
    split_and!; [done|done|]. apply Hi'. subst s1.
    match goal with
    | |- Memento.inflight (workspaceMemento (after_link ?cb ?q ?s0)) = [] =>
        destruct (after_link_quiet cb q s0) as (_ & _ & Hi1)
    end.
    apply Hi1. by rewrite Hst1.
Qed.

Lemma completed_execution_leaves_no_record_witness :
  let st1 := MoreExamples.count_seen in
  let st2 := flush (deleteTrackedCellExecution Examples.cell2
                      Examples.remote_kernel st1) in
  persisted st2 "srv1" (nb_uri Examples.saved_nb) = None
  ∧ outcome (chainedPromises st2)
    = outcome (chainedPromises Examples.tracking_started)
  ∧ idle st2.
Proof.
  apply (completed_execution_leaves_no_record Examples.tracking_started
           MoreExamples.handler Examples.remote_kernel (Js.Num 950)
           (Examples.execute_input 5) "srv1" 0 (Js.Num 5)).
  - vm_compute. done.
  - unfold new_count. split_and!; vm_compute; reflexivity.
  - reflexivity.
  - reflexivity.
  - vm_compute. reflexivity.
Defined.

(** X5: removals compose.  Two removal events handled one after the other
    leave the store that a single event with both lists leaves, and the
    empty list changes nothing. *)
Theorem removals_compose st removed1 removed2 :
  idle st →
  Memento.store
    (workspaceMemento
       (flush (onDidRemoveServerUris removed2
                 (onDidRemoveServerUris removed1 st))))
  = Memento.store
      (workspaceMemento
         (flush (onDidRemoveServerUris (removed1 ++ removed2) st)))
  ∧ Memento.store (workspaceMemento (flush (onDidRemoveServerUris [] st)))
    = Memento.store (workspaceMemento st).
Proof.
  intros (Hq & Ha & Hi). unfold onDidRemoveServerUris.
  rewrite !flush_run_links by done.
  cbn [queue chainedPromises with_chain finally]. rewrite Hq.
  cbn [app run_links]. unfold after_link. simpl.
  split; [|done]. unfold Memento.commit_all.
  by rewrite !fmap_app, foldl_app.
Qed.

Lemma removals_compose_witness :
  let st := init Examples.store1 in
  let removed1 := [ {| entry_serverId := "srv1" |} ] in
  let removed2 := [ {| entry_serverId := "srv2" |} ] in
  Memento.store
    (workspaceMemento
       (flush (onDidRemoveServerUris removed2
                 (onDidRemoveServerUris removed1 st))))
  = Memento.store
      (workspaceMemento
         (flush (onDidRemoveServerUris (removed1 ++ removed2) st)))
  ∧ Memento.store (workspaceMemento (flush (onDidRemoveServerUris [] st)))
    = Memento.store (workspaceMemento st).
Proof.
  apply (removals_compose (init Examples.store1)
           [ {| entry_serverId := "srv1" |} ]
           [ {| entry_serverId := "srv2" |} ]).
  apply idle_init.
Defined.

(** The operations of the tracker never settle the chain themselves. *)
Lemma emit_to_outcome ts kernel now args : ∀ st,
  outcome (chainedPromises (emit_to ts kernel now args st).1)
  = outcome (chainedPromises st).
Proof.
  assert (Hhandler : ∀ t st,
    outcome (chainedPromises (anyMessageHandler t kernel now args st).1)
    = outcome (chainedPromises st)).
  { intros t st. unfold anyMessageHandler. destruct (direction args).
    - by destruct (_ && _).
    - destruct (executedCells st !! cell_key (tr_cell t)) as [r|]; [|done].
      destruct (_ && _); [|done].
      set (st1 := if negb _ then _ else st).
      assert (H1 : chainedPromises st1 = chainedPromises st)
        by (subst st1; by destruct (negb _)).
      clearbody st1. rewrite <- H1.
      destruct (content_execution_count (msg args)) as [n|]; [|done].
      destruct (negb (Js.truthy_opt (executionCount (deref (heap st1) r))));
        [|done].
      destruct (negb (Js.strict_eq_opt _ n)); [|done].
      cbn [fst].
      by destruct (trackLastExecution_effect (tr_cell t) kernel r
                     (with_heap
                        (<[r := set_executionCount n (deref (heap st1) r)]>
                           (heap st1)) st1)) as (_ & _ & _ & _ & -> & _). }
  induction ts as [|t ts IH]; intros st; [done|]. simpl.
  assert (Hd : outcome (chainedPromises (deliver t kernel now args st).1)
               = outcome (chainedPromises st)).
  { unfold deliver. destruct (session_kernel_of kernel); [|done].
    destruct (_ && _); [|done]. apply Hhandler. }
  destruct (deliver t kernel now args st) as [st1 t1]. cbn [fst] in Hd.
  specialize (IH st1).
  destruct (emit_to ts kernel now args st1) as [st2 ts2]. cbn [fst] in *.
  by rewrite IH.
Qed.

Lemma call_outcome op st :
  outcome (chainedPromises (call op st)) = outcome (chainedPromises st).
Proof.
  destruct op as [nb k|cell k|cell k|k now args|k|servers]; simpl.
  - done.
  - unfold trackCellExecution. by destruct (_ || _).
  - unfold deleteTrackedCellExecution.
    destruct (nb_isUntitled _); [done|].
    by destruct (kernelConnectionMetadata k).
  - unfold emit.
    assert (H := emit_to_outcome (trackings st) k now args st).
    by destruct (emit_to (trackings st) k now args st) as [st1 ts].
  - done.
  - done.
Qed.

(** X6: a rejection of the chain is permanent.  Once [chainedPromises] is
    rejected (the untracking step threw), it is rejected in every later
    state, whatever is called, started or settled: [finally] passes the
    rejection on and nothing catches it. *)
Theorem rejection_is_permanent st tr st' e :
  exec st tr st' →
  outcome (chainedPromises st) = Js.Rejected e →
  ∃ e', outcome (chainedPromises st') = Js.Rejected e'.
Proof.
  intros Hexec Hrej.
  induction Hexec as [st|st tr st1 l st2 Hexec IH Hstep]; [by exists e|].
  destruct (IH Hrej) as [e1 He1].
  destruct Hstep as [op st1|st1 cb q st2 Hq Hrun|st1 u ok Hu].
  - exists e1. by rewrite call_outcome.
  - unfold run_next in Hrun.
    destruct (awaiting (chainedPromises st1)); [|done]. rewrite Hq in Hrun.
    destruct (callback_body cb (heap st1) (workspaceMemento st1)) as [ws|e2].
    + destruct (issue _ _). injection Hrun as <-. by exists e1.
    + injection Hrun as <-. by exists e2.
  - by exists e1.
Qed.

Lemma after_rejection_exec :
  exec MoreExamples.rejected MoreExamples.after_rejection_trace
    MoreExamples.after_rejection_final.
Proof.
  set (s0 := MoreExamples.rejected).
  set (s1 := onDidRemoveServerUris [ {| entry_serverId := "srv1" |} ] s0).
  set (s2 := default s1 (run_next s1)).
  change MoreExamples.after_rejection_final with (settle 0 true s2).
  unfold MoreExamples.after_rejection_trace.
  apply (ChainSpec.exec_cons s0 _ s1); [apply (step_call (OpRemoved _))|].
  apply (ChainSpec.exec_cons s1 _ s2).
  { apply (step_begin s1 (RemoveStep [ {| entry_serverId := "srv1" |} ]) [] s2);
      vm_compute; reflexivity. }
  apply (ChainSpec.exec_cons s2 _ (settle 0 true s2)).
  { apply (step_settle s2 0 true). vm_compute. by constructor. }
  apply exec_nil.
Qed.

Lemma rejection_is_permanent_witness :
  ∃ e', outcome (chainedPromises MoreExamples.after_rejection_final)
        = Js.Rejected e'.
Proof.
  apply (rejection_is_permanent MoreExamples.rejected
           MoreExamples.after_rejection_trace
           MoreExamples.after_rejection_final
           (Js.TypeError
              "Cannot read properties of undefined (reading 'cellIndex')")).
  - apply after_rejection_exec.
  - vm_compute. reflexivity.
Defined.

Lemma exec_app st tr1 st1 tr2 st2 :
  exec st tr1 st1 → exec st1 tr2 st2 → exec st (tr1 ++ tr2) st2.
Proof.
  intros H1 H2. induction H2 as [|st1 tr2 st2 l st3 H2 IH Hstep].
  - by rewrite app_nil_r.
  - rewrite app_assoc. eapply exec_snoc; [by apply IH|done].
Qed.

Lemma begun_app tr1 tr2 : begun (tr1 ++ tr2) = begun tr1 ++ begun tr2.
Proof.
  induction tr1 as [|[op|cb us|u ok] tr1 IH]; simpl; [done|done| |done].
  by rewrite IH.
Qed.

Lemma settle_all_run (ws : list (string * option StateObj)) : ∀ n st,
  Memento.inflight (workspaceMemento st) = Memento.entries n ws →
  awaiting (chainedPromises st) = seq n (length ws) →
  ∃ tr, exec st tr (settle_all (seq n (length ws)) st) ∧ begun tr = [].
Proof.
  induction ws as [|w ws IH]; intros n st Hin Haw.
  - exists []. split; [apply exec_nil|done].
  - simpl. unfold settle_all. simpl.
    destruct (IH (S n) (settle n true st)) as (tr & Htr & Hb).
    + simpl. destruct (workspaceMemento st) as [sto inf nxt]. simpl in Hin.
      subst inf. simpl in *. by rewrite settle_head.
    + simpl. rewrite Haw. simpl. rewrite Nat.eqb_refl. simpl.
      apply ChainSpec.filter_out_head.
    + exists (Settled n true :: tr). split; [|done].
      eapply ChainSpec.exec_cons; [|exact Htr].
      apply step_settle. unfold Memento.tickets. rewrite Hin. simpl.
      by constructor.
Qed.

Lemma drain_run q : ∀ st,
  Memento.inflight (workspaceMemento st) = [] →
  awaiting (chainedPromises st) = [] →
  queue (chainedPromises st) = q →
  ∃ tr, exec st tr (drain (length q) st) ∧ begun tr = q.
Proof.
  induction q as [|cb q IH]; intros st Hin Haw Hq.
  - exists []. split; [apply exec_nil|done].
  - simpl length.
    destruct (run_next_enabled cb q st Haw Hq) as [st' Hrun].
    assert (Hstep := step_begin st cb q st' Hq Hrun).
    assert (Hsettle : ∃ tr, exec st' tr
                        (settle_all (awaiting (chainedPromises st')) st')
                      ∧ begun tr = []).
    { pose proof Hrun as Hrun'. unfold run_next in Hrun'.
      rewrite Haw, Hq in Hrun'.
      destruct (callback_body cb (heap st) (workspaceMemento st)) as [ws|e].
      - rewrite issue_spec in Hrun'. injection Hrun' as <-. simpl.
        apply settle_all_run; simpl; [by rewrite Hin|done].
      - injection Hrun' as <-. exists []. split; [apply exec_nil|done]. }
    destruct Hsettle as (tr1 & Htr1 & Hb1).
    assert (Hlink := run_link cb q st st' Haw Hq Hin Hrun).
    destruct (after_link_quiet cb q st) as (Ha' & Hq' & Hi').
    destruct (IH (after_link cb q st)) as (tr2 & Htr2 & Hb2); auto.
    exists (Begin cb (awaiting (chainedPromises st')) :: tr1 ++ tr2). split.
    + simpl. rewrite Hrun. rewrite Hlink.
      eapply ChainSpec.exec_cons; [exact Hstep|].
      eapply exec_app; [exact Htr1|]. by rewrite Hlink.
    + simpl. by rewrite begun_app, Hb1, Hb2.
Qed.

(** X8: every queued step runs, in the order in which it was queued.  From
    a state with nothing running, the system has an execution in which the
    callbacks start in queue order, each after the writes of the one before
    were committed; it ends in [flush st], where nothing is left. *)
Theorem queued_steps_run_in_order st :
  awaiting (chainedPromises st) = [] →
  Memento.inflight (workspaceMemento st) = [] →
  ∃ tr, exec st tr (flush st)
        ∧ begun tr = queue (chainedPromises st)
        ∧ idle (flush st).
Proof.
  intros Ha Hi.
  destruct (drain_run (queue (chainedPromises st)) st Hi Ha eq_refl)
    as (tr & Htr & Hb).
  exists tr. unfold flush. rewrite Ha. simpl. split_and!; [done..|].
  by apply ChainSpec.drain_quiet.
Qed.

Lemma queued_steps_run_in_order_witness :
  let st := onDidRemoveServerUris [ {| entry_serverId := "srv2" |} ]
              (deleteTrackedCellExecution Examples.cell2
                 Examples.remote_kernel (init Examples.store1)) in
  ∃ tr, exec st tr (flush st)
        ∧ begun tr = queue (chainedPromises st)
        ∧ idle (flush st).
Proof.
  apply (queued_steps_run_in_order
           (onDidRemoveServerUris [ {| entry_serverId := "srv2" |} ]
              (deleteTrackedCellExecution Examples.cell2
                 Examples.remote_kernel (init Examples.store1)))).
  - reflexivity.
  - reflexivity.
Defined.

(** Messages the handler has no use for leave everything as it is. *)
Lemma deliver_all_ignored t evs st :
  Forall (fun ev : IKernel * Js.number * IAnyMessageArgs =>
            direction ev.2 = recv
            ∧ ∀ r, executedCells st !! cell_key (tr_cell t) = Some r →
                   parent_msg_id (msg ev.2) ≠ msg_id (deref (heap st) r))
    evs →
  deliver_all t evs st = (st, t).
Proof.
  induction evs as [|[[kernel now] args] evs IH]; intros Hall; [done|].
  apply Forall_cons in Hall as [[Hdir Hother] Hall]. simpl in Hdir, Hother.
  simpl.
  assert (Hd : deliver t kernel now args st = (st, t)).
  { unfold deliver. destruct (session_kernel_of kernel); [|done].
    destruct (_ && _); [|done].
    unfold anyMessageHandler. rewrite Hdir.
    destruct (executedCells st !! cell_key (tr_cell t)) as [r|]; [|done].
    rewrite (bool_decide_eq_false_2 _ (Hother r eq_refl)).
    by rewrite andb_false_r. }
  rewrite Hd. by apply IH.
Qed.

(** X9: replies to other requests are ignored.  Incoming messages whose
    parent message id is not the tracked one change neither the records in
    memory, nor the chain, nor the subscription, however many arrive. *)
Theorem unrelated_replies_are_ignored t evs st r :
  executedCells st !! cell_key (tr_cell t) = Some r →
  Forall (fun ev : IKernel * Js.number * IAnyMessageArgs =>
            direction ev.2 = recv
            ∧ parent_msg_id (msg ev.2) ≠ msg_id (deref (heap st) r))
    evs →
  deliver_all t evs st = (st, t).
Proof.
  intros Hr Hall. apply deliver_all_ignored.
  eapply Forall_impl; [exact Hall|]. intros ev [Hdir Hne]. split; [done|].
  intros r' Hr'. rewrite Hr in Hr'. by injection Hr' as <-.
Qed.

Lemma unrelated_replies_are_ignored_witness :
  deliver_all MoreExamples.handler
    [ (Examples.remote_kernel, Js.Num 950, MoreExamples.other_reply);
      (Examples.remote_kernel, Js.Num 960, MoreExamples.other_reply) ]
    Examples.tracking_started
  = (Examples.tracking_started, MoreExamples.handler).
Proof.
  apply (unrelated_replies_are_ignored MoreExamples.handler
           [ (Examples.remote_kernel, Js.Num 950, MoreExamples.other_reply);
             (Examples.remote_kernel, Js.Num 960, MoreExamples.other_reply) ]
           Examples.tracking_started 0).
  - vm_compute. reflexivity.
  - repeat constructor; vm_compute; discriminate.
Defined.

(** X10: tracking a cell again forgets its previous request.  After
    [trackCellExecution] the cell has no record in memory, so that until the
    next execute request is sent no incoming message, not even a late reply
    to the previous request, is recorded or persisted by a handler of that
    cell. *)
Theorem retracking_forgets_the_request st cell kernel t evs :
  isRemoteConnection (kernelConnectionMetadata kernel) = true →
  doc_isUntitled (document cell) = false →
  cell_key (tr_cell t) = cell_key cell →
  Forall (fun ev : IKernel * Js.number * IAnyMessageArgs =>
            direction ev.2 = recv) evs →
  let st' := trackCellExecution cell kernel st in
  executedCells st' !! cell_key cell = None
  ∧ deliver_all t evs st' = (st', t).
Proof.
  intros Hk Hu Hkey Hall st'.
  assert (Hnone : executedCells st' !! cell_key cell = None).
  { subst st'. unfold trackCellExecution. rewrite Hk, Hu. simpl.
    apply lookup_delete_eq. }
  split; [done|]. apply deliver_all_ignored.
  eapply Forall_impl; [exact Hall|]. intros ev Hdir. split; [done|].
  intros r Hr. rewrite Hkey, Hnone in Hr. done.
Qed.

Lemma retracking_forgets_the_request_witness :
  let st' := trackCellExecution Examples.cell2 Examples.remote_kernel
               Examples.tracking_started in
  executedCells st' !! cell_key Examples.cell2 = None
  ∧ deliver_all MoreExamples.handler
      [ (Examples.remote_kernel, Js.Num 950, Examples.execute_input 5) ] st'
    = (st', MoreExamples.handler).
Proof.
  apply (retracking_forgets_the_request Examples.tracking_started
           Examples.cell2 Examples.remote_kernel MoreExamples.handler
           [ (Examples.remote_kernel, Js.Num 950, Examples.execute_input 5) ]).
  - reflexivity.
  - reflexivity.
  - reflexivity.
  - repeat constructor.
Defined.

(** X11: a kernel that starts late is hooked when it starts.  Tracked while
    the kernel has no session kernel, the handler is not connected and sees
    no message; when [onStarted] fires and the session kernel is there, the
    handler is connected and holds the disposable that disconnects it. *)
Theorem late_kernel_is_hooked st cell kernel kernel' kc :
  isRemoteConnection (kernelConnectionMetadata kernel) = true →
  doc_isUntitled (document cell) = false →
  session_kernel_of kernel = None →
  kernel_key kernel' = kernel_key kernel →
  session_kernel_of kernel' = Some kc →
  let st1 := trackCellExecution cell kernel st in
  ∃ t1 t2,
    trackings st1 = trackings st ++ [t1]
    ∧ tr_cell t1 = cell ∧ tr_connected t1 = false
    ∧ (∀ k now args, deliver t1 k now args st1 = (st1, t1))
    ∧ trackings (started kernel' st1) = trackings (started kernel' st) ++ [t2]
    ∧ tr_cell t2 = cell ∧ tr_connected t2 = true ∧ wf_tracking t2.
Proof.
  intros Hk Hu Hnone Hkey Hsome st1.
  set (t0 := {| tr_cell := cell; tr_kernel := kernel_key kernel;
                tr_listening := true; tr_connected := false;
                tr_disposables := [] |}).
  assert (Hst1 : trackings st1 = trackings st ++ [t0]).
  { subst st1. unfold trackCellExecution. rewrite Hk, Hu. simpl.
    destruct (session kernel); [|done].
    unfold hookUpSession. by rewrite Hnone. }
  exists t0, (hookUpSession kernel' t0). split_and!; try done.
  - intros k now args. unfold deliver. by destruct (session_kernel_of k).
  - unfold started. simpl. rewrite Hst1, fmap_app. simpl.
    by rewrite Hkey, bool_decide_eq_true_2.
  - unfold hookUpSession. by rewrite Hsome.
  - unfold hookUpSession. by rewrite Hsome.
  - by apply ChainSpec.hookUpSession_wf.
Qed.

Lemma late_kernel_is_hooked_witness :
  let st1 := trackCellExecution Examples.cell2 MoreExamples.cold_kernel
               (init ∅) in
  ∃ t1 t2,
    trackings st1 = trackings (init ∅) ++ [t1]
    ∧ tr_cell t1 = Examples.cell2 ∧ tr_connected t1 = false
    ∧ (∀ k now args, deliver t1 k now args st1 = (st1, t1))
    ∧ trackings (started Examples.remote_kernel st1)
      = trackings (started Examples.remote_kernel (init ∅)) ++ [t2]
    ∧ tr_cell t2 = Examples.cell2 ∧ tr_connected t2 = true
    ∧ wf_tracking t2.
Proof.
  apply (late_kernel_is_hooked (init ∅) Examples.cell2
           MoreExamples.cold_kernel Examples.remote_kernel
           {| kc_id := "k-42" |}); reflexivity.
Defined.

(** *** Only complete records are persisted *)

Lemma requested_set_startTime tm i : requested i → requested (set_startTime tm i).
Proof. by intros (? & ? & ?). Qed.

Lemma requested_set_executionCount n i :
  requested i → requested (set_executionCount n i).
Proof. by intros (? & ? & ?). Qed.

Lemma complete_set_startTime tm i : complete i → complete (set_startTime tm i).
Proof. intros (? & ? & ? & ? & ?). split_and!; try done; by eexists. Qed.

Lemma complete_set_executionCount n i :
  complete i → complete (set_executionCount n i).
Proof. intros (? & ? & ? & ? & ?). split_and!; try done; by eexists. Qed.

Lemma requested_deref h r : Forall requested h → r < length h → requested (deref h r).
Proof.
  intros Hall Hr. unfold deref.
  destruct (lookup_lt_is_Some_2 h r Hr) as [x Hx]. rewrite Hx. simpl.
  by eapply Forall_lookup_1.
Qed.

(** A new record object. *)
Lemma mem_inv_alloc h ec q k x :
  mem_inv h ec q → requested x →
  mem_inv (h ++ [x]) (<[k := length h]> ec) q.
Proof.
  intros (Hh & He & Hq) Hx. split_and!.
  - apply Forall_app. split; [done|]. by constructor.
  - intros k' r. rewrite length_app. simpl.
    destruct (decide (k' = k)) as [->|Hne].
    + rewrite lookup_insert_eq. intros [= <-]. lia.
    + rewrite lookup_insert_ne by done. intros Hr. apply He in Hr. lia.
  - intros id cell r Hin. destruct (Hq id cell r Hin) as [Hr Hc].
    rewrite length_app. split; [lia|]. by rewrite TrackerSpec.deref_app_l.
Qed.

(** A record object with one more field. *)
Lemma mem_inv_insert h ec q r x :
  mem_inv h ec q → requested x →
  (complete (deref h r) → complete x) →
  mem_inv (<[r := x]> h) ec q.
Proof.
  intros (Hh & He & Hq) Hx Hc. split_and!.
  - by apply Forall_insert.
  - intros k r'. rewrite length_insert. apply He.
  - intros id cell r' Hin. destruct (Hq id cell r' Hin) as [Hr Hc'].
    rewrite length_insert. split; [done|].
    destruct (decide (r = r')) as [<-|Hne].
    + rewrite TrackerSpec.deref_insert by done. by apply Hc.
    + by rewrite TrackerSpec.deref_insert_ne.
Qed.

(** One more link on the chain. *)
Lemma mem_inv_finally h ec q cb :
  mem_inv h ec q →
  (∀ id cell r, cb = TrackStep id cell r → r < length h ∧ complete (deref h r)) →
  mem_inv h ec (q ++ [cb]).
Proof.
  intros (Hh & He & Hq) Hcb. split_and!; [done..|].
  intros id cell r Hin. apply elem_of_app in Hin as [Hin|Hin]; [by eapply Hq|].
  apply list_elem_of_singleton in Hin. by eapply Hcb.
Qed.

Lemma trackLastExecution_mem_inv cell kernel r st :
  mem_inv (heap st) (executedCells st) (queue (chainedPromises st)) →
  r < length (heap st) → complete (deref (heap st) r) →
  let st' := trackLastExecution cell kernel r st in
  mem_inv (heap st') (executedCells st') (queue (chainedPromises st')).
Proof.
  intros Hinv Hr Hc. unfold trackLastExecution.
  destruct (_ && _); [done|].
  destruct (kernelConnectionMetadata kernel); [done|]. simpl.
  apply mem_inv_finally; [done|]. by intros id' cell' r' [= _ _ <-].
Qed.

Lemma handler_mem_inv t kernel now args st :
  mem_inv (heap st) (executedCells st) (queue (chainedPromises st)) →
  let st' := (anyMessageHandler t kernel now args st).1 in
  mem_inv (heap st') (executedCells st') (queue (chainedPromises st')).
Proof.
  intros Hinv. unfold anyMessageHandler. destruct (direction args).
  - destruct (_ && _); [|done]. simpl.
    apply mem_inv_alloc; [done|]. split_and!; by eexists.
  - destruct (executedCells st !! cell_key (tr_cell t)) as [r|] eqn:Hr; [|done].
    destruct (Js.truthy_str_opt _ && _) eqn:Hguard; [|done].
    apply andb_true_iff in Hguard as [Hid _].
    assert (Hlt : r < length (heap st)) by (destruct Hinv as (_ & He & _); by eapply He).
    assert (Hreq : requested (deref (heap st) r)).
    { destruct Hinv as (Hh & _). by apply requested_deref. }
    set (st1 := if negb _ then _ else st).
    assert (H1 : mem_inv (heap st1) (executedCells st1) (queue (chainedPromises st1))
                 ∧ length (heap st1) = length (heap st)
                 ∧ msg_id (deref (heap st1) r) = msg_id (deref (heap st) r)
                 ∧ requested (deref (heap st1) r)
                 ∧ is_Some (startTime (deref (heap st1) r))).
    { subst st1. destruct (Js.truthy_opt (startTime (deref (heap st) r))) eqn:Hs;
        simpl.
      - split_and!; try done.
        destruct (startTime (deref (heap st) r)); [by eexists|done].
      - rewrite length_insert, TrackerSpec.deref_insert by done.
        split_and!; try done.
        apply mem_inv_insert; [done|by apply requested_set_startTime|].
        apply complete_set_startTime. }
    clearbody st1. destruct H1 as (Hinv1 & Hlen1 & Hid1 & Hreq1 & Hst1).
    destruct (content_execution_count (msg args)) as [n|]; [|done].
    destruct (negb (Js.truthy_opt _)); [|done].
    destruct (negb (Js.strict_eq_opt _ _)); [|done].
    cbn [fst].
    apply trackLastExecution_mem_inv; simpl.
    + apply mem_inv_insert; [done|by apply requested_set_executionCount|].
      apply complete_set_executionCount.
    + rewrite length_insert. lia.
    + rewrite TrackerSpec.deref_insert by lia.
      destruct Hreq1 as (_ & Hk & Hc).
      split_and!; simpl; try done; try (by rewrite Hid1); by eexists.
Qed.

Lemma emit_to_mem_inv ts kernel now args : ∀ st,
  mem_inv (heap st) (executedCells st) (queue (chainedPromises st)) →
  let st' := (emit_to ts kernel now args st).1 in
  mem_inv (heap st') (executedCells st') (queue (chainedPromises st')).
Proof.
  induction ts as [|t ts IH]; intros st Hinv; [done|].
  simpl.
  assert (Hd : let st1 := (deliver t kernel now args st).1 in
               mem_inv (heap st1) (executedCells st1)
                 (queue (chainedPromises st1))).
  { unfold deliver. destruct (session_kernel_of kernel); [|done].
    destruct (_ && _); [|done]. by apply handler_mem_inv. }
  destruct (deliver t kernel now args st) as [st1 t1]. cbn [fst] in Hd.
  specialize (IH st1 Hd).
  destruct (emit_to ts kernel now args st1) as [st2 ts2]. by cbn [fst] in *.
Qed.

Lemma call_records_inv op st : records_inv st → records_inv (call op st).
Proof.
  intros [Hmem Hsto]. split.
  - destruct op as [nb k|cell k|cell k|k now args|k|servers]; simpl.
    + done.
    + unfold trackCellExecution. destruct (_ || _); [done|]. simpl.
      destruct Hmem as (Hh & He & Hq). split_and!; [done| |done].
      intros k' r Hr. apply lookup_delete_Some in Hr as [_ Hr]. by eapply He.
    + unfold deleteTrackedCellExecution.
      destruct (nb_isUntitled _); [done|].
      destruct (kernelConnectionMetadata k); [done|]. simpl.
      by apply mem_inv_finally.
    + unfold emit.
      assert (H := emit_to_mem_inv (trackings st) k now args st Hmem).
      by destruct (emit_to (trackings st) k now args st) as [st1 ts].
    + done.
    + simpl. by apply mem_inv_finally.
  - by destruct (ChainSpec.call_chain op st) as [-> _].
Qed.

(** The writes a callback requests hold complete records only. *)
Lemma callback_body_complete cb h ec q m ws :
  mem_inv h ec (cb :: q) →
  (∀ id obj, Memento.store m !! id = Some obj → complete_obj obj) →
  callback_body cb h m = Js.Normal ws →
  ∀ id obj, (id, Some obj) ∈ ws → complete_obj obj.
Proof.
  intros (_ & _ & Hq) Hsto Hbody id obj Hin.
  assert (Hget : ∀ key, complete_obj (Memento.get m key ∅)).
  { intros key. unfold Memento.get.
    destruct (Memento.store m !! key) as [o|] eqn:Ho; [by eapply Hsto|].
    intros nb i Hi. by rewrite lookup_empty in Hi. }
  destruct cb as [id' cell|id' cell r|servers]; simpl in Hbody.
  - destruct (Memento.get m id' ∅ !! nb_uri (notebook cell)) as [rec|]; [|done].
    destruct (bool_decide _); injection Hbody as <-;
      [|by apply elem_of_nil in Hin].
    apply list_elem_of_singleton in Hin. injection Hin as -> ->.
    intros nb i Hi. apply lookup_delete_Some in Hi as [_ Hi]. by eapply Hget.
  - injection Hbody as <-.
    apply list_elem_of_singleton in Hin. injection Hin as -> ->.
    intros nb i Hi.
    destruct (decide (nb = nb_uri (notebook cell))) as [->|Hne].
    + rewrite lookup_insert_eq in Hi. injection Hi as <-.
      eapply Hq. by left.
    + rewrite lookup_insert_ne in Hi by done. by eapply Hget.
  - injection Hbody as <-.
    apply list_elem_of_fmap in Hin as (x & Hx & _). done.
Qed.

Lemma entries_values (ws : list (string * option StateObj)) : ∀ n u w,
  (u, w) ∈ Memento.entries n ws → w ∈ ws.
Proof.
  induction ws as [|w0 ws IH]; intros n u w Hin; simpl in Hin.
  - by apply elem_of_nil in Hin.
  - apply elem_of_cons in Hin as [Heq|Hin].
    + injection Heq as _ ->. by left.
    + right. by eapply IH.
Qed.

Lemma run_next_records_inv st st' :
  records_inv st → run_next st = Some st' → records_inv st'.
Proof.
  intros [Hmem [Hsto Hfly]] Hrun. unfold run_next in Hrun.
  destruct (awaiting (chainedPromises st)); [|done].
  destruct (queue (chainedPromises st)) as [|cb q] eqn:Hq; [done|].
  assert (Htail : mem_inv (heap st) (executedCells st) q).
  { destruct Hmem as (Hh & He & Hqs). split_and!; [done..|].
    intros id cell r Hin. eapply Hqs. by right. }
  destruct (callback_body cb (heap st) (workspaceMemento st)) as [ws|e] eqn:Hbody.
  - assert (Hws := callback_body_complete cb _ _ _ _ ws Hmem Hsto Hbody).
    rewrite TrackerFacts.issue_spec in Hrun. injection Hrun as <-.
    split; [done|]. split; simpl; [done|].
    intros u id obj Hin. apply elem_of_app in Hin as [Hin|Hin].
    + by eapply Hfly.
    + apply entries_values in Hin. by eapply Hws.
  - injection Hrun as <-. by split.
Qed.

Lemma find_ticket_elem u (l : list (nat * (string * option StateObj))) w :
  Memento.find_ticket u l = Some w → (u, w) ∈ l.
Proof.
  unfold Memento.find_ticket.
  destruct (List.find _ l) as [[u' w']|] eqn:Hfind; [|done].
  intros [= <-]. apply List.find_some in Hfind as [Hin Heq].
  apply Nat.eqb_eq in Heq. simpl in Heq. subst u'.
  by apply list_elem_of_In.
Qed.

Lemma settle_records_inv u ok st : records_inv st → records_inv (settle u ok st).
Proof.
  intros [Hmem [Hsto Hfly]]. split; [done|]. simpl.
  unfold Memento.settle.
  destruct (Memento.find_ticket u _) as [[key v]|] eqn:Hfind; [|by split].
  apply find_ticket_elem in Hfind.
  split; simpl.
  - destruct ok; [|done]. intros id obj. destruct v as [x|]; simpl.
    + destruct (decide (id = key)) as [->|Hne].
      * rewrite lookup_insert_eq. intros [= <-]. by eapply Hfly.
      * rewrite lookup_insert_ne by done. apply Hsto.
    + intros Hl. apply lookup_delete_Some in Hl as [_ Hl]. by eapply Hsto.
  - intros u' id obj Hin. unfold Memento.drop_ticket in Hin.
    apply list_elem_of_In, List.filter_In in Hin as [Hin _].
    apply list_elem_of_In in Hin. by eapply Hfly.
Qed.

Lemma records_inv_exec s tr st :
  (∀ id obj, s !! id = Some obj → complete_obj obj) →
  exec (init s) tr st → records_inv st.
Proof.
  intros Hs Hexec. remember (init s) as st0 eqn:Hst0.
  induction Hexec as [st|st tr st1 l st2 Hexec IH Hstep].
  - subst st. split; [|split; simpl; [done|]].
    + split_and!; simpl; [constructor|done|].
      intros id cell r Hin. by apply elem_of_nil in Hin.
    + intros u id obj Hin. by apply elem_of_nil in Hin.
  - specialize (IH Hst0).
    destruct Hstep as [op st1|st1 cb q st' Hq Hrun|st1 u ok Hu].
    + by apply call_records_inv.
    + by eapply run_next_records_inv.
    + by apply settle_records_inv.
Qed.

(** X12: only complete records are persisted.  If the records the workspace
    memento starts with have every field and a message id that is not empty,
    then so has every record [getLastTrackedCellExecution] returns, in every
    state the tracker reaches: although records are built field by field,
    none is written before its start time and execution count are there. *)
Theorem returned_records_are_complete s tr st notebook kernel i :
  (∀ id obj, s !! id = Some obj → complete_obj obj) →
  exec (init s) tr st →
  getLastTrackedCellExecution st notebook kernel = Some i →
  complete i.
Proof.
  intros Hs Hexec Hget.
  destruct (records_inv_exec s tr st Hs Hexec) as [_ [Hsto _]].
  unfold getLastTrackedCellExecution in Hget.
  destruct (nb_isUntitled notebook); [done|].
  destruct (kernelConnectionMetadata kernel) as [|serverId]; [done|].
  unfold Memento.get in Hget.
  destruct (Memento.store (workspaceMemento st) !! getStateKey serverId)
    as [obj|] eqn:Hobj.
  - by eapply Hsto.
  - by rewrite lookup_empty in Hget.
Qed.

Lemma tracked_exec :
  exec (init ∅) MoreExamples.tracked_trace MoreExamples.tracked_final.
Proof.
  set (s0 := init ∅).
  set (s1 := trackCellExecution Examples.cell2 Examples.remote_kernel s0).
  set (s2 := emit Examples.remote_kernel (Js.Num 900) Examples.execute_request s1).
  set (s3 := emit Examples.remote_kernel (Js.Num 950) (Examples.execute_input 5) s2).
  set (s4 := default s3 (run_next s3)).
  change MoreExamples.tracked_final with (settle 0 true s4).
  unfold MoreExamples.tracked_trace.
  apply (ChainSpec.exec_cons s0 _ s1); [apply (step_call (OpTrackCell _ _))|].
  apply (ChainSpec.exec_cons s1 _ s2); [apply (step_call (OpEmit _ _ _))|].
  apply (ChainSpec.exec_cons s2 _ s3); [apply (step_call (OpEmit _ _ _))|].
  apply (ChainSpec.exec_cons s3 _ s4).
  { apply (step_begin s3 (TrackStep (getStateKey "srv1") Examples.cell2 0) [] s4);
      vm_compute; reflexivity. }
  apply (ChainSpec.exec_cons s4 _ (settle 0 true s4)).
  { apply (step_settle s4 0 true). vm_compute. by constructor. }
  apply exec_nil.
Qed.

Lemma returned_records_are_complete_witness :
  complete (set_executionCount (Js.Num 5)
              (set_startTime (Js.Num 1000)
                 {| msg_id := Some "m1"; kernelId := Some "k-42";
                    cellIndex := Some 2%Z; startTime := None;
                    executionCount := None |})).
Proof.
  apply (returned_records_are_complete ∅ MoreExamples.tracked_trace
           MoreExamples.tracked_final Examples.saved_nb Examples.remote_kernel).
  - intros id obj Hl. by rewrite lookup_empty in Hl.
  - apply tracked_exec.
  - vm_compute. reflexivity.
Defined.

(** *** The listener on [kernel.onStarted] *)

Lemma hookUpSession_listens kernel t : listens t → listens (hookUpSession kernel t).
Proof.
  intros [Hl Hd]. unfold hookUpSession.
  destruct (session_kernel_of kernel); [|done]. split; [done|]. simpl.
  intros Hin. apply elem_of_app in Hin as [Hin|Hin]; [done|].
  by apply list_elem_of_singleton in Hin.
Qed.

Lemma dispose_fold_listening kernel ds : ∀ t,
  OnStartedListener ∉ ds → tr_listening t = true →
  tr_listening (foldl (dispose_one kernel) t ds) = true.
Proof.
  induction ds as [|d ds IH]; intros t Hd Hl; [done|].
  apply not_elem_of_cons in Hd as [Hne Hd]. simpl. apply IH; [done|].
  destruct d; [done|]. simpl. by destruct (session_kernel_of kernel).
Qed.

Lemma disposeAll_listens kernel t : listens t → listens (disposeAllDisposables kernel t).
Proof.
  intros [Hl Hd]. unfold disposeAllDisposables. split; simpl.
  - by apply dispose_fold_listening.
  - apply not_elem_of_nil.
Qed.

Lemma handler_listens t kernel now args st :
  listens t → listens (anyMessageHandler t kernel now args st).2.
Proof.
  intros Hl. unfold anyMessageHandler. destruct (direction args).
  - by destruct (_ && _).
  - destruct (executedCells st !! cell_key (tr_cell t)) as [r|]; [|done].
    destruct (_ && _); [|done].
    destruct (content_execution_count (msg args)) as [n|]; [|done].
    destruct (negb (Js.truthy_opt _)); [|done].
    destruct (negb (Js.strict_eq_opt _ _)); [|done].
    cbn [snd]. by apply disposeAll_listens.
Qed.

Lemma emit_to_listens ts kernel now args : ∀ st,
  Forall listens ts → Forall listens (emit_to ts kernel now args st).2.
Proof.
  induction ts as [|t ts IH]; intros st Hall; [done|].
  apply Forall_cons in Hall as [Hl Hall]. simpl.
  assert (Hd : listens (deliver t kernel now args st).2).
  { unfold deliver. destruct (session_kernel_of kernel); [|done].
    destruct (_ && _); [|done]. by apply handler_listens. }
  destruct (deliver t kernel now args st) as [st1 t1]. cbn [snd] in Hd.
  specialize (IH st1 Hall).
  destruct (emit_to ts kernel now args st1) as [st2 ts2]. cbn [snd] in *.
  by constructor.
Qed.

Lemma call_listens op st :
  Forall listens (trackings st) → Forall listens (trackings (call op st)).
Proof.
  intros Hall.
  destruct op as [nb k|cell k|cell k|k now args|k|servers]; simpl.
  - done.
  - unfold trackCellExecution. destruct (_ || _); [done|]. simpl.
    apply Forall_app. split; [done|]. constructor; [|done].
    assert (H0 : listens {| tr_cell := cell; tr_kernel := kernel_key k;
                            tr_listening := true; tr_connected := false;
                            tr_disposables := [] |})
      by (split; [done|apply not_elem_of_nil]).
    destruct (session k); [|done]. by apply hookUpSession_listens.
  - unfold deleteTrackedCellExecution.
    destruct (nb_isUntitled _); [done|].
    by destruct (kernelConnectionMetadata k).
  - unfold emit.
    assert (H := emit_to_listens (trackings st) k now args st Hall).
    by destruct (emit_to (trackings st) k now args st) as [st1 ts].
  - unfold started. simpl. apply Forall_fmap.
    eapply Forall_impl; [exact Hall|]. intros t Hl. simpl.
    destruct (_ && _); [|done]. by apply hookUpSession_listens.
  - done.
Qed.

Lemma listens_exec s tr st : exec (init s) tr st → Forall listens (trackings st).
Proof.
  intros Hexec. remember (init s) as st0 eqn:Hst0.
  induction Hexec as [st|st tr st1 l st2 Hexec IH Hstep].
  - subst st. constructor.
  - specialize (IH Hst0).
    destruct Hstep as [op st1|st1 cb q st' Hq Hrun|st1 u ok Hu].
    + by apply call_listens.
    + unfold run_next in Hrun.
      destruct (awaiting (chainedPromises st1)); [|done].
      rewrite Hq in Hrun.
      destruct (callback_body cb (heap st1) (workspaceMemento st1)).
      * destruct (issue _ _). by injection Hrun as <-.
      * by injection Hrun as <-.
    + done.
Qed.

(** X13: the listener on [kernel.onStarted] is never removed.  The array
    [disposables] is handed to [kernel.onStarted] in the place of [thisArgs],
    so that disposing the array does not unregister the listener: in every
    state the tracker reaches, when a kernel with a session kernel starts,
    every handler ever created for that kernel is connected again, also one
    that has persisted its record and was disconnected. *)
Theorem started_kernel_reconnects_handlers s tr st kernel kc :
  exec (init s) tr st →
  session_kernel_of kernel = Some kc →
  length (trackings (started kernel st)) = length (trackings st)
  ∧ ∀ t, t ∈ trackings (started kernel st) →
         tr_kernel t = kernel_key kernel → tr_connected t = true.
Proof.
  intros Hexec Hk. unfold started. simpl. split; [by rewrite length_fmap|].
  intros t Hin Hkey.
  apply list_elem_of_fmap in Hin as (t0 & -> & Hin0).
  assert (Hl : listens t0).
  { eapply Forall_forall; [by eapply listens_exec|done]. }
  destruct Hl as [Hl _]. rewrite Hl in *. simpl in *.
  destruct (bool_decide (tr_kernel t0 = kernel_key kernel)) eqn:Hb.
  - unfold hookUpSession. by rewrite Hk.
  - apply bool_decide_eq_false in Hb. done.
Qed.

Lemma started_kernel_reconnects_handlers_witness :
  tr_connected <$> trackings MoreExamples.tracked_final = [false]
  ∧ length (trackings (started Examples.remote_kernel MoreExamples.tracked_final))
    = length (trackings MoreExamples.tracked_final)
  ∧ ∀ t, t ∈ trackings (started Examples.remote_kernel MoreExamples.tracked_final) →
         tr_kernel t = kernel_key Examples.remote_kernel →
         tr_connected t = true.
Proof.
  split; [vm_compute; reflexivity|].
  apply (started_kernel_reconnects_handlers ∅ MoreExamples.tracked_trace
           MoreExamples.tracked_final Examples.remote_kernel
           {| kc_id := "k-42" |}).
  - apply tracked_exec.
  - reflexivity.
Defined.

End TrackerExtra.

(** ** The registry of URI providers, further *)

Module RegistrationExtra.
Import Registration RegistryExamples RegistrationMore.

(** *** The JS [Map] *)

Lemma map_get_set {V : Type} k k' (v : V) m :
  Js.map_get k (Js.map_set k' v m)
  = if bool_decide (k = k') then Some v else Js.map_get k m.
Proof.
  unfold Js.map_get.
  induction m as [|[k0 v0] m IH]; simpl.
  - repeat case_bool_decide; simplify_eq; done.
  - destruct (bool_decide (k0 = k')) eqn:H0; simpl.
    + apply bool_decide_eq_true in H0 as ->.
      repeat case_bool_decide; simplify_eq; done.
    + apply bool_decide_eq_false in H0.
      destruct (bool_decide (k0 = k)) eqn:H1; simpl.
      * apply bool_decide_eq_true in H1 as ->.
        by rewrite bool_decide_eq_false_2.
      * exact IH.
Qed.

Lemma map_has_false {V : Type} k (m : list (string * V)) :
  Js.map_has k m = false → Js.map_get k m = None.
Proof. unfold Js.map_has. by destruct (Js.map_get k m). Qed.

Lemma map_set_absent {V : Type} k (v : V) m :
  Js.map_get k m = None → Js.map_set k v m = m ++ [(k, v)].
Proof.
  unfold Js.map_get. induction m as [|[k0 v0] m IH]; simpl; [done|].
  destruct (bool_decide (k0 = k)); simpl; [done|]. intros H. by rewrite IH.
Qed.

Lemma map_delete_absent {V : Type} k (m : list (string * V)) :
  Js.map_get k m = None → Js.map_delete k m = m.
Proof.
  unfold Js.map_get, Js.map_delete.
  induction m as [|[k0 v0] m IH]; simpl; [done|].
  destruct (bool_decide (k0 = k)); simpl; [done|]. intros H. by rewrite IH.
Qed.

(** A key set last, then replaced, then deleted. *)
Lemma map_set_delete_last {V : Type} k (v v' : V) m :
  Js.map_get k m = None →
  Js.map_get k (m ++ [(k, v)]) = Some v
  ∧ Js.map_delete k (Js.map_set k v' (m ++ [(k, v)])) = m.
Proof.
  unfold Js.map_get, Js.map_delete.
  induction m as [|[k0 v0] m IH]; simpl.
  - intros _. rewrite !bool_decide_eq_true_2 by done. simpl.
    by rewrite !bool_decide_eq_true_2.
  - destruct (bool_decide (k0 = k)) eqn:H0; simpl; [done|].
    intros H. destruct (IH H) as [IH1 IH2]. rewrite H0. simpl.
    split; [done|]. by rewrite IH2.
Qed.

(** *** [loadExistingProviderExtensionMapping] *)

Lemma owner_cons r l k :
  owner (r :: l) k
  = match owner l k with
    | Some e => Some e
    | None => if bool_decide (providerId r = k) then Some (extensionId r)
              else None
    end.
Proof.
  unfold owner. simpl. destruct (bool_decide (providerId r = k)); [|
    by destruct (last _)].
  rewrite last_cons. by destruct (last _).
Qed.

Lemma owner_elem l k e :
  owner l k = Some e → ∃ r, r ∈ l ∧ providerId r = k ∧ extensionId r = e.
Proof.
  induction l as [|r l IH]; [done|]. rewrite owner_cons.
  destruct (owner l k) as [e'|].
  - intros [= <-]. destruct (IH eq_refl) as (r' & Hin & Hr'). exists r'.
    split; [by right|done].
  - case_bool_decide; [|done]. intros [= <-]. exists r. split; [by left|done].
Qed.

Lemma load_existing_get l : ∀ m k,
  Js.map_get k
    (foldl (fun m item => Js.map_set (providerId item) (extensionId item) m) m l)
  = match owner l k with
    | Some e => Some e
    | None => Js.map_get k m
    end.
Proof.
  induction l as [|r l IH]; intros m k; [done|].
  simpl. rewrite IH, owner_cons, map_get_set.
  destruct (owner l k); [done|].
  repeat case_bool_decide; simplify_eq; done.
Qed.

(** X14: what [updateRegistrationInfo] records.  The mapping gets the
    provider with the extension that registers it; every other provider
    keeps the owner the persisted list gives it (the last record of the
    provider), or else the one the mapping had; and the list whose write is
    requested is the mapping, record by record. *)
Theorem registration_keeps_other_owners k e st k' :
  k' ≠ k →
  let st' := (updateRegistrationInfo k e st).1 in
  let M := providerExtensionMapping st' in
  Js.map_get k M = Some e
  ∧ Js.map_get k' M
    = match owner (registeredList st) k' with
      | Some e' => Some e'
      | None => Js.map_get k' (providerExtensionMapping st)
      end
  ∧ Memento.inflight (globalMemento st')
    = Memento.inflight (globalMemento st)
      ++ [(Memento.next (globalMemento st),
           (REGISTRATION_ID_EXTENSION_OWNER_MEMENTO_KEY, Some (records M)))].
Proof.
  intros Hne. unfold updateRegistrationInfo, loadExistingProviderExtensionMapping.
  simpl. split_and!.
  - rewrite map_get_set. by rewrite bool_decide_eq_true_2.
  - rewrite map_get_set, bool_decide_eq_false_2 by done.
    apply load_existing_get.
  - done.
Qed.

Lemma registration_keeps_other_owners_witness :
  let st' := (updateRegistrationInfo "colab" "google.colab"
                (init earlier_session)).1 in
  let M := providerExtensionMapping st' in
  M = [("hub", "acme.hub"); ("colab", "google.colab")]
  ∧ Js.map_get "colab" M = Some "google.colab"
  ∧ Js.map_get "hub" M
    = match owner (registeredList (init earlier_session)) "hub" with
      | Some e' => Some e'
      | None => Js.map_get "hub" (providerExtensionMapping (init earlier_session))
      end
  ∧ Memento.inflight (globalMemento st')
    = Memento.inflight (globalMemento (init earlier_session))
      ++ [(Memento.next (globalMemento (init earlier_session)),
           (REGISTRATION_ID_EXTENSION_OWNER_MEMENTO_KEY, Some (records M)))].
Proof.
  split; [vm_compute; reflexivity|].
  apply (registration_keeps_other_owners "colab" "google.colab"
           (init earlier_session) "hub").
  discriminate.
Defined.

(** X15: disposing what [registerProvider] returned undoes the
    registration, but not the record of it.  A provider whose id is free is
    added after the providers already there; disposing the returned object
    leaves the providers as they were before, with the change event fired
    twice in all; the mapping and the memento keep the owner of the
    provider, and the id can be registered again. *)
Theorem dispose_undoes_registration p e st :
  Js.map_has (id p) (_providers st) = false →
  let st1 := (registerProvider p e st).1 in
  let st2 := unregister (id p) st1 in
  _providers st1 = _providers st ++ [(id p, wrap p e)]
  ∧ _providers st2 = _providers st
  ∧ fired st2 = fired st + 2
  ∧ providerExtensionMapping st2 = providerExtensionMapping st1
  ∧ globalMemento st2 = globalMemento st1
  ∧ Js.map_get (id p) (providerExtensionMapping st2) = Some e
  ∧ ∀ e', (registerProvider p e' st2).2 = Js.Normal (id p).
Proof.
  intros Hfree st1 st2. apply map_has_false in Hfree as Hnone.
  destruct (map_set_delete_last (id p) (wrap p e)
              {| provider := p; w_extensionId := e; disposed := true |}
              (_providers st) Hnone) as [Hget Hdel].
  assert (Hp1 : _providers st1 = _providers st ++ [(id p, wrap p e)]).
  { subst st1. unfold registerProvider. rewrite Hfree. simpl.
    by apply map_set_absent. }
  assert (Hf1 : fired st1 = S (fired st)).
  { subst st1. unfold registerProvider. by rewrite Hfree. }
  assert (Hm1 : Js.map_get (id p) (providerExtensionMapping st1) = Some e).
  { subst st1. unfold registerProvider. rewrite Hfree. simpl.
    rewrite map_get_set. by rewrite bool_decide_eq_true_2. }
  assert (Hp2 : _providers st2 = _providers st).
  { subst st2. unfold unregister. rewrite Hp1, Hget. simpl. exact Hdel. }
  split_and!.
  - done.
  - done.
  - subst st2. unfold unregister. simpl. rewrite Hf1. lia.
  - done.
  - done.
  - done.
  - intros e'. rewrite RegistrationSpec.registerProvider_result.
    by rewrite Hp2, Hfree.
Qed.

Lemma dispose_undoes_registration_witness :
  let st := registered_once in
  let st1 := (registerProvider hub "acme.hub" st).1 in
  let st2 := unregister (id hub) st1 in
  _providers st1 = _providers st ++ [(id hub, wrap hub "acme.hub")]
  ∧ _providers st2 = _providers st
  ∧ fired st2 = fired st + 2
  ∧ providerExtensionMapping st2 = providerExtensionMapping st1
  ∧ globalMemento st2 = globalMemento st1
  ∧ Js.map_get (id hub) (providerExtensionMapping st2) = Some "acme.hub"
  ∧ ∀ e', (registerProvider hub e' st2).2 = Js.Normal (id hub).
Proof.
  apply (dispose_undoes_registration hub "acme.hub" registered_once).
  reflexivity.
Defined.

(** *** Lookups after a registration *)

(** The lazy load, whether it has run or not, leaves the providers alone
    and sets the mapping from the persisted list. *)
Lemma load_providers_mapping JVSC all st :
  (∀ err, loadedOtherExtensionsPromise st ≠ Some (Js.Rejected err)) →
  let r := loadOtherExtensions JVSC all st in
  r.2 = Js.Fulfilled tt
  ∧ _providers r.1 = _providers st
  ∧ ∀ k, Js.map_get k (providerExtensionMapping r.1)
         = match loadedOtherExtensionsPromise st with
           | Some _ => Js.map_get k (providerExtensionMapping st)
           | None =>
               match owner (registeredList st) k with
               | Some e => Some e
               | None => Js.map_get k (providerExtensionMapping st)
               end
           end.
Proof.
  intros Hok. unfold loadOtherExtensions.
  destruct (loadedOtherExtensionsPromise st) as [[[]|err]|] eqn:Hl.
  - done.
  - by destruct (Hok err).
  - destruct (RegistrationSpec.loadImpl_spec JVSC all st) as [_ Hp].
    destruct (loadOtherExtensionsImpl JVSC all st) as [st1 p0] eqn:Himpl.
    cbn [fst snd] in *. subst p0.
    unfold loadOtherExtensionsImpl in Himpl. injection Himpl as <-.
    split_and!; [done..|]. intros k. simpl. apply load_existing_get.
Qed.

(** X16: looking up a provider that has just been registered.  Unless the
    persisted list gives the provider to another extension, [getProvider]
    finds the wrapper of the provider with the extension that registered
    it, and [getJupyterServerUri] either hands out what the provider
    answers, or, for a handle the provider does not list, rejects with an
    error that carries that extension. *)
Theorem lookup_after_registration
    JVSC unknown gen csid all p e st handle :
  Js.map_has (id p) (_providers st) = false →
  (∀ err, loadedOtherExtensionsPromise st ≠ Some (Js.Rejected err)) →
  (∀ r, r ∈ registeredList st → providerId r = id p → extensionId r = e) →
  let st1 := (registerProvider p e st).1 in
  let idle := fun s : State => s in
  (getProvider JVSC all idle (id p) st1).2 = Js.Fulfilled (Some (wrap p e))
  ∧ (getJupyterServerUri JVSC unknown gen csid all idle idle (id p) handle
       st1).2
    = match getHandles p with
      | Some (Js.Rejected err) => Js.Rejected err
      | Some (Js.Fulfilled handles) =>
          if bool_decide (handle ∈ handles)
          then getServerUri p handle
          else Js.Rejected
                 (Js.InvalidRemoteJupyterServerUriHandleError (id p) handle
                    (Some e) (csid (gen (id p) handle)))
      | None => getServerUri p handle
      end.
Proof.
  intros Hfree Hok Hown st1 idle.
  apply map_has_false in Hfree as Hnone.
  assert (Hp1 : Js.map_get (id p) (_providers st1) = Some (wrap p e)).
  { subst st1. unfold registerProvider. rewrite Hfree. simpl.
    rewrite map_get_set. by rewrite bool_decide_eq_true_2. }
  assert (Hm1 : Js.map_get (id p) (providerExtensionMapping st1) = Some e).
  { subst st1. unfold registerProvider. rewrite Hfree. simpl.
    rewrite map_get_set. by rewrite bool_decide_eq_true_2. }
  assert (Hl1 : loadedOtherExtensionsPromise st1 = loadedOtherExtensionsPromise st).
  { subst st1. unfold registerProvider. by rewrite Hfree. }
  assert (Hr1 : registeredList st1 = registeredList st).
  { subst st1. unfold registerProvider. by rewrite Hfree. }
  assert (Hok1 : ∀ err, loadedOtherExtensionsPromise st1 ≠ Some (Js.Rejected err))
    by (intros err; rewrite Hl1; apply Hok).
  destruct (load_providers_mapping JVSC all st1 Hok1) as (Hres & Hprov & Hmap).
  assert (Hm2 : Js.map_get (id p)
                  (providerExtensionMapping (loadOtherExtensions JVSC all st1).1)
                = Some e).
  { rewrite Hmap. destruct (loadedOtherExtensionsPromise st1); [done|].
    rewrite Hr1. destruct (owner (registeredList st) (id p)) as [e'|] eqn:Ho;
      [|done].
    apply owner_elem in Ho as (r & Hin & Hk & <-). f_equal. by apply Hown. }
  destruct (loadOtherExtensions JVSC all st1) as [st2 p0] eqn:Hload.
  cbn [fst snd] in *. subst p0. split.
  - unfold getProvider. rewrite Hload. subst idle. cbn beta. cbn [snd].
    by rewrite Hprov, Hp1.
  - unfold getJupyterServerUri. rewrite Hload. subst idle. cbn beta.
    rewrite Hprov, Hp1. cbn [provider wrap].
    destruct (getHandles p) as [[handles|err]|]; [|done..].
    case_bool_decide; [done|]. simpl. by rewrite Hm2.
Qed.

Lemma lookup_after_registration_witness :
  let JVSC := "ms-toolsai.jupyter" in
  let unknown := "Unknown server URI" in
  let gen := fun id0 handle => String.append id0 (String.append "/" handle) in
  let csid := fun uri : string => uri in
  let st1 := (registerProvider colab "google.colab" (init ∅)).1 in
  let idle := fun s : State => s in
  (getProvider JVSC extensions_all idle (id colab) st1).2
  = Js.Fulfilled (Some (wrap colab "google.colab"))
  ∧ (getJupyterServerUri JVSC unknown gen csid extensions_all idle idle
       (id colab) "h9" st1).2
    = match getHandles colab with
      | Some (Js.Rejected err) => Js.Rejected err
      | Some (Js.Fulfilled handles) =>
          if bool_decide ("h9" ∈ handles)
          then getServerUri colab "h9"
          else Js.Rejected
                 (Js.InvalidRemoteJupyterServerUriHandleError (id colab) "h9"
                    (Some "google.colab") (csid (gen (id colab) "h9")))
      | None => getServerUri colab "h9"
      end.
Proof.
  apply (lookup_after_registration "ms-toolsai.jupyter" "Unknown server URI"
           (fun id0 handle => String.append id0 (String.append "/" handle))
           (fun uri : string => uri) extensions_all colab "google.colab"
           (init ∅) "h9").
  - reflexivity.
  - intros err. discriminate.
  - intros r Hin. vm_compute in Hin. by apply elem_of_nil in Hin.
Defined.

End RegistrationExtra.

(** ** The wrapper of a provider *)

Module WrapperExtra.
Import Wrapper.

(** X17: the quick pick round trip.  The entries the wrapper hands out are
    those of the provider, one for one and in the same order, each with its
    label and with the description formatted with the extension id; and
    when such an entry is picked, the provider is handed the entry it
    offered, not the decorated one. *)
Theorem quick_pick_round_trip format p extensionId0 qs handle :
  provider_getQuickPickEntryItems p = Some (Js.Fulfilled qs) →
  provider_handleQuickPick p = Some handle →
  ∃ items,
    getQuickPickEntryItems format p extensionId0 = Js.Fulfilled items
    ∧ length items = length qs
    ∧ ∀ i q, qs !! i = Some q →
        ∃ item, items !! i = Some item
          ∧ label item = label q
          ∧ description item
            = Some (format (default "" (description q)) extensionId0)
          ∧ ∀ back, handleQuickPick p item back = handle q back.
Proof.
  intros Hitems Hpick. exists (decorate format extensionId0 <$> qs).
  unfold getQuickPickEntryItems. rewrite Hitems. split_and!.
  - done.
  - by rewrite length_fmap.
  - intros i q Hq. exists (decorate format extensionId0 q). split_and!.
    + by rewrite list_lookup_fmap, Hq.
    + done.
    + simpl. destruct (description q) as [d|]; [|done]. simpl.
      by destruct d.
    + intros back. unfold handleQuickPick. by rewrite Hpick.
Qed.

Lemma quick_pick_round_trip_witness :
  let format := fun d e : string =>
    String.append d (String.append " (" (String.append e ")")) in
  ∃ items,
    getQuickPickEntryItems format picker "google.colab" = Js.Fulfilled items
    ∧ length items = 2
    ∧ ∀ i q,
        [ {| label := "Existing"; description := None; detail := None;
             original := None |};
          {| label := "New"; description := Some "start one";
             detail := None; original := None |} ] !! i = Some q →
        ∃ item, items !! i = Some item
          ∧ label item = label q
          ∧ description item
            = Some (format (default "" (description q)) "google.colab")
          ∧ ∀ back, handleQuickPick picker item back
                    = Js.Fulfilled (if back then Some "back"
                                    else Some (label q)).
Proof.
  intros format.
  apply (quick_pick_round_trip format picker "google.colab"
           [ {| label := "Existing"; description := None; detail := None;
                original := None |};
             {| label := "New"; description := Some "start one";
                detail := None; original := None |} ]
           (fun (item : QuickPickItem) (back : bool) =>
              Js.Fulfilled (if back then Some "back" else Some (label item))));
    reflexivity.
Defined.



End WrapperExtra.
